(** * Verification of the chat front end (src/public/chat.js)

    The development embeds [sendMessage] and [addMessageToChat] of
    [src/public/chat.js] together with the part of the browser platform
    they call ([String.prototype.trim], [String.prototype.split],
    [TextDecoder], [JSON.parse] and the coercions of [if (...)] and [+=]),
    and proves the properties of the streaming response assembler and of
    the conversation state tracker. *)

From Stdlib Require Import List ZArith NArith Bool Lia.
From Stdlib Require Import Strings.Byte Floats.SpecFloat.
From Stdlib Require Ascii String.
Import ListNotations String.StringSyntax.
Delimit Scope string_scope with string.

Set Warnings "-register-all".

(* ================================================================== *)
(** * JavaScript strings *)
(* ================================================================== *)

Module JsStr.

(** A JavaScript string is a finite sequence of UTF-16 code units. *)
Definition code_unit := N.
Definition JsString := list code_unit.

Definition eq_dec : forall a b : JsString, {a = b} + {a <> b} :=
  list_eq_dec N.eq_dec.

Definition eqb (a b : JsString) : bool := if eq_dec a b then true else false.

(** ASCII source literals. *)
Definition lit (s : String.string) : JsString :=
  map Ascii.N_of_ascii (String.list_ascii_of_string s).

(** Source text that contains the double quote (code unit 34) is written
    with an apostrophe (39) in its place. *)
Definition quoted (s : String.string) : JsString :=
  map (fun c => if N.eqb c 39 then 34%N else c) (lit s).

Arguments lit s%_string : simpl never.
Arguments quoted s%_string : simpl never.

Definition LF : code_unit := 10%N.

(** [String.prototype.trim]: strips WhiteSpace and LineTerminator code
    points (ECMA-262, 22.1.3.32 with tables 35 and 36) from both ends. *)
Definition is_trim_space (c : code_unit) : bool :=
  existsb (N.eqb c)
    [9; 10; 11; 12; 13; 32; 160; 5760; 8232; 8233; 8239; 8287; 12288; 65279]%N
  || (N.leb 8192 c && N.leb c 8202).

Fixpoint trimStart (s : JsString) : JsString :=
  match s with
  | [] => []
  | c :: r => if is_trim_space c then trimStart r else s
  end.

Definition trim (s : JsString) : JsString :=
  rev (trimStart (rev (trimStart s))).

(** [s.split(sep)] for a separator of one code unit: the substrings
    between the occurrences of [sep], in order; never the empty array. *)
Fixpoint split (sep : code_unit) (s : JsString) : list JsString :=
  match s with
  | [] => [[]]
  | c :: r =>
      if N.eqb c sep then [] :: split sep r
      else match split sep r with
           | l :: ls => (c :: l) :: ls
           | [] => [[c]]
           end
  end.

End JsStr.
Export JsStr.

(* ================================================================== *)
(** * TextDecoder *)
(* ================================================================== *)

Module TextDecoder.

Local Open Scope N_scope.

(** [new TextDecoder()]: the UTF-8 decoder of the WHATWG Encoding
    standard, with error mode replacement and [ignoreBOM] false.  The
    fields are the decoder's state variables; [BOM_seen] is the flag of
    the [TextDecoder] object. *)
Record t := mk {
  code_point : N;
  bytes_seen : N;
  bytes_needed : N;
  lower_boundary : N;
  upper_boundary : N;
  BOM_seen : bool
}.

Definition new : t := mk 0 0 0 128 191 false.

Definition in_range (lo hi b : N) : bool := N.leb lo b && N.leb b hi.

(** The handler at a byte when no sequence is pending: the new state
    variables and the code points emitted. *)
Definition lead (bom : bool) (b : N) : t * list N :=
  if in_range 0 127 b then (mk 0 0 0 128 191 bom, [b])
  else if in_range 194 223 b then (mk (N.land b 31) 0 1 128 191 bom, [])
  else if in_range 224 239 b then
    (mk (N.land b 15) 0 2
        (if N.eqb b 224 then 160 else 128)
        (if N.eqb b 237 then 159 else 191) bom, [])
  else if in_range 240 244 b then
    (mk (N.land b 7) 0 3
        (if N.eqb b 240 then 144 else 128)
        (if N.eqb b 244 then 143 else 191) bom, [])
  else (mk 0 0 0 128 191 bom, [65533]).

(** The handler at one byte.  A byte outside the expected range ends the
    pending sequence with U+FFFD and is then handled again from the
    reset state. *)
Definition handler (d : t) (b : N) : t * list N :=
  if N.eqb (bytes_needed d) 0 then lead (BOM_seen d) b
  else if negb (in_range (lower_boundary d) (upper_boundary d) b) then
    let '(d', out) := lead (BOM_seen d) b in (d', 65533 :: out)
  else
    let cp := N.lor (N.shiftl (code_point d) 6) (N.land b 63) in
    let seen := N.succ (bytes_seen d) in
    if N.eqb seen (bytes_needed d)
    then (mk 0 0 0 128 191 (BOM_seen d), [cp])
    else (mk cp seen (bytes_needed d) 128 191 (BOM_seen d), []).

(** Scalar value to UTF-16 code units. *)
Definition utf16 (cp : N) : JsString :=
  if N.ltb cp 65536 then [cp]
  else [55296 + N.shiftr (cp - 65536) 10; 56320 + N.land (cp - 65536) 1023].

(** Serialising the emitted code points: the first one of the stream is
    dropped when it is the byte order mark U+FEFF. *)
Fixpoint serialize (bom : bool) (cps : list N) : bool * JsString :=
  match cps with
  | [] => (bom, [])
  | cp :: r =>
      let '(bom', out) := serialize true r in
      if bom then (bom', utf16 cp ++ out)
      else if N.eqb cp 65279 then (bom', out)
      else (bom', utf16 cp ++ out)
  end.

Definition set_BOM_seen (d : t) (b : bool) : t :=
  mk (code_point d) (bytes_seen d) (bytes_needed d)
     (lower_boundary d) (upper_boundary d) b.

Definition step (d : t) (b : byte) : t * JsString :=
  let '(d', cps) := handler d (Byte.to_N b) in
  let '(bom, out) := serialize (BOM_seen d) cps in
  (set_BOM_seen d' bom, out).

(** [decoder.decode(value, { stream: true })]: the bytes of [value] go
    through the handler one after the other; a sequence still incomplete
    at the end of [value] stays pending in the decoder. *)
Fixpoint decode (d : t) (value : list byte) : t * JsString :=
  match value with
  | [] => (d, [])
  | b :: r =>
      let '(d1, o1) := step d b in
      let '(d2, o2) := decode d1 r in
      (d2, o1 ++ o2)
  end.

End TextDecoder.

(* ================================================================== *)
(** * Number values *)
(* ================================================================== *)

Module JsNumber.

Local Open Scope Z_scope.

(** A Number is an IEEE 754 binary64 value. *)
Definition prec : Z := 53.
Definition emax : Z := 1024.
Definition t := spec_float.

(** The Number value of the decimal [(-1)^neg * m * 10^e]: the nearest
    binary64 value, ties to even, infinite beyond the largest one. *)
Definition of_decimal (neg : bool) (m : N) (e : Z) : t :=
  match m with
  | N0 => S754_zero neg
  | Npos p =>
      if 0 <=? e then
        match 10 ^ e with
        | Zpos q => binary_round prec emax neg (p * q) 0
        | _ => S754_nan
        end
      else
        let '(q, e', l) :=
          SFdiv_core_binary prec emax (Zpos p) 0 (10 ^ (- e)) 0 in
        binary_round_aux prec emax neg q e' l
  end.

(** [ToBoolean] of a Number: false at +0, -0 and NaN. *)
Definition ToBoolean (x : t) : bool :=
  match x with
  | S754_zero _ | S754_nan => false
  | _ => true
  end.

Fixpoint uint_units (d : Decimal.uint) : JsString :=
  match d with
  | Decimal.Nil => []
  | Decimal.D0 r => 48%N :: uint_units r
  | Decimal.D1 r => 49%N :: uint_units r
  | Decimal.D2 r => 50%N :: uint_units r
  | Decimal.D3 r => 51%N :: uint_units r
  | Decimal.D4 r => 52%N :: uint_units r
  | Decimal.D5 r => 53%N :: uint_units r
  | Decimal.D6 r => 54%N :: uint_units r
  | Decimal.D7 r => 55%N :: uint_units r
  | Decimal.D8 r => 56%N :: uint_units r
  | Decimal.D9 r => 57%N :: uint_units r
  end.

(** The decimal digits of a natural number. *)
Definition decimal (n : Z) : JsString := uint_units (N.to_uint (Z.to_N n)).

(** [x * 10^p] for the positive value [x = m * 2^e], as a fraction. *)
Definition scaled (m : positive) (e p : Z) : Z * Z :=
  (Zpos m * 2 ^ Z.max e 0 * 10 ^ Z.max p 0,
   2 ^ Z.max (- e) 0 * 10 ^ Z.max (- p) 0).

(** The least [n] with [x < 10^n]. *)
Definition magnitude (m : positive) (e : Z) : Z :=
  let below n := let '(a, b) := scaled m e (- n) in a <? b in
  match find below (map (fun i => Z.of_nat i - 324) (seq 0 634)) with
  | Some n => n
  | None => 309
  end.

(** The candidates with [k] digits for [x = m * 2^e] of magnitude [n]:
    the two [k]-digit decimals around [x], kept when they denote [x]
    again, the one nearer to [x] first (the even one at a tie). *)
Definition candidates (m : positive) (e n k : Z) : list (Z * Z * Z) :=
  let '(a, b) := scaled m e (k - n) in
  let lo := a / b in
  let hi := lo + 1 in
  let back s := SFeqb (of_decimal false (Z.to_N s) (n - k)) (S754_finite false m e) in
  let norm s := if s =? 10 ^ k then (n + 1, 1, 1) else (n, k, s) in
  let near_lo :=
    match (a - lo * b) ?= (hi * b - a) with
    | Lt => true
    | Gt => false
    | Eq => Z.even lo
    end in
  map norm (filter back (if near_lo then [lo; hi] else [hi; lo])).

(** The integers [n], [k], [s] of Number::toString: [k] as small as
    possible with [s * 10^(n-k)] denoting [x], and [s] nearest to [x]. *)
Definition shortest (m : positive) (e : Z) : Z * Z * Z :=
  let n := magnitude m e in
  match flat_map (fun i => candidates m e n (Z.of_nat i)) (seq 1 17) with
  | c :: _ => c
  | [] => (n, 17, fst (scaled m e (17 - n)) / snd (scaled m e (17 - n)))
  end.

Definition zeros (n : Z) : JsString := repeat 48%N (Z.to_nat n).

(** The notation of Number::toString for the digits [s], [k] of them,
    with the decimal point after the [n]-th. *)
Definition notation (n k s : Z) : JsString :=
  let ds := decimal s in
  if (k <=? n) && (n <=? 21) then ds ++ zeros (n - k)
  else if (0 <? n) && (n <=? 21) then
    firstn (Z.to_nat n) ds ++ [46%N] ++ skipn (Z.to_nat n) ds
  else if (-6 <? n) && (n <=? 0) then [48%N; 46%N] ++ zeros (- n) ++ ds
  else
    let sign := if n - 1 <? 0 then 45%N else 43%N in
    let mant := if k =? 1 then ds else firstn 1 ds ++ [46%N] ++ skipn 1 ds in
    mant ++ [101%N; sign] ++ decimal (Z.abs (n - 1)).

(** Number::toString (radix 10). *)
Definition toString (x : t) : JsString :=
  match x with
  | S754_nan => lit "NaN"
  | S754_zero _ => lit "0"
  | S754_infinity s => (if s then lit "-" else []) ++ lit "Infinity"
  | S754_finite s m e =>
      (if s then lit "-" else []) ++
      (let '(n, k, d) := shortest m e in notation n k d)
  end.

End JsNumber.

(* ================================================================== *)
(** * JSON values and JSON.parse *)
(* ================================================================== *)

(** The values [JSON.parse] returns.  The properties of an object are
    kept in source order; a later property of the same name replaces an
    earlier one, see [Get]. *)
Inductive JsValue : Type :=
| JNull
| JBool (b : bool)
| JNumber (x : JsNumber.t)
| JString (s : JsString)
| JArray (items : list JsValue)
| JObject (props : list (JsString * JsValue)).

Module JSON.

Local Open Scope N_scope.

Inductive result : Type :=
| Parsed (v : JsValue) (rest : JsString)
| Invalid
| OutOfFuel.

Definition is_ws (c : code_unit) : bool :=
  N.eqb c 9 || N.eqb c 10 || N.eqb c 13 || N.eqb c 32.

Fixpoint skip_ws (s : JsString) : JsString :=
  match s with
  | [] => []
  | c :: r => if is_ws c then skip_ws r else s
  end.

Definition is_digit (c : code_unit) : bool := N.leb 48 c && N.leb c 57.

Definition hex_value (c : code_unit) : option N :=
  if is_digit c then Some (c - 48)
  else if N.leb 65 c && N.leb c 70 then Some (c - 55)
  else if N.leb 97 c && N.leb c 102 then Some (c - 87)
  else None.

Definition hex4 (a b c d : code_unit) : option code_unit :=
  match hex_value a, hex_value b, hex_value c, hex_value d with
  | Some x, Some y, Some z, Some w => Some (((x * 16 + y) * 16 + z) * 16 + w)
  | _, _, _, _ => None
  end.

(** The code unit of a one-letter escape. *)
Definition escape (c : code_unit) : option code_unit :=
  if N.eqb c 34 then Some 34        (* quotation mark *)
  else if N.eqb c 92 then Some 92   (* reverse solidus *)
  else if N.eqb c 47 then Some 47   (* solidus *)
  else if N.eqb c 98 then Some 8    (* b: backspace *)
  else if N.eqb c 102 then Some 12  (* f: form feed *)
  else if N.eqb c 110 then Some 10  (* n: line feed *)
  else if N.eqb c 114 then Some 13  (* r: carriage return *)
  else if N.eqb c 116 then Some 9   (* t: tab *)
  else None.

Definition consume (c : code_unit) (r : option (JsString * JsString))
  : option (JsString * JsString) :=
  match r with
  | Some (body, rest) => Some (c :: body, rest)
  | None => None
  end.

(** The characters of a string after its opening quote, up to and
    including the closing quote: the string's value and what follows. *)
Fixpoint string_chars (s : JsString) : option (JsString * JsString) :=
  match s with
  | [] => None
  | c :: r =>
      if N.eqb c 34 then Some ([], r)
      else if N.eqb c 92 then
        match r with
        | [] => None
        | e :: r1 =>
            if N.eqb e 117 then
              match r1 with
              | h1 :: h2 :: h3 :: h4 :: r2 =>
                  match hex4 h1 h2 h3 h4 with
                  | Some u => consume u (string_chars r2)
                  | None => None
                  end
              | _ => None
              end
            else
              match escape e with
              | Some u => consume u (string_chars r1)
              | None => None
              end
        end
      else if N.ltb c 32 then None
      else consume c (string_chars r)
  end.

(** The longest run of digits at the head of [s]: its value, its length
    and what follows. *)
Fixpoint digits (acc : N) (len : nat) (s : JsString) : N * nat * JsString :=
  match s with
  | c :: r => if is_digit c then digits (acc * 10 + (c - 48)) (S len) r
              else (acc, len, s)
  | [] => (acc, len, s)
  end.

(** The optional minus sign of a number. *)
Definition sign (s : JsString) : bool * JsString :=
  match s with
  | c :: r => if N.eqb c 45 then (true, r) else (false, s)
  | [] => (false, s)
  end.

(** The integer part of a number: a single 0, or a digit from 1 to 9
    followed by digits. *)
Definition int_part (s : JsString) : option (N * JsString) :=
  match s with
  | c :: r =>
      if N.eqb c 48 then Some (0, r)
      else if is_digit c then
        let '(m, _, r') := digits 0 0%nat s in Some (m, r')
      else None
  | [] => None
  end.

(** The optional fraction after the integer part [m]: a point and at
    least one digit.  The result is the digits of both as one number,
    and how many of them came after the point. *)
Definition frac_part (m : N) (s : JsString) : option (N * nat * JsString) :=
  match s with
  | c :: r =>
      if N.eqb c 46 then
        match digits m 0%nat r with
        | (_, O, _) => None
        | (m', len, r') => Some (m', len, r')
        end
      else Some (m, O, s)
  | [] => Some (m, O, s)
  end.

(** The optional exponent: e or E, an optional sign and at least one
    digit. *)
Definition exp_part (s : JsString) : option (Z * JsString) :=
  match s with
  | c :: r =>
      if N.eqb c 101 || N.eqb c 69 then
        let '(minus, r1) :=
          match r with
          | d :: r' => if N.eqb d 45 then (true, r')
                       else if N.eqb d 43 then (false, r')
                       else (false, r)
          | [] => (false, r)
          end in
        match digits 0 0%nat r1 with
        | (_, O, _) => None
        | (x, _, r2) => Some (if minus then (- Z.of_N x)%Z else Z.of_N x, r2)
        end
      else Some (0%Z, s)
  | [] => Some (0%Z, s)
  end.

(** A JSON number and what follows it. *)
Definition number (s : JsString) : option (JsNumber.t * JsString) :=
  let '(neg, s1) := sign s in
  match int_part s1 with
  | None => None
  | Some (m, s2) =>
      match frac_part m s2 with
      | None => None
      | Some (m', len, s3) =>
          match exp_part s3 with
          | None => None
          | Some (x, s4) =>
              Some (JsNumber.of_decimal neg m' (x - Z.of_nat len)%Z, s4)
          end
      end
  end.

Fixpoint starts_with (p s : JsString) : option JsString :=
  match p, s with
  | [], _ => Some s
  | a :: p', b :: s' => if N.eqb a b then starts_with p' s' else None
  | _ :: _, [] => None
  end.

(** A JSON value at the head of [s], after optional white space;
    [elements] reads the rest of an array after [[] or [,], [members]
    the rest of an object after [{] or [,]. *)
Fixpoint value (fuel : nat) (s : JsString) : result :=
  match fuel with
  | O => OutOfFuel
  | S f =>
      match skip_ws s with
      | [] => Invalid
      | c :: r =>
          if N.eqb c 91 then
            match skip_ws r with
            | d :: r' => if N.eqb d 93 then Parsed (JArray []) r'
                         else elements f r []
            | [] => Invalid
            end
          else if N.eqb c 123 then
            match skip_ws r with
            | d :: r' => if N.eqb d 125 then Parsed (JObject []) r'
                         else members f r []
            | [] => Invalid
            end
          else if N.eqb c 34 then
            match string_chars r with
            | Some (str, r') => Parsed (JString str) r'
            | None => Invalid
            end
          else
            match starts_with (lit "null") (c :: r),
                  starts_with (lit "true") (c :: r),
                  starts_with (lit "false") (c :: r) with
            | Some r', _, _ => Parsed JNull r'
            | _, Some r', _ => Parsed (JBool true) r'
            | _, _, Some r' => Parsed (JBool false) r'
            | None, None, None =>
                match number (c :: r) with
                | Some (x, r') => Parsed (JNumber x) r'
                | None => Invalid
                end
            end
      end
  end
with elements (fuel : nat) (s : JsString) (acc : list JsValue) : result :=
  match fuel with
  | O => OutOfFuel
  | S f =>
      match value f s with
      | Parsed v r =>
          match skip_ws r with
          | c :: r' =>
              if N.eqb c 44 then elements f r' (v :: acc)
              else if N.eqb c 93 then Parsed (JArray (rev (v :: acc))) r'
              else Invalid
          | [] => Invalid
          end
      | other => other
      end
  end
with members (fuel : nat) (s : JsString) (acc : list (JsString * JsValue))
  : result :=
  match fuel with
  | O => OutOfFuel
  | S f =>
      match skip_ws s with
      | c :: r =>
          if N.eqb c 34 then
            match string_chars r with
            | Some (key, r1) =>
                match skip_ws r1 with
                | d :: r2 =>
                    if N.eqb d 58 then
                      match value f r2 with
                      | Parsed v r3 =>
                          match skip_ws r3 with
                          | e :: r4 =>
                              if N.eqb e 44 then members f r4 ((key, v) :: acc)
                              else if N.eqb e 125
                              then Parsed (JObject (rev ((key, v) :: acc))) r4
                              else Invalid
                          | [] => Invalid
                          end
                      | other => other
                      end
                    else Invalid
                | [] => Invalid
                end
            | None => Invalid
            end
          else Invalid
      | [] => Invalid
      end
  end.

(** [JSON.parse(text)]: the value of [text] when it is one JSON value
    between optional white space, [None] when it throws a SyntaxError. *)
Definition parse (text : JsString) : option JsValue :=
  match value (S (2 * length text)) text with
  | Parsed v rest =>
      match skip_ws rest with
      | [] => Some v
      | _ :: _ => None
      end
  | _ => None
  end.

End JSON.

(* ================================================================== *)
(** * Completions and coercions *)
(* ================================================================== *)

Inductive Exception : Type :=
| SyntaxError
| TypeError
| Error (message : JsString).

(** The outcome of evaluating a piece of code that may throw. *)
Inductive completion (A : Type) : Type :=
| Normal (a : A)
| Throw (e : Exception).

Arguments Normal {A} a.
Arguments Throw {A} e.

Definition bind {A B : Type} (c : completion A) (k : A -> completion B)
  : completion B :=
  match c with
  | Normal a => k a
  | Throw e => Throw e
  end.

Notation "x <- c ;; k" := (bind c (fun x => k))
  (at level 61, c at next level, right associativity).

(** [JSON.parse(line)] as a completion. *)
Definition JSON_parse (line : JsString) : completion JsValue :=
  match JSON.parse line with
  | Some v => Normal v
  | None => Throw SyntaxError
  end.

(** The own property [key] of an object: the last one of that name. *)
Definition Get (props : list (JsString * JsValue)) (key : JsString)
  : option JsValue :=
  match find (fun p => JsStr.eqb (fst p) key) (rev props) with
  | Some p => Some (snd p)
  | None => None
  end.

(** [jsonData.response]: a TypeError at [null], the own property of an
    object, and [undefined] ([None]) at the other values, whose
    prototypes and indices have no property of that name. *)
Definition GetV_response (jsonData : JsValue) : completion (option JsValue) :=
  match jsonData with
  | JNull => Throw TypeError
  | JObject props => Normal (Get props (lit "response"))
  | _ => Normal None
  end.

(** The truthiness tested by [if (jsonData.response)]. *)
Definition ToBoolean (v : option JsValue) : bool :=
  match v with
  | None => false
  | Some JNull => false
  | Some (JBool b) => b
  | Some (JNumber x) => JsNumber.ToBoolean x
  | Some (JString s) => negb (JsStr.eqb s [])
  | Some (JArray _) => true
  | Some (JObject _) => true
  end.

(** The text that [responseText += v] appends.  An array is joined with
    commas, [null] items giving the empty text; a plain object gives
    [[object Object]] unless it has an own property [toString], which
    [JSON.parse] never makes callable: then the conversion throws. *)
Fixpoint ToString (v : JsValue) : completion JsString :=
  match v with
  | JNull => Normal (lit "null")
  | JBool true => Normal (lit "true")
  | JBool false => Normal (lit "false")
  | JNumber x => Normal (JsNumber.toString x)
  | JString s => Normal s
  | JArray items =>
      (fix join (l : list JsValue) : completion JsString :=
         match l with
         | [] => Normal []
         | x :: r =>
             a <- match x with JNull => Normal [] | _ => ToString x end ;;
             match r with
             | [] => Normal a
             | _ :: _ => b <- join r ;; Normal (a ++ lit "," ++ b)
             end
         end) items
  | JObject props =>
      match Get props (lit "toString") with
      | Some _ => Throw TypeError
      | None => Normal (lit "[object Object]")
      end
  end.

(* ================================================================== *)
(** * The page: state, DOM and effects *)
(* ================================================================== *)

Inductive Role : Type := system | user | assistant.

Definition role_name (r : Role) : JsString :=
  match r with
  | system => lit "system"
  | user => lit "user"
  | assistant => lit "assistant"
  end.

(** An entry of [chatHistory]. *)
Record Message : Type := mkMessage { role : Role; content : JsString }.

(** A child of [#chat-messages]: its class, the markup assigned to its
    [innerHTML], and the text last assigned to the [textContent] of its
    paragraph, if any was. *)
Record Element : Type := mkElement {
  className : JsString;
  innerHTML : JsString;
  p_textContent : option JsString
}.

Definition File := list byte.

(** The body of a request: [JSON.stringify({ messages })], or the form
    data with the parts [messages] and [image]. *)
Inductive Body : Type :=
| JsonBody (messages : list Message)
| FormData (messages : list Message) (image : File).

Record Request : Type := mkRequest {
  url : JsString;
  method : JsString;
  body : Body
}.

Inductive ConsoleEntry : Type :=
| warn (e : Exception) (line : JsString)
| error (e : Exception).

(** The state the script works on: its two variables, the properties of
    the page's elements it reads or writes, and the effects it has had
    on the outside, oldest first: the requests sent, the console output
    and the assignments to the [textContent] of a paragraph (element
    index and text).  Scroll position, textarea height and focus are
    layout only and left out. *)
Record World : Type := mkWorld {
  chatHistory : list Message;
  isProcessing : bool;
  userInput_value : JsString;
  userInput_disabled : bool;
  sendButton_disabled : bool;
  imageInput_disabled : bool;
  imageInput_files : list File;
  typingIndicator_visible : bool;
  chatMessages : list Element;
  fetched : list Request;
  console : list ConsoleEntry;
  textContent_writes : list (nat * JsString)
}.

Definition set_chatHistory v w :=
  let 'mkWorld _ b c d e f g h i j k l := w in mkWorld v b c d e f g h i j k l.
Definition set_isProcessing v w :=
  let 'mkWorld a _ c d e f g h i j k l := w in mkWorld a v c d e f g h i j k l.
Definition set_userInput_value v w :=
  let 'mkWorld a b _ d e f g h i j k l := w in mkWorld a b v d e f g h i j k l.
Definition set_userInput_disabled v w :=
  let 'mkWorld a b c _ e f g h i j k l := w in mkWorld a b c v e f g h i j k l.
Definition set_sendButton_disabled v w :=
  let 'mkWorld a b c d _ f g h i j k l := w in mkWorld a b c d v f g h i j k l.
Definition set_imageInput_disabled v w :=
  let 'mkWorld a b c d e _ g h i j k l := w in mkWorld a b c d e v g h i j k l.
Definition set_imageInput_files v w :=
  let 'mkWorld a b c d e f _ h i j k l := w in mkWorld a b c d e f v h i j k l.
Definition set_typingIndicator_visible v w :=
  let 'mkWorld a b c d e f g _ i j k l := w in mkWorld a b c d e f g v i j k l.
Definition set_chatMessages v w :=
  let 'mkWorld a b c d e f g h _ j k l := w in mkWorld a b c d e f g h v j k l.
Definition set_fetched v w :=
  let 'mkWorld a b c d e f g h i _ k l := w in mkWorld a b c d e f g h i v k l.
Definition set_console v w :=
  let 'mkWorld a b c d e f g h i j _ l := w in mkWorld a b c d e f g h i j v l.
Definition set_textContent_writes v w :=
  let 'mkWorld a b c d e f g h i j k _ := w in mkWorld a b c d e f g h i j k v.

Definition greeting : JsString :=
  lit "Hello! I'm an LLM chat app powered by Cloudflare Workers AI. How can I help you today?".

(** The state when the script has loaded: [chatHistory] and
    [isProcessing] as declared, the page as [index.html] has it. *)
Definition initial : World := {|
  chatHistory := [mkMessage assistant greeting];
  isProcessing := false;
  userInput_value := [];
  userInput_disabled := false;
  sendButton_disabled := false;
  imageInput_disabled := false;
  imageInput_files := [];
  typingIndicator_visible := false;
  chatMessages :=
    [mkElement (lit "message assistant-message")
       ([LF] ++ lit "          <p>" ++
        [LF] ++ lit "            Hello! I'm an LLM chat app powered by Cloudflare Workers AI. How can" ++
        [LF] ++ lit "            I help you today?" ++
        [LF] ++ lit "          </p>" ++
        [LF] ++ lit "        ")
       None];
  fetched := [];
  console := [];
  textContent_writes := []
|}.

(** The children of [#chat-messages] once the paragraph of the child
    [el] holds [text]. *)
Definition with_p_textContent (el : nat) (text : JsString)
  (children : list Element) : list Element :=
  match nth_error children el with
  | Some e =>
      firstn el children
      ++ [mkElement (className e) (innerHTML e) (Some text)]
      ++ skipn (S el) children
  | None => children
  end.

(** [element.querySelector(p).textContent = text], [p] the paragraph of
    the child [el]. *)
Definition set_p_textContent (el : nat) (text : JsString) (w : World) : World :=
  set_textContent_writes (textContent_writes w ++ [(el, text)])
    (set_chatMessages (with_p_textContent el text (chatMessages w)) w).

Definition console_warn (e : Exception) (line : JsString) (w : World) : World :=
  set_console (console w ++ [warn e line]) w.

Definition console_error (e : Exception) (w : World) : World :=
  set_console (console w ++ [error e]) w.

(* ================================================================== *)
(** * chat.js *)
(* ================================================================== *)

(** [addMessageToChat(role, content)]. *)
Definition addMessageToChat (r : Role) (c : JsString) (w : World) : World :=
  let messageEl :=
    mkElement (lit "message " ++ role_name r ++ lit "-message")
              (lit "<p>" ++ c ++ lit "</p>") None in
  set_chatMessages (chatMessages w ++ [messageEl]) w.

Definition sorry : JsString :=
  lit "Sorry, there was an error processing your request.".

(** The [catch (error)] block of [sendMessage]. *)
Definition catch_block (e : Exception) (w : World) : World :=
  addMessageToChat assistant sorry (console_error e w).

(** The [finally] block of [sendMessage]. *)
Definition finally_block (w : World) : World :=
  set_imageInput_disabled false
    (set_sendButton_disabled false
      (set_userInput_disabled false
        (set_isProcessing false
          (set_typingIndicator_visible false w)))).

(** [sendMessage] up to its first [await]: the guard, the user's turn
    on the page and in [chatHistory], the empty assistant element, and
    the call of [fetch].  The result is the state and, when the request
    was sent, the index of [assistantMessageEl] among the children of
    [#chat-messages], with which the function resumes. *)
Definition sendMessage (w : World) : World * option nat :=
  let message := trim (userInput_value w) in
  let imageFile := nth_error (imageInput_files w) 0 in
  if (JsStr.eqb message [] && match imageFile with None => true | Some _ => false end)
     || isProcessing w
  then (w, None)
  else
    let w := set_isProcessing true w in
    let w := set_userInput_disabled true w in
    let w := set_sendButton_disabled true w in
    let w := set_imageInput_disabled true w in
    let userMsgContent :=
      match imageFile with
      | Some _ =>
          message ++ (if negb (JsStr.eqb message [])
                      then [LF] ++ lit "[Image attached]"
                      else lit "[Image attached]")
      | None => message
      end in
    let w := addMessageToChat user userMsgContent w in
    let w := set_userInput_value [] w in
    let w := set_imageInput_files [] w in
    let w := set_typingIndicator_visible true w in
    let w := set_chatHistory (chatHistory w ++ [mkMessage user message]) w in
    let assistantMessageEl := length (chatMessages w) in
    let w := set_chatMessages
               (chatMessages w ++
                [mkElement (lit "message assistant-message") (lit "<p></p>") None])
               w in
    let request :=
      match imageFile with
      | Some file =>
          mkRequest (lit "/api/chat") (lit "POST") (FormData (chatHistory w) file)
      | None =>
          mkRequest (lit "/api/chat") (lit "POST") (JsonBody (chatHistory w))
      end in
    (set_fetched (fetched w ++ [request]) w, Some assistantMessageEl).

(** What the loop carries from one [reader.read()] to the next. *)
Record Reading : Type := mkReading {
  assistantMessageEl : nat;
  decoder : TextDecoder.t;
  responseText : JsString
}.

(** The body of the [try] inside the loop over the lines.  Whatever
    throws in it throws before the first assignment, so a thrown
    completion leaves [responseText] and the page as they were. *)
Definition line_body (el : nat) (line : JsString) (st : JsString * World)
  : completion (JsString * World) :=
  let '(responseText, w) := st in
  jsonData <- JSON_parse line ;;
  response <- GetV_response jsonData ;;
  if ToBoolean response then
    match response with
    | Some v =>
        text <- ToString v ;;
        let responseText := responseText ++ text in
        Normal (responseText, set_p_textContent el responseText w)
    | None => Normal (responseText, w)
    end
  else Normal (responseText, w).

(** One turn of [for (const line of lines)]: the [try] and its [catch]. *)
Definition process_line (el : nat) (st : JsString * World) (line : JsString)
  : JsString * World :=
  match line_body el line st with
  | Normal st' => st'
  | Throw e => (fst st, console_warn e line (snd st))
  end.

(** The response [fetch] resolves with: its status and, when it has a
    body, the chunks its reader returns and how the stream ends, closed
    ([None]) or with an error. *)
Record Response : Type := mkResponse {
  status : N;
  stream : option (list (list byte) * option Exception)
}.

Definition ok (r : Response) : bool :=
  N.leb 200 (status r) && N.leb (status r) 299.

Inductive FetchResult : Type :=
| Rejected (e : Exception)
| Resolved (r : Response).

Inductive ReadResult : Type :=
| Chunk (value : list byte)
| Done
| Failed (e : Exception).

(** [sendMessage] from the result of [fetch] to the first
    [reader.read()]. *)
Definition on_fetch (el : nat) (r : FetchResult) (w : World)
  : World * option Reading :=
  match r with
  | Rejected e => (finally_block (catch_block e w), None)
  | Resolved response =>
      if negb (ok response)
      then (finally_block
              (catch_block (Error (lit "Failed to get response")) w), None)
      else
        match stream response with
        | None => (finally_block (catch_block TypeError w), None)
        | Some _ => (w, Some (mkReading el TextDecoder.new []))
        end
  end.

(** [sendMessage] from the result of one [reader.read()] to the next
    one, or to its end. *)
Definition on_read (k : Reading) (r : ReadResult) (w : World)
  : World * option Reading :=
  match r with
  | Failed e => (finally_block (catch_block e w), None)
  | Done =>
      (finally_block
         (set_chatHistory
            (chatHistory w ++ [mkMessage assistant (responseText k)]) w),
       None)
  | Chunk value =>
      let '(d, chunk) := TextDecoder.decode (decoder k) value in
      let lines := split LF chunk in
      let '(text, w') :=
        fold_left (process_line (assistantMessageEl k)) lines
                  (responseText k, w) in
      (w', Some (mkReading (assistantMessageEl k) d text))
  end.

(** The loop while the reader returns chunks. *)
Fixpoint read_chunks (k : Reading) (chunks : list (list byte)) (w : World)
  : Reading * World :=
  match chunks with
  | [] => (k, w)
  | value :: rest =>
      match on_read k (Chunk value) w with
      | (w', Some k') => read_chunks k' rest w'
      | (w', None) => (k, w')
      end
  end.

(** The loop until the stream ends. *)
Definition read_all (k : Reading) (chunks : list (list byte))
  (ending : option Exception) (w : World) : World :=
  let '(k', w') := read_chunks k chunks w in
  fst (on_read k' (match ending with None => Done | Some e => Failed e end) w').

(** One call of [sendMessage] run to its end against the answer of the
    network. *)
Definition exchange (r : FetchResult) (w : World) : World :=
  match sendMessage w with
  | (w1, None) => w1
  | (w1, Some el) =>
      match on_fetch el r w1 with
      | (w2, None) => w2
      | (w2, Some k) =>
          match r with
          | Resolved (mkResponse _ (Some (chunks, ending))) =>
              read_all k chunks ending w2
          | _ => w2
          end
      end
  end.

(** A user action: text typed, files picked, the form submitted, and
    what the network answers if a request goes out. *)
Record Submission : Type := mkSubmission {
  typed : JsString;
  picked : list File;
  answer : FetchResult
}.

Definition submit (w : World) (s : Submission) : World :=
  exchange (answer s)
    (set_imageInput_files (picked s) (set_userInput_value (typed s) w)).

Definition session (l : list Submission) : World := fold_left submit l initial.

(* ================================================================== *)
(** * The assembler, as the specification words it *)
(* ================================================================== *)

(** The text a line adds: the line parses as a JSON object, the object
    has a [response], the [response] is truthy and converts to text. *)
Definition delta (line : JsString) : option JsString :=
  match JSON.parse line with
  | Some (JObject props) =>
      match Get props (lit "response") with
      | Some v =>
          if ToBoolean (Some v) then
            match ToString v with
            | Normal text => Some text
            | Throw _ => None
            end
          else None
      | None => None
      end
  | _ => None
  end.

(** The texts added by a sequence of lines, in order. *)
Fixpoint deltas (lines : list JsString) : list JsString :=
  match lines with
  | [] => []
  | line :: rest =>
      match delta line with
      | Some text => text :: deltas rest
      | None => deltas rest
      end
  end.

(** The text shown after each append, starting from [shown]. *)
Fixpoint running (shown : JsString) (texts : list JsString) : list JsString :=
  match texts with
  | [] => []
  | text :: rest => (shown ++ text) :: running (shown ++ text) rest
  end.

(** The candidate lines of a stream, in receive order: the lines of each
    chunk as the decoder, carried from chunk to chunk, turns it into
    text. *)
Fixpoint stream_lines (d : TextDecoder.t) (chunks : list (list byte))
  : list JsString :=
  match chunks with
  | [] => []
  | value :: rest =>
      let '(d', chunk) := TextDecoder.decode d value in
      split LF chunk ++ stream_lines d' rest
  end.

(** The lines that parse as a JSON object. *)
Definition parses_as_object (line : JsString) : bool :=
  match JSON.parse line with
  | Some (JObject _) => true
  | _ => false
  end.

(* ================================================================== *)
(** * The state tracker, as the specification words it *)
(* ================================================================== *)

(** [w'] differs from [w] at most in the displayed children, the
    console and the record of the writes. *)
Definition same_session (w w' : World) : Prop :=
  chatHistory w' = chatHistory w /\
  isProcessing w' = isProcessing w /\
  userInput_value w' = userInput_value w /\
  userInput_disabled w' = userInput_disabled w /\
  sendButton_disabled w' = sendButton_disabled w /\
  imageInput_disabled w' = imageInput_disabled w /\
  imageInput_files w' = imageInput_files w /\
  typingIndicator_visible w' = typingIndicator_visible w /\
  fetched w' = fetched w.

(** The submission has something to send: text after trimming, or an
    attachment. *)
Definition nonempty_submission (w : World) : Prop :=
  trim (userInput_value w) <> [] \/ imageInput_files w <> [].

(** The user's turn as displayed ([userMsgContent] in [sendMessage]):
    the trimmed text, annotated when a file is attached. *)
Definition shown_user_text (w : World) : JsString :=
  let message := trim (userInput_value w) in
  match imageInput_files w with
  | [] => message
  | _ :: _ =>
      match message with
      | [] => lit "[Image attached]"
      | _ :: _ => message ++ [LF] ++ lit "[Image attached]"
      end
  end.

Definition user_element (w : World) : Element :=
  mkElement (lit "message user-message")
            (lit "<p>" ++ shown_user_text w ++ lit "</p>") None.

Definition placeholder (shown : option JsString) : Element :=
  mkElement (lit "message assistant-message") (lit "<p></p>") shown.

Definition fallback : Element :=
  mkElement (lit "message assistant-message")
            (lit "<p>" ++ sorry ++ lit "</p>") None.

(** The chunks of a response that is streamed to its end: the status is
    a success, there is a body, and the stream closes without error. *)
Definition streamed_to_end (r : FetchResult) : option (list (list byte)) :=
  match r with
  | Resolved response =>
      if ok response then
        match stream response with
        | Some (chunks, None) => Some chunks
        | _ => None
        end
      else None
  | Rejected _ => None
  end.

(* ================================================================== *)
(** * Chunk boundaries at line ends *)
(* ================================================================== *)

Module Chunking.

(** While a sequence is pending, the bytes that may continue it are
    continuation bytes. *)
Definition expects_continuation (d : TextDecoder.t) : bool :=
  N.eqb (TextDecoder.bytes_needed d) 0
  || N.leb 128 (TextDecoder.lower_boundary d).

(** The decoder after a line feed. *)
Definition at_line_start : TextDecoder.t :=
  TextDecoder.mk 0 0 0 128 191 true.

(** The chunk ends where a line ends: it is empty or its last byte is a
    line feed. *)
Definition ends_line (c : list byte) : bool :=
  match rev c with
  | [] => true
  | b :: _ => Byte.eqb b x0a
  end.

(** Every chunk boundary of the stream falls where a line ends. *)
Fixpoint aligned (chunks : list (list byte)) : bool :=
  match chunks with
  | [] => true
  | c :: rest =>
      match rest with
      | [] => true
      | _ :: _ => ends_line c && aligned rest
      end
  end.

End Chunking.

(* ================================================================== *)
(** * Example data *)
(* ================================================================== *)

Module Examples.

(** The bytes of an ASCII text in which an apostrophe stands for the
    double quote. *)
Definition text (s : String.string) : list byte :=
  map (fun b => if Byte.eqb b x27 then x22 else b) (String.list_byte_of_string s).

Arguments text s%_string.

(** A response with status 200 whose body arrives in [chunks] and then
    closes. *)
Definition streamed (chunks : list (list byte)) : FetchResult :=
  Resolved (mkResponse 200 (Some (chunks, None))).

(** The session in which the user types [hi] and the server streams
    [chunks]. *)
Definition asked (chunks : list (list byte)) : World :=
  session [mkSubmission (lit "hi") [] (streamed chunks)].

End Examples.

(* ================================================================== *)
(** * More of the platform *)
(* ================================================================== *)

(** [parts.join(sep)] for a separator of one code unit. *)
Fixpoint join (sep : code_unit) (parts : list JsString) : JsString :=
  match parts with
  | [] => []
  | x :: r =>
      match r with
      | [] => x
      | _ :: _ => x ++ sep :: join sep r
      end
  end.

(** [s.startsWith(p)]. *)
Definition startsWith (s p : JsString) : bool :=
  match JSON.starts_with p s with
  | Some _ => true
  | None => false
  end.

(** [s.includes(p)]: [p] starts at some position of [s]. *)
Fixpoint includes (s p : JsString) : bool :=
  startsWith s p
  || match s with
     | [] => false
     | _ :: r => includes r p
     end.

(** Source text of a template literal, written with a backquote (96) in
    place of each double quote. *)
Definition template (s : String.string) : JsString :=
  map (fun c => if N.eqb c 96 then 34%N else c) (lit s).

Arguments template s%_string : simpl never.

(** UTF-8 decoding of a whole byte sequence, as [blob.text()] does it: a
    sequence still pending at the end comes out as U+FFFD. *)
Definition utf8_decode (bytes : list byte) : JsString :=
  let '(d, out) := TextDecoder.decode TextDecoder.new bytes in
  if N.eqb (TextDecoder.bytes_needed d) 0 then out else out ++ [65533%N].

Module Base64.

Local Open Scope N_scope.

(** The character of a 6-bit value. *)
Definition digit (n : N) : code_unit :=
  if N.ltb n 26 then 65 + n
  else if N.ltb n 52 then 97 + (n - 26)
  else if N.ltb n 62 then 48 + (n - 52)
  else if N.eqb n 62 then 43
  else 47.

(** [Buffer.from(bytes).toString("base64")]: three bytes give four
    characters; one or two bytes left at the end give two or three
    characters and padding with [=]. *)
Fixpoint encode (bytes : list byte) : JsString :=
  match bytes with
  | [] => []
  | a :: r1 =>
      let x := Byte.to_N a in
      match r1 with
      | [] => [digit (x / 4); digit (x mod 4 * 16); 61; 61]
      | b :: r2 =>
          let y := Byte.to_N b in
          match r2 with
          | [] =>
              [digit (x / 4); digit (x mod 4 * 16 + y / 16);
               digit (y mod 16 * 4); 61]
          | c :: r3 =>
              let z := Byte.to_N c in
              digit (x / 4) :: digit (x mod 4 * 16 + y / 16)
              :: digit (y mod 16 * 4 + z / 64) :: digit (z mod 64)
              :: encode r3
          end
      end
  end.

End Base64.

(** [v.name] for a property name that is neither an index nor defined by
    a prototype: a TypeError at [null], the own property of an object,
    [undefined] ([None]) at the other values. *)
Definition GetV (v : JsValue) (name : JsString) : completion (option JsValue) :=
  match v with
  | JNull => Throw TypeError
  | JObject props => Normal (Get props name)
  | _ => Normal None
  end.

(** [items.some(f)]: the items are tested in order up to the first one
    that passes; a test that throws ends the search. *)
Fixpoint some (f : JsValue -> completion bool) (items : list JsValue)
  : completion bool :=
  match items with
  | [] => Normal false
  | x :: r => b <- f x ;; if b then Normal true else some f r
  end.

(* ================================================================== *)
(** * chat.js: the event listeners *)
(* ================================================================== *)

Record KeyboardEvent : Type := mkKeyboardEvent {
  key : JsString;
  shiftKey : bool
}.

(** The [keydown] listener of the textarea: whether it called
    [preventDefault], and what [sendMessage] did if it was called. *)
Definition on_keydown (e : KeyboardEvent) (w : World)
  : bool * (World * option nat) :=
  if JsStr.eqb (key e) (lit "Enter") && negb (shiftKey e)
  then (true, sendMessage w)
  else (false, (w, None)).

(** The [submit] listener of the form. *)
Definition on_submit (w : World) : bool * (World * option nat) :=
  (true, sendMessage w).

(* ================================================================== *)
(** * The worker (index.ts) *)
(* ================================================================== *)

Module Worker.

Definition MODEL_ID : JsString := lit "@cf/unum/uform-gen2-qwen-500m".

Definition SYSTEM_PROMPT : JsString :=
  join LF
    [[];
     template "You are an expert invoice data extraction tool. Analyze the provided invoice image and extract the following information in a structured JSON format.";
     template "The JSON object should strictly follow this structure:";
     template "{";
     template "  `vendorName`: `string or null`,";
     template "  `client`: `string or null, the name of the client or customer purchasing goods/services`,";
     template "  `address`: `string or null, the client's address or delivery/service location mentioned in the invoice. This could be a full address or a general area/location of sale.`,";
     template "  `credit`: `boolean or null`,";
     template "  `cash`: `boolean or null`,";
     template "  `invoiceDate`: `string (YYYY-MM-DD if possible, otherwise as it appears) or null`,";
     template "  `invoiceNumber`: `string or null`,";
     template "  `totalAmount`: `number or null`,";
     template "  `currency`: `string (e.g., USD, EUR) or null`,";
     template "  `lineItems`: [";
     template "    {";
     template "      `description`: `string`,";
     template "      `quantity`: `number or null`,";
     template "      `unitPrice`: `number or null`,";
     template "      `lineTotal`: `number or null`";
     template "    }";
     template "  ]";
     template "}";
     [];
     template "Important notes for 'credit' and 'cash' fields:";
     template "- If the invoice explicitly states 'Contado' (Cash), or terms implying immediate payment, set `cash`: true and `credit`: false.";
     template "- If the invoice explicitly states 'Cr" ++ [233%N] ++ template "dito' (Credit), or payment terms that imply deferred payment (e.g., 'Net 30 d" ++ [237%N] ++ template "as', 'A cr" ++ [233%N] ++ template "dito'), set `credit`: true and `cash`: false.";
     template "- If neither 'Contado' nor 'Cr" ++ [233%N] ++ template "dito' (or similar terms) are clearly indicated, or if the payment method is ambiguous, both `credit` and `cash` should be null.";
     template "- Do not assume; base these fields on explicit information present in the invoice.";
     [];
     template "If any other information is not clearly visible or available, use null for the respective field value. For lineItems, if none are discernible, provide an empty array [].";
     template "Ensure the output is ONLY the JSON object, without any surrounding text, explanations, or markdown fences.";
     []].

Inductive FormDataEntryValue : Type :=
| EntryString (s : JsString)
| EntryFile (bytes : list byte).

(** A request as the worker reads it: the path of its URL, its method,
    its [content-type] header if it has one, and what reading its body
    gives: the entries [request.formData()] resolves with, or the
    exception it rejects with, and the text [request.json()] parses. *)
Record Request : Type := mkRequest {
  pathname : JsString;
  method : JsString;
  content_type : option JsString;
  formData : completion (list (JsString * FormDataEntryValue));
  text : JsString
}.

Record Response : Type := mkResponse {
  status : N;
  response_content_type : option JsString;
  body : JsString
}.

(** [formData.get(name)]: the first entry of that name. *)
Definition get (name : JsString) (entries : list (JsString * FormDataEntryValue))
  : option FormDataEntryValue :=
  match find (fun p => JsStr.eqb (fst p) name) entries with
  | Some p => Some (snd p)
  | None => None
  end.

(** The truthiness of what [formData.get] returns: [null] and the empty
    string are falsy, a file is truthy. *)
Definition truthy (e : option FormDataEntryValue) : bool :=
  match e with
  | None => false
  | Some (EntryString s) => negb (JsStr.eqb s [])
  | Some (EntryFile _) => true
  end.

Definition system_message : JsValue :=
  JObject [(lit "role", JString (lit "system"));
           (lit "content", JString SYSTEM_PROMPT)].

Definition image_message (imageBase64 : JsString) : JsValue :=
  JObject [(lit "role", JString (lit "user"));
           (lit "content",
            JString (lit "Attached invoice image (base64): " ++ imageBase64))].

(** [msg.role === "system"]. *)
Definition is_system (msg : JsValue) : completion bool :=
  role <- GetV msg (lit "role") ;;
  Normal match role with
         | Some (JString s) => JsStr.eqb s (lit "system")
         | _ => false
         end.

(** The multipart branch of [handleChatRequest]: the messages and the
    image read from the form.  A string entry has neither [text] nor
    [arrayBuffer], so calling them throws. *)
Definition read_form (request : Request) : completion (JsValue * option JsString) :=
  entries <- formData request ;;
  let messagesBlob := get (lit "messages") entries in
  messages <-
    (if truthy messagesBlob then
       match messagesBlob with
       | Some (EntryFile bytes) => JSON_parse (utf8_decode bytes)
       | _ => Throw TypeError
       end
     else Normal (JArray [])) ;;
  let imageFile := get (lit "image") entries in
  imageBase64 <-
    (if truthy imageFile then
       match imageFile with
       | Some (EntryFile bytes) => Normal (Some (Base64.encode bytes))
       | _ => Throw TypeError
       end
     else Normal None) ;;
  Normal (messages, imageBase64).

(** The JSON branch: [body.messages || []], and no image. *)
Definition read_json (request : Request) : completion (JsValue * option JsString) :=
  body <- JSON_parse (text request) ;;
  messages <- GetV body (lit "messages") ;;
  Normal (match messages with
          | Some v => if ToBoolean messages then v else JArray []
          | None => JArray []
          end, None).

(** [handleChatRequest] up to the call of the model: the messages it
    passes.  [messages.some], [unshift] and [push] exist on arrays only. *)
Definition prepare (request : Request) : completion (list JsValue) :=
  let contentType :=
    match content_type request with
    | Some v => if negb (JsStr.eqb v []) then v else []
    | None => []
    end in
  read <- (if includes contentType (lit "multipart/form-data")
           then read_form request else read_json request) ;;
  match fst read with
  | JArray items =>
      found <- some is_system items ;;
      let items := if found then items else system_message :: items in
      Normal match snd read with
             | Some imageBase64 =>
                 if negb (JsStr.eqb imageBase64 [])
                 then items ++ [image_message imageBase64]
                 else items
             | None => items
             end
  | _ => Throw TypeError
  end.

(** The reply of the [catch] block. *)
Definition failed : Response :=
  mkResponse 500 (Some (lit "application/json"))
    (template "{`error`:`Failed to process request`}").

Section Env.

(** The bindings of the worker: the static assets and the model.  The
    model is called with the model id, the messages, [max_tokens] and
    [returnRawResponse], and resolves with a response or rejects. *)
Variable ASSETS_fetch : Request -> Response.
Variable AI_run : JsString -> list JsValue -> N -> bool -> completion Response.

(** [handleChatRequest]: the reply and what [console.error] logged. *)
Definition handleChatRequest (request : Request) : Response * option Exception :=
  match (messages <- prepare request ;; AI_run MODEL_ID messages 1024%N true) with
  | Normal response => (response, None)
  | Throw e => (failed, Some e)
  end.

(** The [fetch] handler of the worker. *)
Definition fetch (request : Request) : Response * option Exception :=
  if JsStr.eqb (pathname request) (lit "/")
     || negb (startsWith (pathname request) (lit "/api/"))
  then (ASSETS_fetch request, None)
  else if JsStr.eqb (pathname request) (lit "/api/chat") then
    if JsStr.eqb (method request) (lit "POST")
    then handleChatRequest request
    else (mkResponse 405 (Some (lit "text/plain;charset=UTF-8"))
            (lit "Method not allowed"), None)
  else (mkResponse 404 (Some (lit "text/plain;charset=UTF-8"))
          (lit "Not found"), None).

End Env.

End Worker.

(* ================================================================== *)
(** * More of the behaviour, as a reader of the page would word it *)
(* ================================================================== *)

(** The form while an exchange is in flight: the flag is set, the three
    controls are disabled and the typing indicator shows. *)
Definition locked (w : World) : Prop :=
  isProcessing w = true /\
  userInput_disabled w = true /\
  sendButton_disabled w = true /\
  imageInput_disabled w = true /\
  typingIndicator_visible w = true.

(** The form at rest. *)
Definition unlocked (w : World) : Prop :=
  isProcessing w = false /\
  userInput_disabled w = false /\
  sendButton_disabled w = false /\
  imageInput_disabled w = false /\
  typingIndicator_visible w = false.

(** The chunks the loop reads before the exchange ends, one way or the
    other. *)
Definition chunks_read (r : FetchResult) : list (list byte) :=
  match r with
  | Resolved response =>
      if ok response then
        match stream response with
        | Some (chunks, _) => chunks
        | None => []
        end
      else []
  | Rejected _ => []
  end.

(** What the paragraph of the assistant element holds when the texts
    [texts] have been appended to it: nothing was ever assigned when no
    text was appended. *)
Definition shown_text (texts : list JsString) : option JsString :=
  match texts with
  | [] => None
  | _ :: _ => Some (concat texts)
  end.

(** The exception a line is logged with, if it is: a SyntaxError when it
    is not JSON, a TypeError when it is [null] or when its truthy
    [response] does not convert to text. *)
Definition line_error (line : JsString) : option Exception :=
  match JSON.parse line with
  | None => Some SyntaxError
  | Some JNull => Some TypeError
  | Some (JObject props) =>
      match Get props (lit "response") with
      | Some v =>
          if ToBoolean (Some v) then
            match ToString v with
            | Normal _ => None
            | Throw e => Some e
            end
          else None
      | None => None
      end
  | Some _ => None
  end.

(** The warnings of a sequence of lines, in order. *)
Fixpoint warnings (lines : list JsString) : list ConsoleEntry :=
  match lines with
  | [] => []
  | line :: rest =>
      match line_error line with
      | Some e => warn e line :: warnings rest
      | None => warnings rest
      end
  end.

(** The text the decoder, carried from chunk to chunk, makes of a
    stream. *)
Fixpoint decoded (d : TextDecoder.t) (chunks : list (list byte)) : JsString :=
  match chunks with
  | [] => []
  | value :: rest =>
      let '(d', chunk) := TextDecoder.decode d value in
      chunk ++ decoded d' rest
  end.

(** The submission is let through by the guard when nothing is in
    flight. *)
Definition submits (s : Submission) : bool :=
  negb (JsStr.eqb (trim (typed s)) []
        && match picked s with [] => true | _ :: _ => false end).

(** The request an accepted submission sends from the history [h]. *)
Definition request_of (h : list Message) (s : Submission) : Request :=
  let messages := h ++ [mkMessage user (trim (typed s))] in
  mkRequest (lit "/api/chat") (lit "POST")
    match picked s with
    | file :: _ => FormData messages file
    | [] => JsonBody messages
    end.

(** The turns after the greeting are user messages, each followed by at
    most one assistant message; [asked] tells whether the message before
    is a user message. *)
Fixpoint turns (asked : bool) (l : list Message) : bool :=
  match l with
  | [] => true
  | m :: rest =>
      match role m with
      | user => turns true rest
      | assistant => asked && turns false rest
      | system => false
      end
  end.

(* ================================================================== *)
(** * The worker, as a caller would word it *)
(* ================================================================== *)

Module WorkerSpec.

Import Worker.

(** Whether the request is read as a form. *)
Definition is_form (request : Request) : bool :=
  match content_type request with
  | Some v => includes v (lit "multipart/form-data")
  | None => false
  end.

(** What the request holds: the messages and the image, read from the
    form or from the JSON body. *)
Definition received (request : Request) : completion (JsValue * option JsString) :=
  if is_form request then read_form request else read_json request.

(** The message added for the image, if one is. *)
Definition image_part (image : option JsString) : list JsValue :=
  match image with
  | Some (c :: r) => [image_message (c :: r)]
  | _ => []
  end.

(** The request without its [image] entries. *)
Definition without_image (request : Request) : Request :=
  mkRequest (pathname request) (method request) (content_type request)
    match formData request with
    | Normal entries =>
        Normal (filter (fun p => negb (JsStr.eqb (fst p) (lit "image"))) entries)
    | Throw e => Throw e
    end
    (text request).

(** The messages part of [read_form]. *)
Definition form_messages (entries : list (JsString * FormDataEntryValue))
  : completion JsValue :=
  if truthy (get (lit "messages") entries) then
    match get (lit "messages") entries with
    | Some (EntryFile bytes) => JSON_parse (utf8_decode bytes)
    | _ => Throw TypeError
    end
  else Normal (JArray []).

End WorkerSpec.

(* ================================================================== *)
(** * Between the page and the worker: surrogates, UTF-8, JSON.stringify *)
(* ================================================================== *)

Module UTF16.

Local Open Scope N_scope.

Definition is_leading (c : code_unit) : bool := N.leb 55296 c && N.leb c 56319.
Definition is_trailing (c : code_unit) : bool := N.leb 56320 c && N.leb c 57343.

(** The code point of a surrogate pair. *)
Definition code_point (c d : code_unit) : N :=
  65536 + (c - 55296) * 1024 + (d - 56320).

(** The code units are 16-bit ones. *)
Definition units (s : JsString) : Prop := Forall (fun c => c < 65536) s.

(** 16-bit code units, every surrogate part of a pair. *)
Fixpoint well_formed (s : JsString) : bool :=
  match s with
  | [] => true
  | c :: r =>
      if is_leading c then
        match r with
        | d :: r' => is_trailing d && well_formed r'
        | [] => false
        end
      else negb (is_trailing c) && N.ltb c 65536 && well_formed r
  end.

End UTF16.

Module UTF8.

Import UTF16.

Local Open Scope N_scope.

Definition byte_of (n : N) : byte :=
  match Byte.of_N n with
  | Some b => b
  | None => x00
  end.

(** The bytes of a scalar value. *)
Definition encode_code_point (cp : N) : list byte :=
  if N.ltb cp 128 then [byte_of cp]
  else if N.ltb cp 2048 then
    [byte_of (192 + cp / 64); byte_of (128 + cp mod 64)]
  else if N.ltb cp 65536 then
    [byte_of (224 + cp / 4096); byte_of (128 + cp / 64 mod 64);
     byte_of (128 + cp mod 64)]
  else
    [byte_of (240 + cp / 262144); byte_of (128 + cp / 4096 mod 64);
     byte_of (128 + cp / 64 mod 64); byte_of (128 + cp mod 64)].

(** The bytes of a string, as a [Blob] made of it or a request body
    holds them: a surrogate pair is one code point, a surrogate that is
    not part of a pair becomes U+FFFD. *)
Fixpoint encode (s : JsString) : list byte :=
  match s with
  | [] => []
  | c :: r =>
      if is_leading c then
        match r with
        | d :: r' =>
            if is_trailing d
            then encode_code_point (code_point c d) ++ encode r'
            else encode_code_point 65533 ++ encode r
        | [] => encode_code_point 65533
        end
      else if is_trailing c then encode_code_point 65533 ++ encode r
      else encode_code_point c ++ encode r
  end.

(** The decoder with no sequence pending. *)
Definition clean (bom : bool) : TextDecoder.t :=
  TextDecoder.mk 0 0 0 128 191 bom.

(** What the decoder gives out for the code point [cp]: nothing for a
    byte order mark at the start of the stream. *)
Definition emitted (bom : bool) (cp : N) : JsString :=
  if negb bom && N.eqb cp 65279 then [] else TextDecoder.utf16 cp.

End UTF8.

Module Stringify.

Import UTF16.

Local Open Scope N_scope.

Definition hex_digit (n : N) : code_unit :=
  if N.ltb n 10 then 48 + n else 87 + n.

(** [\uXXXX] with four lowercase hexadecimal digits. *)
Definition UnicodeEscape (c : code_unit) : JsString :=
  [92; 117; hex_digit (c / 4096); hex_digit (c / 256 mod 16);
   hex_digit (c / 16 mod 16); hex_digit (c mod 16)].

(** A code point of one code unit in a quoted string: the two-character
    escapes, the [\u] escape for the other control characters and for a
    surrogate that is not part of a pair, the unit itself otherwise. *)
Definition quote_unit (c : code_unit) : JsString :=
  if N.eqb c 8 then [92; 98]
  else if N.eqb c 9 then [92; 116]
  else if N.eqb c 10 then [92; 110]
  else if N.eqb c 12 then [92; 102]
  else if N.eqb c 13 then [92; 114]
  else if N.eqb c 34 then [92; 34]
  else if N.eqb c 92 then [92; 92]
  else if N.ltb c 32 || is_leading c || is_trailing c then UnicodeEscape c
  else [c].

(** The inside of a quoted string: a leading surrogate followed by a
    trailing one is one code point and stays as it is. *)
Fixpoint quote_body (s : JsString) : JsString :=
  match s with
  | [] => []
  | c :: r =>
      if is_leading c then
        match r with
        | d :: r' => if is_trailing d then c :: d :: quote_body r'
                     else quote_unit c ++ quote_body r
        | [] => quote_unit c
        end
      else quote_unit c ++ quote_body r
  end.

(** QuoteJSONString. *)
Definition QuoteJSONString (s : JsString) : JsString :=
  34 :: quote_body s ++ [34].

(** [JSON.stringify] of an entry of [chatHistory], of [chatHistory] and
    of [{ messages: chatHistory }]: no white space, the properties in
    the order they were created in. *)
Definition message (m : Message) : JsString :=
  template "{`role`:" ++ QuoteJSONString (role_name (role m))
  ++ template ",`content`:" ++ QuoteJSONString (content m) ++ lit "}".

Definition history (h : list Message) : JsString :=
  lit "[" ++ join 44 (map message h) ++ lit "]".

Definition messages_object (h : list Message) : JsString :=
  template "{`messages`:" ++ history h ++ lit "}".

(** The value [JSON.parse] makes of a stringified entry. *)
Definition message_value (m : Message) : JsValue :=
  JObject [(lit "role", JString (role_name (role m)));
           (lit "content", JString (content m))].

End Stringify.

(* ================================================================== *)
(** * From the page's request to the worker's *)
(* ================================================================== *)

Module Wire.

Definition sent_messages (r : Request) : list Message :=
  match body r with
  | JsonBody messages => messages
  | FormData messages _ => messages
  end.

Definition sent_image (r : Request) : option JsString :=
  match body r with
  | JsonBody _ => None
  | FormData _ image => Some (Base64.encode image)
  end.

(** The request the worker is handed when the page sends [r] to it: the
    path and the method are those of [r].  A JSON body arrives as the
    bytes of its text, under the content type the page sets; a form
    arrives with a content type [multipart/form-data] that names the
    boundary the browser chose, the part [messages] as a file of the
    bytes of the blob's text and the part [image] as the file picked. *)
Definition delivered (r : Request) (request : Worker.Request) : Prop :=
  Worker.pathname request = url r /\
  Worker.method request = method r /\
  match body r with
  | JsonBody messages =>
      Worker.content_type request = Some (lit "application/json") /\
      Worker.text request
      = utf8_decode (UTF8.encode (Stringify.messages_object messages))
  | FormData messages image =>
      (exists boundary,
         Worker.content_type request
         = Some (lit "multipart/form-data; boundary=" ++ boundary)) /\
      Worker.formData request
      = Normal [(lit "messages",
                 Worker.EntryFile (UTF8.encode (Stringify.history messages)));
                (lit "image", Worker.EntryFile image)]
  end.

(** The code units of the messages are 16-bit ones. *)
Definition units (h : list Message) : Prop :=
  Forall (fun m => UTF16.units (content m)) h.

(** Whether a message has the system role. *)
Definition is_system (m : Message) : bool :=
  match role m with
  | system => true
  | _ => false
  end.

(** What [handleChatRequest] returns once the messages for the model
    are ready. *)
Definition reply
  (AI_run : JsString -> list JsValue -> N -> bool -> completion Worker.Response)
  (messages : list JsValue) : Worker.Response * option Exception :=
  match AI_run Worker.MODEL_ID messages 1024%N true with
  | Normal response => (response, None)
  | Throw e => (Worker.failed, Some e)
  end.

End Wire.

(* ================================================================== *)
(** * Facts: JSON.parse *)
(* ================================================================== *)

Module ParserFacts.
Import JSON.

Lemma skip_ws_length (s : JsString) : length (skip_ws s) <= length s.
Proof.
  induction s as [|c s IH]; cbn; [lia|].
  destruct (is_ws c); cbn; lia.
Qed.

Lemma string_chars_length (n : nat) :
  forall s body r,
    length s <= n -> string_chars s = Some (body, r) -> length r < length s.
Proof.
  induction n as [|n IH]; intros s body r L H.
  - destruct s; [discriminate|cbn in L; lia].
  - destruct s as [|c s]; [discriminate|]. cbn in L.
    cbn [string_chars] in H.
    assert (K : forall u t, length t <= n ->
                consume u (string_chars t) = Some (body, r) ->
                length r < length t).
    { intros u t Lt Ht. unfold consume in Ht.
      destruct (string_chars t) as [[b' r']|] eqn:E; [|discriminate].
      injection Ht as _ <-. eapply IH; eauto. }
    destruct (N.eqb c 34).
    + injection H as _ <-. cbn. lia.
    + destruct (N.eqb c 92).
      * destruct s as [|e s1]; [discriminate|].
        destruct (N.eqb e 117).
        -- destruct s1 as [|h1 [|h2 [|h3 [|h4 s2]]]]; try discriminate.
           destruct (hex4 h1 h2 h3 h4); [|discriminate].
           apply K in H; cbn in *; lia.
        -- destruct (escape e); [|discriminate].
           apply K in H; cbn in *; lia.
      * destruct (N.ltb c 32); [discriminate|].
        apply K in H; cbn in *; lia.
Qed.

Lemma digits_length (s : JsString) :
  forall acc len a l r, digits acc len s = (a, l, r) -> length r <= length s.
Proof.
  induction s as [|c s IH]; intros acc len a l r H; cbn in H.
  - injection H as _ _ <-. lia.
  - destruct (is_digit c).
    + apply IH in H. cbn. lia.
    + injection H as _ _ <-. lia.
Qed.

Lemma sign_length (s : JsString) (b : bool) (r : JsString) :
  sign s = (b, r) -> length r <= length s.
Proof.
  destruct s as [|c s]; cbn.
  - intros H. injection H as _ <-. cbn. lia.
  - destruct (N.eqb c 45); intros H; injection H as _ <-; cbn; lia.
Qed.

Lemma int_part_length (s : JsString) (m : N) (r : JsString) :
  int_part s = Some (m, r) -> length r < length s.
Proof.
  destruct s as [|c s]; [discriminate|]. unfold int_part.
  destruct (N.eqb c 48).
  - intros H. injection H as _ <-. cbn. lia.
  - destruct (is_digit c) eqn:D; [|discriminate].
    cbn [digits]. rewrite D.
    destruct (digits _ _ s) as [[a l] r'] eqn:E.
    intros H. injection H as _ <-.
    apply digits_length in E. cbn. lia.
Qed.

Lemma frac_part_length (m : N) (s : JsString) (m' : N) (len : nat)
  (r : JsString) :
  frac_part m s = Some (m', len, r) -> length r <= length s.
Proof.
  destruct s as [|c s]; cbn.
  - intros H. injection H as _ _ <-. cbn. lia.
  - destruct (N.eqb c 46).
    + destruct (digits m 0 s) as [[a l] r'] eqn:E.
      apply digits_length in E.
      destruct l; [discriminate|].
      intros H. injection H as _ _ <-. cbn. lia.
    + intros H. injection H as _ _ <-. cbn. lia.
Qed.

Lemma exp_part_length (s : JsString) (x : Z) (r : JsString) :
  exp_part s = Some (x, r) -> length r <= length s.
Proof.
  destruct s as [|c s]; cbn.
  - intros H. injection H as _ <-. cbn. lia.
  - destruct (N.eqb c 101 || N.eqb c 69).
    + destruct (match s with
                | [] => (false, s)
                | d :: r' => if N.eqb d 45 then (true, r')
                             else if N.eqb d 43 then (false, r') else (false, s)
                end) as [minus r1] eqn:M.
      assert (L : length r1 <= length s).
      { destruct s as [|d r']; [injection M as _ <-; cbn; lia|].
        destruct (N.eqb d 45); [injection M as _ <-; cbn; lia|].
        destruct (N.eqb d 43); injection M as _ <-; cbn; lia. }
      destruct (digits 0 0 r1) as [[a l] r2] eqn:E.
      apply digits_length in E.
      destruct l; [discriminate|].
      intros H. injection H as _ <-. lia.
    + intros H. injection H as _ <-. cbn. lia.
Qed.

Lemma number_length (s : JsString) (x : JsNumber.t) (r : JsString) :
  number s = Some (x, r) -> length r < length s.
Proof.
  unfold number.
  destruct (sign s) as [neg s1] eqn:S1. apply sign_length in S1.
  destruct (int_part s1) as [[m s2]|] eqn:S2; [|discriminate].
  apply int_part_length in S2.
  destruct (frac_part m s2) as [[[m' len] s3]|] eqn:S3; [|discriminate].
  apply frac_part_length in S3.
  destruct (exp_part s3) as [[e s4]|] eqn:S4; [|discriminate].
  apply exp_part_length in S4.
  intros H. injection H as _ <-. lia.
Qed.

Lemma skip_ws_cons (s : JsString) (c : code_unit) (r : JsString) :
  skip_ws s = c :: r -> length r < length s.
Proof.
  intros H. pose proof (skip_ws_length s) as L. rewrite H in L. cbn in L. lia.
Qed.

Lemma string_chars_shorter (s body r : JsString) :
  string_chars s = Some (body, r) -> length r < length s.
Proof. apply (string_chars_length (length s)). lia. Qed.

Lemma starts_with_length (p : JsString) :
  forall s r, starts_with p s = Some r -> length s = length p + length r.
Proof.
  induction p as [|a p IH]; intros s r H; cbn in H.
  - injection H as <-. reflexivity.
  - destruct s as [|b s]; [discriminate|].
    destruct (N.eqb a b); [|discriminate].
    apply IH in H. cbn. lia.
Qed.

Ltac parse_step H :=
  match type of H with
  | context [match skip_ws ?x with _ => _ end] =>
      let E := fresh "W" in
      destruct (skip_ws x) eqn:E; [try discriminate H|apply skip_ws_cons in E]
  | context [match string_chars ?x with _ => _ end] =>
      let E := fresh "C" in
      destruct (string_chars x) as [[? ?]|] eqn:E;
      [apply string_chars_shorter in E|try discriminate H]
  | context [match number ?x with _ => _ end] =>
      let E := fresh "N" in
      destruct (number x) as [[? ?]|] eqn:E;
      [apply number_length in E|try discriminate H]
  | context [match starts_with ?p ?x with _ => _ end] =>
      let E := fresh "S" in
      destruct (starts_with p x) eqn:E;
      [apply starts_with_length in E; unfold lit in E; cbn in E|]
  | context [match value ?f ?x with _ => _ end] =>
      let E := fresh "V" in
      destruct (value f x) eqn:E
  | context [if ?c then _ else _] => destruct c
  end.

Lemma parsed_shorter (f : nat) :
  (forall s v r, value f s = Parsed v r -> length r < length s) /\
  (forall s acc v r, elements f s acc = Parsed v r -> length r < length s) /\
  (forall s acc v r, members f s acc = Parsed v r -> length r < length s).
Proof.
  induction f as [|f (IHv & IHe & IHm)];
    [repeat split; intros; discriminate|].
  repeat split.
  - intros s v r H. cbn [value] in H.
    repeat parse_step H;
      try discriminate H;
      try (injection H as _ <-);
      try (apply IHe in H); try (apply IHm in H);
      cbn [length] in *; lia.
  - intros s acc v r H. cbn [elements] in H.
    repeat parse_step H;
      try discriminate H;
      try (injection H as _ <-);
      try (apply IHe in H);
      try match goal with V : value _ _ = Parsed _ _ |- _ => apply IHv in V end;
      cbn [length] in *; lia.
  - intros s acc v r H. cbn [members] in H.
    repeat parse_step H;
      try discriminate H;
      try (injection H as _ <-);
      try (apply IHm in H);
      try match goal with V : value _ _ = Parsed _ _ |- _ => apply IHv in V end;
      cbn [length] in *; lia.
Qed.

(** The fuel [JSON.parse] gives to [value] is never used up. *)
Lemma fuel_suffices (f : nat) :
  (forall s, 2 * length s < f -> value f s <> OutOfFuel) /\
  (forall s acc, 2 * length s + 1 < f -> elements f s acc <> OutOfFuel) /\
  (forall s acc, 2 * length s < f -> members f s acc <> OutOfFuel).
Proof.
  induction f as [|f (IHv & IHe & IHm)]; [repeat split; intros; lia|].
  assert (shorter := proj1 (parsed_shorter f)).
  repeat split.
  - intros s L H. cbn [value] in H.
    repeat parse_step H; try discriminate H;
      exfalso;
      first [eapply IHe; [|exact H] | eapply IHm; [|exact H]];
      cbn [length] in *; lia.
  - intros s acc L H. cbn [elements] in H.
    repeat parse_step H; try discriminate H;
      repeat match goal with
             | V : value _ _ = Parsed _ _ |- _ => apply shorter in V
             end;
      exfalso;
      first [eapply IHe; [|exact H]
            | match goal with
              | V : value _ _ = OutOfFuel |- _ => eapply IHv; [|exact V]
              end];
      cbn [length] in *; lia.
  - intros s acc L H. cbn [members] in H.
    repeat parse_step H; try discriminate H;
      repeat match goal with
             | V : value _ _ = Parsed _ _ |- _ => apply shorter in V
             end;
      exfalso;
      first [eapply IHm; [|exact H]
            | match goal with
              | V : value _ _ = OutOfFuel |- _ => eapply IHv; [|exact V]
              end];
      cbn [length] in *; lia.
Qed.

(** [JSON.parse] fails only where the text is not JSON: its parser does
    not run out of fuel. *)
Lemma parse_fuel (text : JsString) :
  value (S (2 * length text)) text <> OutOfFuel.
Proof. apply fuel_suffices. lia. Qed.

(** Where [JSON.parse] throws, the text does not start with a JSON
    value, or something other than white space follows the value. *)
Lemma parse_None (text : JsString) :
  parse text = None ->
  value (S (2 * length text)) text = Invalid \/
  exists v rest c r,
    value (S (2 * length text)) text = Parsed v rest /\ skip_ws rest = c :: r.
Proof.
  unfold parse. pose proof (parse_fuel text) as F.
  destruct (value (S (2 * length text)) text) as [v rest| |];
    [|now left|contradiction].
  destruct (skip_ws rest) as [|c r] eqn:E; [discriminate|].
  intros _. right. now exists v, rest, c, r.
Qed.

End ParserFacts.

(* ================================================================== *)
(** * Facts: lists and state *)
(* ================================================================== *)

Arguments set_p_textContent : simpl never.
Arguments with_p_textContent : simpl never.
Arguments set_console : simpl never.
Arguments process_line : simpl never.
Arguments TextDecoder.decode : simpl never.
Arguments delta : simpl never.
Arguments on_read : simpl never.
Arguments JsStr.eqb : simpl never.
Arguments trim : simpl never.

Lemma deltas_app (l1 l2 : list JsString) :
  deltas (l1 ++ l2) = deltas l1 ++ deltas l2.
Proof.
  induction l1 as [|line l1 IH]; cbn; [reflexivity|].
  destruct (delta line); cbn; now rewrite IH.
Qed.

Lemma running_app (t : JsString) (l1 l2 : list JsString) :
  running t (l1 ++ l2) = running t l1 ++ running (t ++ concat l1) l2.
Proof.
  revert t; induction l1 as [|x l1 IH]; intros t; cbn.
  - now rewrite app_nil_r.
  - now rewrite IH, app_assoc.
Qed.

Lemma running_length (t : JsString) (texts : list JsString) :
  length (running t texts) = length texts.
Proof.
  revert t; induction texts as [|x texts IH]; intros t; cbn; [reflexivity|].
  now rewrite IH.
Qed.

(** What one line does, read off [delta]: it appends the line's text and
    writes the paragraph once, or changes nothing but the console. *)
Lemma process_line_delta (el : nat) (t : JsString) (w : World) (line : JsString) :
  process_line el (t, w) line =
    match delta line with
    | Some text => (t ++ text, set_p_textContent el (t ++ text) w)
    | None => (t, set_console (console (snd (process_line el (t, w) line))) w)
    end.
Proof.
  unfold process_line, line_body, JSON_parse, delta.
  destruct (JSON.parse line) as [v|]; [|destruct w; reflexivity].
  destruct v as [ | b | x | s | items | props];
    try (destruct w; reflexivity).
  unfold bind, GetV_response.
  destruct (Get props (lit "response")) as [r|]; [|destruct w; reflexivity].
  destruct (ToBoolean (Some r)); [|destruct w; reflexivity].
  destruct (ToString r); [reflexivity|destruct w; reflexivity].
Qed.

Lemma same_session_refl (w : World) : same_session w w.
Proof. repeat split. Qed.

Lemma same_session_trans (w1 w2 w3 : World) :
  same_session w1 w2 -> same_session w2 w3 -> same_session w1 w3.
Proof.
  unfold same_session; intros H1 H2.
  repeat match goal with H : _ /\ _ |- _ => destruct H end.
  repeat split; congruence.
Qed.

Lemma same_session_set_console (c : list ConsoleEntry) (w : World) :
  same_session w (set_console c w).
Proof. destruct w; repeat split. Qed.

Lemma same_session_set_p (el : nat) (text : JsString) (w : World) :
  same_session w (set_p_textContent el text w).
Proof. destruct w; repeat split. Qed.

Lemma writes_set_console (c : list ConsoleEntry) (w : World) :
  textContent_writes (set_console c w) = textContent_writes w.
Proof. now destruct w. Qed.

Lemma chatMessages_set_console (c : list ConsoleEntry) (w : World) :
  chatMessages (set_console c w) = chatMessages w.
Proof. now destruct w. Qed.

Lemma writes_set_p (el : nat) (text : JsString) (w : World) :
  textContent_writes (set_p_textContent el text w)
  = textContent_writes w ++ [(el, text)].
Proof. now destruct w. Qed.

Lemma chatMessages_set_p (el : nat) (text : JsString) (w : World) :
  chatMessages (set_p_textContent el text w)
  = with_p_textContent el text (chatMessages w).
Proof. now destruct w. Qed.

Lemma chatHistory_finally (w : World) :
  chatHistory (finally_block w) = chatHistory w.
Proof. now destruct w. Qed.

Lemma chatHistory_set_chatHistory (h : list Message) (w : World) :
  chatHistory (set_chatHistory h w) = h.
Proof. now destruct w. Qed.

Lemma chatHistory_catch (e : Exception) (w : World) :
  chatHistory (catch_block e w) = chatHistory w.
Proof. now destruct w. Qed.

Lemma chatMessages_finally (w : World) :
  chatMessages (finally_block w) = chatMessages w.
Proof. now destruct w. Qed.

Lemma chatMessages_set_chatHistory (h : list Message) (w : World) :
  chatMessages (set_chatHistory h w) = chatMessages w.
Proof. now destruct w. Qed.

Lemma chatMessages_catch (e : Exception) (w : World) :
  chatMessages (catch_block e w)
  = chatMessages w
    ++ [mkElement (lit "message assistant-message")
          (lit "<p>" ++ sorry ++ lit "</p>") None].
Proof. now destruct w. Qed.

Lemma isProcessing_finally (w : World) : isProcessing (finally_block w) = false.
Proof. now destruct w. Qed.

Lemma isProcessing_typing (text : JsString) (files : list File) (w : World) :
  isProcessing (set_imageInput_files files (set_userInput_value text w))
  = isProcessing w.
Proof. now destruct w. Qed.

(** Writing the paragraph of the child at [length pre]. *)
Lemma with_p_textContent_at (pre post : list Element) (e : Element)
  (text : JsString) :
  with_p_textContent (length pre) text (pre ++ e :: post)
  = pre ++ mkElement (className e) (innerHTML e) (Some text) :: post.
Proof.
  unfold with_p_textContent.
  rewrite nth_error_app2, Nat.sub_diag by lia. cbn [nth_error].
  rewrite firstn_app, Nat.sub_diag, firstn_all, firstn_O, app_nil_r.
  replace (S (length pre)) with (length (pre ++ [e]))
    by (rewrite length_app; cbn; lia).
  replace (pre ++ e :: post) with ((pre ++ [e]) ++ post)
    by (now rewrite <- app_assoc).
  rewrite skipn_app, skipn_all, Nat.sub_diag. reflexivity.
Qed.

(** The writes of an exchange change the text of its own element and
    nothing else on the page. *)
Lemma writes_stay_in_place (pre post : list Element) (texts : list JsString) :
  forall shown,
  exists shown',
    fold_left (fun c text => with_p_textContent (length pre) text c) texts
      (pre ++ placeholder shown :: post)
    = pre ++ placeholder shown' :: post.
Proof.
  induction texts as [|text texts IH]; intros shown; cbn [fold_left].
  - now exists shown.
  - rewrite with_p_textContent_at. apply IH.
Qed.

Lemma eqb_nil_true (s : JsString) : JsStr.eqb s [] = true <-> s = [].
Proof.
  unfold JsStr.eqb. destruct (JsStr.eq_dec s []); split; congruence.
Qed.

Lemma eqb_nil_false (s : JsString) : JsStr.eqb s [] = false <-> s <> [].
Proof.
  unfold JsStr.eqb. destruct (JsStr.eq_dec s []); split; congruence.
Qed.

(* ================================================================== *)
(** * Facts: the read loop *)
(* ================================================================== *)

(** The loop over the lines of one chunk, read off [deltas]. *)
Lemma lines_loop (el : nat) (lines : list JsString) :
  forall (t : JsString) (w : World),
    fst (fold_left (process_line el) lines (t, w))
      = t ++ concat (deltas lines) /\
    textContent_writes (snd (fold_left (process_line el) lines (t, w)))
      = textContent_writes w ++ map (pair el) (running t (deltas lines)) /\
    chatMessages (snd (fold_left (process_line el) lines (t, w)))
      = fold_left (fun c text => with_p_textContent el text c)
                  (running t (deltas lines)) (chatMessages w) /\
    same_session w (snd (fold_left (process_line el) lines (t, w))).
Proof.
  induction lines as [|line lines IH]; intros t w; cbn.
  - rewrite !app_nil_r. repeat split.
  - rewrite process_line_delta.
    destruct (delta line) as [text|]; cbn.
    + destruct (IH (t ++ text) (set_p_textContent el (t ++ text) w))
        as (H1 & H2 & H3 & H4).
      split; [|split; [|split]].
      * etransitivity; [exact H1|]. now rewrite app_assoc.
      * etransitivity; [exact H2|]. now rewrite writes_set_p, <- app_assoc.
      * etransitivity; [exact H3|]. now rewrite chatMessages_set_p.
      * eapply same_session_trans; [apply same_session_set_p|exact H4].
    + match goal with |- context [set_console ?c w] => set (cs := c) end.
      destruct (IH t (set_console cs w)) as (H1 & H2 & H3 & H4).
      split; [|split; [|split]].
      * exact H1.
      * etransitivity; [exact H2|]. now rewrite writes_set_console.
      * etransitivity; [exact H3|]. now rewrite chatMessages_set_console.
      * eapply same_session_trans; [apply same_session_set_console|exact H4].
Qed.

(** One chunk never ends the loop. *)
Lemma on_read_chunk (k : Reading) (value : list byte) (w : World) :
  on_read k (Chunk value) w =
    (snd (fold_left (process_line (assistantMessageEl k))
            (split LF (snd (TextDecoder.decode (decoder k) value)))
            (responseText k, w)),
     Some (mkReading (assistantMessageEl k)
             (fst (TextDecoder.decode (decoder k) value))
             (fst (fold_left (process_line (assistantMessageEl k))
                     (split LF (snd (TextDecoder.decode (decoder k) value)))
                     (responseText k, w))))).
Proof.
  unfold on_read.
  destruct (TextDecoder.decode (decoder k) value) as [d chunk]; cbn.
  now destruct (fold_left _ _ _).
Qed.

(** The loop over the chunks, read off [deltas]. *)
Lemma chunks_loop (chunks : list (list byte)) :
  forall (k : Reading) (w : World),
    assistantMessageEl (fst (read_chunks k chunks w)) = assistantMessageEl k /\
    responseText (fst (read_chunks k chunks w))
      = responseText k ++ concat (deltas (stream_lines (decoder k) chunks)) /\
    textContent_writes (snd (read_chunks k chunks w))
      = textContent_writes w
        ++ map (pair (assistantMessageEl k))
             (running (responseText k)
                (deltas (stream_lines (decoder k) chunks))) /\
    chatMessages (snd (read_chunks k chunks w))
      = fold_left
          (fun c text => with_p_textContent (assistantMessageEl k) text c)
          (running (responseText k) (deltas (stream_lines (decoder k) chunks)))
          (chatMessages w) /\
    same_session w (snd (read_chunks k chunks w)).
Proof.
  induction chunks as [|value chunks IH]; intros k w; cbn.
  - rewrite !app_nil_r. repeat split.
  - rewrite on_read_chunk.
    destruct (TextDecoder.decode (decoder k) value) as [d chunk]; cbn.
    destruct (lines_loop (assistantMessageEl k) (split LF chunk)
                (responseText k) w) as (L1 & L2 & L3 & L4).
    match goal with |- context [read_chunks ?k' chunks ?w'] =>
      destruct (IH k' w') as (H0 & H1 & H2 & H3 & H4) end.
    cbn in H0, H1, H2, H3.
    rewrite deltas_app, running_app, concat_app, map_app, fold_left_app.
    split; [|split; [|split; [|split]]].
    + exact H0.
    + etransitivity; [exact H1|]. now rewrite L1, app_assoc.
    + etransitivity; [exact H2|]. now rewrite L1, L2, app_assoc.
    + etransitivity; [exact H3|]. now rewrite L1, L3.
    + eapply same_session_trans; [exact L4|exact H4].
Qed.

(** The end of the stream after the chunks. *)
Lemma read_all_eq (k : Reading) (chunks : list (list byte))
  (ending : option Exception) (w : World) :
  read_all k chunks ending w =
    match ending with
    | None =>
        finally_block
          (set_chatHistory
             (chatHistory (snd (read_chunks k chunks w))
              ++ [mkMessage assistant (responseText (fst (read_chunks k chunks w)))])
             (snd (read_chunks k chunks w)))
    | Some e => finally_block (catch_block e (snd (read_chunks k chunks w)))
    end.
Proof.
  unfold read_all. destruct (read_chunks k chunks w) as [k' w'].
  now destruct ending.
Qed.

Lemma isProcessing_read_all (k : Reading) (chunks : list (list byte))
  (ending : option Exception) (w : World) :
  isProcessing (read_all k chunks ending w) = false.
Proof.
  rewrite read_all_eq. destruct ending; apply isProcessing_finally.
Qed.

(* ================================================================== *)
(** * Facts: chunk boundaries *)
(* ================================================================== *)

Module ChunkingFacts.

Import TextDecoder Chunking.

Lemma lead_expects (bom : bool) (b : N) :
  expects_continuation (fst (lead bom b)) = true.
Proof.
  unfold lead.
  repeat match goal with
         | |- context [if ?c then _ else _] => destruct c
         end; reflexivity.
Qed.

Lemma handler_expects (d : TextDecoder.t) (b : N) :
  expects_continuation (fst (handler d b)) = true.
Proof.
  unfold handler.
  destruct (N.eqb (bytes_needed d) 0); [apply lead_expects|].
  destruct (negb _).
  - pose proof (lead_expects (BOM_seen d) b) as H.
    destruct (lead (BOM_seen d) b). exact H.
  - destruct (N.eqb _ _); [reflexivity|].
    unfold expects_continuation; cbn. apply orb_true_r.
Qed.

Lemma step_expects (d : TextDecoder.t) (b : byte) :
  expects_continuation (fst (step d b)) = true.
Proof.
  unfold step.
  pose proof (handler_expects d (Byte.to_N b)) as H.
  destruct (handler d (Byte.to_N b)) as [d' cps].
  destruct (serialize (BOM_seen d) cps) as [bom out].
  destruct d'; exact H.
Qed.

Lemma decode_nil (d : TextDecoder.t) : decode d [] = (d, []).
Proof. reflexivity. Qed.

Lemma decode_cons (d : TextDecoder.t) (b : byte) (r : list byte) :
  decode d (b :: r) =
    (fst (decode (fst (step d b)) r),
     snd (step d b) ++ snd (decode (fst (step d b)) r)).
Proof.
  unfold decode; fold decode.
  destruct (step d b) as [d1 o1]; cbn.
  now destruct (decode d1 r).
Qed.

Lemma decode_expects (value : list byte) :
  forall d, expects_continuation d = true ->
            expects_continuation (fst (decode d value)) = true.
Proof.
  induction value as [|b value IH]; intros d H; [exact H|].
  rewrite decode_cons. cbn. apply IH, step_expects.
Qed.

(** A line feed byte always comes out as a line feed, after U+FFFD when
    it cuts a pending sequence short, and leaves nothing pending. *)
Lemma step_LF (d : TextDecoder.t) :
  expects_continuation d = true ->
  exists out, step d x0a = (at_line_start, out ++ [LF]).
Proof.
  destruct d as [cp seen needed lo hi bom].
  unfold expects_continuation, step, handler; cbn [bytes_needed lower_boundary
    upper_boundary BOM_seen code_point bytes_seen].
  change (Byte.to_N x0a) with 10%N.
  destruct (N.eqb needed 0) eqn:E; cbn [orb].
  - intros _. destruct bom; exists []; reflexivity.
  - intros H.
    assert (R : in_range lo hi 10 = false).
    { unfold in_range. apply N.leb_le in H.
      destruct (N.leb lo 10) eqn:L; [|reflexivity].
      apply N.leb_le in L. lia. }
    rewrite R. cbn [negb].
    destruct bom; exists [65533%N]; reflexivity.
Qed.

Lemma decode_app (a b : list byte) :
  forall d,
    decode d (a ++ b) =
      (fst (decode (fst (decode d a)) b),
       snd (decode d a) ++ snd (decode (fst (decode d a)) b)).
Proof.
  induction a as [|x a IH]; intros d.
  - rewrite decode_nil. cbn. now destruct (decode d b).
  - cbn [app]. rewrite !decode_cons, IH. cbn. now rewrite app_assoc.
Qed.

(** A chunk that ends with a line feed byte decodes to a text that ends
    with a line feed. *)
Lemma decode_line_end (c : list byte) (d : TextDecoder.t) :
  expects_continuation d = true ->
  exists out, decode d (c ++ [x0a]) = (at_line_start, out ++ [LF]).
Proof.
  intros H. rewrite decode_app.
  destruct (step_LF _ (decode_expects c d H)) as [out E].
  rewrite decode_cons, decode_nil, E. cbn.
  exists (snd (decode d c) ++ out). now rewrite app_nil_r, app_assoc.
Qed.

Lemma split_nonempty (s : JsString) : split LF s <> [].
Proof.
  destruct s as [|c s]; cbn; [discriminate|].
  destruct (N.eqb c LF); [discriminate|].
  destruct (split LF s); discriminate.
Qed.

(** Splitting at a line feed splits the list of lines. *)
Lemma split_app_LF (a b : JsString) :
  split LF (a ++ LF :: b) = split LF a ++ split LF b.
Proof.
  induction a as [|c a IH]; cbn; [reflexivity|].
  destruct (N.eqb c LF); [now rewrite IH|].
  rewrite IH.
  pose proof (split_nonempty a) as N.
  destruct (split LF a); [contradiction|reflexivity].
Qed.

Lemma split_end_LF (a : JsString) : split LF (a ++ [LF]) = split LF a ++ [[]].
Proof. apply (split_app_LF a []). Qed.

Lemma ends_line_cases (c : list byte) :
  ends_line c = true -> c = [] \/ exists c', c = c' ++ [x0a].
Proof.
  unfold ends_line. destruct (rev c) as [|b r] eqn:E; intros H.
  - left. apply (f_equal (@rev byte)) in E. now rewrite rev_involutive in E.
  - right. exists (rev r).
    apply (f_equal (@rev byte)) in E. rewrite rev_involutive in E. cbn in E.
    rewrite E. f_equal. f_equal.
    now apply Byte.byte_dec_bl in H.
Qed.

Lemma delta_empty : delta [] = None.
Proof. reflexivity. Qed.

Lemma stream_lines_cons (d : TextDecoder.t) (c : list byte)
  (rest : list (list byte)) :
  stream_lines d (c :: rest)
  = split LF (snd (decode d c)) ++ stream_lines (fst (decode d c)) rest.
Proof. cbn. now destruct (decode d c). Qed.

(** When every chunk boundary is at the end of a line, the chunks add
    the texts that their concatenation adds as one chunk: a boundary
    only produces one more empty line, which adds nothing. *)
Lemma aligned_deltas (chunks : list (list byte)) :
  forall d,
    expects_continuation d = true ->
    aligned chunks = true ->
    deltas (stream_lines d chunks)
    = deltas (split LF (snd (decode d (concat chunks)))).
Proof.
  induction chunks as [|c rest IH]; intros d E A.
  - cbn [concat stream_lines]. rewrite decode_nil. cbn.
    now rewrite delta_empty.
  - rewrite stream_lines_cons. cbn [concat]. rewrite decode_app. cbn [snd].
    destruct rest as [|c2 rest'].
    + cbn [concat stream_lines]. rewrite decode_nil. cbn [snd].
      now rewrite !app_nil_r.
    + cbn [aligned] in A. apply andb_prop in A. destruct A as [A1 A2].
      destruct (ends_line_cases c A1) as [->|[c' ->]].
      * rewrite decode_nil. cbn [fst snd app].
        rewrite deltas_app. cbn [split deltas]. rewrite delta_empty.
        apply (IH d E A2).
      * destruct (decode_line_end c' d E) as [out D]. rewrite D. cbn [fst snd].
        rewrite <- app_assoc. cbn [app].
        rewrite !split_app_LF, !deltas_app.
        cbn [split deltas]. rewrite delta_empty, app_nil_r.
        f_equal. apply (IH at_line_start eq_refl A2).
Qed.

End ChunkingFacts.

(* ================================================================== *)
(** * Facts: sendMessage *)
(* ================================================================== *)

(** The guard of [sendMessage] lets the submission through. *)
Lemma guard_passes (w : World) :
  isProcessing w = false ->
  nonempty_submission w ->
  (JsStr.eqb (trim (userInput_value w)) []
   && match nth_error (imageInput_files w) 0 with
      | None => true
      | Some _ => false
      end) || isProcessing w = false.
Proof.
  intros I [T|F]; rewrite I, orb_false_r.
  - apply eqb_nil_false in T. now rewrite T.
  - destruct (imageInput_files w); [contradiction|]. apply andb_false_r.
Qed.

(** What an accepted call of [sendMessage] has done when it awaits
    [fetch]. *)
Lemma sendMessage_accepted (w : World) :
  isProcessing w = false ->
  nonempty_submission w ->
  exists w',
    sendMessage w = (w', Some (S (length (chatMessages w)))) /\
    chatHistory w'
      = chatHistory w ++ [mkMessage user (trim (userInput_value w))] /\
    chatMessages w' = chatMessages w ++ [user_element w; placeholder None] /\
    isProcessing w' = true /\
    textContent_writes w' = textContent_writes w /\
    fetched w'
      = fetched w ++
        [mkRequest (lit "/api/chat") (lit "POST")
           match imageInput_files w with
           | file :: _ => FormData (chatHistory w') file
           | [] => JsonBody (chatHistory w')
           end].
Proof.
  intros I N. pose proof (guard_passes w I N) as G.
  unfold sendMessage. rewrite G. eexists. split.
  - f_equal. f_equal. destruct w; cbn. rewrite length_app. cbn. lia.
  - unfold user_element, shown_user_text.
    destruct w as [h p v d1 d2 d3 files t c f cs ws]; cbn in *.
    destruct files as [|file files]; cbn.
    + rewrite <- app_assoc. repeat split.
    + destruct (trim v) as [|x m] eqn:T.
      * change (JsStr.eqb [] []) with true. cbn.
        rewrite <- app_assoc. repeat split.
      * assert (E : JsStr.eqb (x :: m) [] = false)
          by (apply eqb_nil_false; discriminate).
        rewrite E. cbn. rewrite <- !app_assoc. repeat split.
Qed.

(** The guard of [sendMessage] turns the submission away. *)
Lemma sendMessage_refused (w : World) :
  (trim (userInput_value w) = [] /\ imageInput_files w = []) \/
  isProcessing w = true ->
  sendMessage w = (w, None).
Proof.
  intros H. unfold sendMessage.
  destruct H as [[T F]|I].
  - rewrite T, F. reflexivity.
  - rewrite I, orb_true_r. reflexivity.
Qed.

Lemma submission_cases (w : World) :
  (trim (userInput_value w) = [] /\ imageInput_files w = []) \/
  nonempty_submission w.
Proof.
  unfold nonempty_submission.
  destruct (trim (userInput_value w)); [|right; left; discriminate].
  destruct (imageInput_files w); [left; split; reflexivity|].
  right; right; discriminate.
Qed.

(** An accepted call of [sendMessage], by the answer of the network. *)
Lemma exchange_accepted (r : FetchResult) (w : World) :
  isProcessing w = false ->
  nonempty_submission w ->
  exchange r w =
    match r with
    | Rejected e => finally_block (catch_block e (fst (sendMessage w)))
    | Resolved response =>
        if ok response then
          match stream response with
          | Some (chunks, ending) =>
              read_all (mkReading (S (length (chatMessages w))) TextDecoder.new [])
                chunks ending (fst (sendMessage w))
          | None => finally_block (catch_block TypeError (fst (sendMessage w)))
          end
        else finally_block
               (catch_block (Error (lit "Failed to get response"))
                  (fst (sendMessage w)))
    end.
Proof.
  intros I N. destruct (sendMessage_accepted w I N) as (w1 & E & _).
  unfold exchange. rewrite E. cbn [fst].
  destruct r as [e|[st [[chunks ending]|]]]; cbn [on_fetch]; try reflexivity.
  - unfold ok; cbn [status stream].
    destruct (N.leb 200 st && N.leb st 299); reflexivity.
  - unfold ok; cbn [status stream].
    destruct (N.leb 200 st && N.leb st 299); reflexivity.
Qed.

(** An exchange started with the flag clear ends with the flag clear. *)
Lemma isProcessing_exchange (r : FetchResult) (w : World) :
  isProcessing w = false -> isProcessing (exchange r w) = false.
Proof.
  intros I. destruct (submission_cases w) as [E|N].
  - unfold exchange. rewrite (sendMessage_refused w (or_introl E)). exact I.
  - rewrite (exchange_accepted r w I N).
    destruct r as [e|response]; [apply isProcessing_finally|].
    destruct (ok response); [|apply isProcessing_finally].
    destruct (stream response) as [[chunks ending]|];
      [apply isProcessing_read_all|apply isProcessing_finally].
Qed.

Lemma isProcessing_fold (l : list Submission) :
  forall w, isProcessing w = false -> isProcessing (fold_left submit l w) = false.
Proof.
  induction l as [|s l IH]; intros w I; cbn [fold_left]; [exact I|].
  apply IH. unfold submit. apply isProcessing_exchange.
  now rewrite isProcessing_typing.
Qed.

(** The history after an accepted call of [sendMessage]: the user's
    message and, when the response is streamed to its end, the assistant
    message with the assembled text after it. *)
Lemma history_after_exchange (r : FetchResult) (w : World) :
  isProcessing w = false ->
  nonempty_submission w ->
  chatHistory (exchange r w)
  = chatHistory w
    ++ mkMessage user (trim (userInput_value w))
       :: match streamed_to_end r with
          | Some chunks =>
              [mkMessage assistant
                 (concat (deltas (stream_lines TextDecoder.new chunks)))]
          | None => []
          end.
Proof.
  intros I N. rewrite (exchange_accepted r w I N).
  destruct (sendMessage_accepted w I N) as (w1 & E & H & _).
  rewrite E. cbn [fst]. unfold streamed_to_end.
  destruct r as [e|response].
  - now rewrite chatHistory_finally, chatHistory_catch, H.
  - destruct (ok response).
    + destruct (stream response) as [[chunks ending]|].
      * rewrite read_all_eq.
        destruct (chunks_loop chunks
                    (mkReading (S (length (chatMessages w))) TextDecoder.new [])
                    w1) as (_ & T & _ & _ & (F & _)).
        destruct ending as [e|].
        -- now rewrite chatHistory_finally, chatHistory_catch, F, H.
        -- rewrite chatHistory_finally, chatHistory_set_chatHistory, F, H, T.
           cbn. now rewrite <- app_assoc.
      * now rewrite chatHistory_finally, chatHistory_catch, H.
    + now rewrite chatHistory_finally, chatHistory_catch, H.
Qed.

(* ================================================================== *)
(** * The streaming response assembler *)
(* ================================================================== *)

(** C1, as amended.  For every response stream, the accumulated
    assistant text is the concatenation, in receive order, of the text of
    the [response] of every line that parses as a JSON object and whose
    [response] is truthy (for a text: not empty) and converts to text;
    exactly one write of the displayed paragraph happens per such line,
    in the same order, each showing the text shown before followed by
    that line's text; when the stream closes, that accumulated text is
    the content of the assistant message pushed to the history. *)
Theorem C1_assembled_text_and_events
  (k : Reading) (chunks : list (list byte)) (w : World) :
  let texts := deltas (stream_lines (decoder k) chunks) in
  responseText (fst (read_chunks k chunks w)) = responseText k ++ concat texts /\
  textContent_writes (snd (read_chunks k chunks w))
    = textContent_writes w
      ++ map (pair (assistantMessageEl k)) (running (responseText k) texts) /\
  length (textContent_writes (snd (read_chunks k chunks w)))
    = length (textContent_writes w) + length texts /\
  chatHistory (read_all k chunks None w)
    = chatHistory w ++ [mkMessage assistant (responseText k ++ concat texts)].
Proof.
  cbn zeta.
  destruct (chunks_loop chunks k w) as (_ & H1 & H2 & _ & H4).
  split; [exact H1|]. split; [exact H2|]. split.
  - rewrite H2, length_app, length_map, running_length. reflexivity.
  - rewrite read_all_eq, chatHistory_finally, chatHistory_set_chatHistory, H1.
    now destruct H4 as (-> & _).
Qed.

(** The example of C1: two valid lines in one chunk give the content
    [Hi there] and the two writes [Hi] and [Hi there]. *)
Example two_lines_one_chunk :
  let w := Examples.asked
             [Examples.text "{'response':'Hi'}" ++ [x0a]
              ++ Examples.text "{'response':' there'}" ++ [x0a]] in
  last (chatHistory w) (mkMessage system []) = mkMessage assistant (lit "Hi there") /\
  textContent_writes w = [(2, lit "Hi"); (2, lit "Hi there")].
Proof. vm_compute. split; reflexivity. Qed.

(** C1 as stated fails: the line holding the object whose only member
    is [response] with the empty text parses as a JSON object, and no
    write is made for it. *)
Lemma C1_counterexample :
  let chunk := Examples.text "{'response':''}" ++ [x0a] in
  JSON.parse (quoted "{'response':''}")
    = Some (JObject [(lit "response", JString [])]) /\
  length (filter parses_as_object (stream_lines TextDecoder.new [chunk])) = 1 /\
  length (textContent_writes (Examples.asked [chunk])) = 0.
Proof. vm_compute. repeat split. Qed.

(** C2, as amended.  For every byte stream, two partitions into chunks
    whose boundaries all fall at the end of a line (each chunk but the
    last is empty or ends with a line feed byte) give the same
    accumulated text, the same sequence of displayed texts, the same
    page and, whichever way the stream ends, the same history. *)
Theorem C2_chunking_invariance_at_line_ends
  (el : nat) (w : World) (P Q : list (list byte)) :
  concat P = concat Q ->
  Chunking.aligned P = true ->
  Chunking.aligned Q = true ->
  responseText (fst (read_chunks (mkReading el TextDecoder.new []) P w))
  = responseText (fst (read_chunks (mkReading el TextDecoder.new []) Q w)) /\
  textContent_writes (snd (read_chunks (mkReading el TextDecoder.new []) P w))
  = textContent_writes (snd (read_chunks (mkReading el TextDecoder.new []) Q w)) /\
  chatMessages (snd (read_chunks (mkReading el TextDecoder.new []) P w))
  = chatMessages (snd (read_chunks (mkReading el TextDecoder.new []) Q w)) /\
  (forall ending,
     chatHistory (read_all (mkReading el TextDecoder.new []) P ending w)
     = chatHistory (read_all (mkReading el TextDecoder.new []) Q ending w) /\
     chatMessages (read_all (mkReading el TextDecoder.new []) P ending w)
     = chatMessages (read_all (mkReading el TextDecoder.new []) Q ending w)).
Proof.
  intros C AP AQ.
  assert (D : deltas (stream_lines TextDecoder.new P)
              = deltas (stream_lines TextDecoder.new Q)).
  { rewrite (ChunkingFacts.aligned_deltas P TextDecoder.new eq_refl AP).
    rewrite (ChunkingFacts.aligned_deltas Q TextDecoder.new eq_refl AQ).
    now rewrite C. }
  destruct (chunks_loop P (mkReading el TextDecoder.new []) w)
    as (_ & P1 & P2 & P3 & P4).
  destruct (chunks_loop Q (mkReading el TextDecoder.new []) w)
    as (_ & Q1 & Q2 & Q3 & Q4).
  cbn [decoder responseText assistantMessageEl] in *.
  rewrite D in P1, P2, P3.
  assert (T := eq_trans P1 (eq_sym Q1)).
  assert (W := eq_trans P2 (eq_sym Q2)).
  assert (M := eq_trans P3 (eq_sym Q3)).
  repeat match goal with |- _ /\ _ => split end; try assumption.
  intros ending. split.
  - rewrite !read_all_eq. destruct ending as [e|].
    + rewrite !chatHistory_finally, !chatHistory_catch.
      destruct P4 as (-> & _). now destruct Q4 as (-> & _).
    + rewrite !chatHistory_finally, !chatHistory_set_chatHistory, T.
      destruct P4 as (-> & _). now destruct Q4 as (-> & _).
  - rewrite !read_all_eq. destruct ending as [e|].
    + now rewrite !chatMessages_finally, !chatMessages_catch, M.
    + now rewrite !chatMessages_finally, !chatMessages_set_chatHistory, M.
Qed.

Lemma C2_witness :
  let P := [Examples.text "{'response':'Hi'}" ++ [x0a];
            Examples.text "{'response':' there'}" ++ [x0a]] in
  let Q := [Examples.text "{'response':'Hi'}" ++ [x0a]
            ++ Examples.text "{'response':' there'}" ++ [x0a]] in
  concat P = concat Q /\
  Chunking.aligned P = true /\
  Chunking.aligned Q = true /\
  textContent_writes (snd (read_chunks (mkReading 2 TextDecoder.new []) P initial))
  = textContent_writes (snd (read_chunks (mkReading 2 TextDecoder.new []) Q initial)).
Proof.
  cbn zeta.
  split; [reflexivity|]. split; [reflexivity|]. split; [reflexivity|].
  apply (C2_chunking_invariance_at_line_ends 2 initial
           [Examples.text "{'response':'Hi'}" ++ [x0a];
            Examples.text "{'response':' there'}" ++ [x0a]]
           [Examples.text "{'response':'Hi'}" ++ [x0a]
            ++ Examples.text "{'response':' there'}" ++ [x0a]]);
    reflexivity.
Defined.

(** C2 as stated fails: the same bytes give the content [Hello] and one
    write as one chunk, and the empty content and no write when the
    boundary falls inside the record. *)
Lemma C2_counterexample :
  let c1 := Examples.text "{'response':'Hel" in
  let c2 := Examples.text "lo'}" ++ [x0a] in
  concat [c1 ++ c2] = concat [c1; c2] /\
  last (chatHistory (Examples.asked [c1 ++ c2])) (mkMessage system [])
    = mkMessage assistant (lit "Hello") /\
  last (chatHistory (Examples.asked [c1; c2])) (mkMessage system [])
    = mkMessage assistant [] /\
  textContent_writes (Examples.asked [c1 ++ c2]) = [(2, lit "Hello")] /\
  textContent_writes (Examples.asked [c1; c2]) = [].
Proof. vm_compute. repeat split. Qed.

(** C3.  One JSON object split over two chunks: the candidate lines are
    the two halves and the empty line after the final newline; none of
    them parses, nothing is accumulated or displayed, and the assistant
    message has the empty content, whereas the same bytes in one chunk
    give [Hello]. *)
Theorem C3_split_record_is_dropped :
  let c1 := Examples.text "{'response':'Hel" in
  let c2 := Examples.text "lo'}" ++ [x0a] in
  stream_lines TextDecoder.new [c1; c2]
    = [quoted "{'response':'Hel"; quoted "lo'}"; []] /\
  JSON.parse (quoted "{'response':'Hel") = None /\
  JSON.parse (quoted "lo'}") = None /\
  JSON.parse [] = None /\
  (forall el w,
     responseText (fst (read_chunks (mkReading el TextDecoder.new []) [c1; c2] w))
       = [] /\
     textContent_writes
       (snd (read_chunks (mkReading el TextDecoder.new []) [c1; c2] w))
       = textContent_writes w) /\
  last (chatHistory (Examples.asked [c1; c2])) (mkMessage system [])
    = mkMessage assistant [] /\
  last (chatHistory (Examples.asked [c1 ++ c2])) (mkMessage system [])
    = mkMessage assistant (lit "Hello").
Proof.
  cbn zeta.
  repeat match goal with |- _ /\ _ => split end;
    try (vm_compute; reflexivity).
  intros el w.
  destruct (chunks_loop
              [Examples.text "{'response':'Hel"; Examples.text "lo'}" ++ [x0a]]
              (mkReading el TextDecoder.new []) w) as (_ & H1 & H2 & _).
  split.
  - etransitivity; [exact H1|]. vm_compute. reflexivity.
  - etransitivity; [exact H2|]. vm_compute (map _ _). apply app_nil_r.
Qed.

(** C7.  A line that is not valid JSON throws inside the [try] of the
    loop body and the [catch] absorbs it: the accumulated text and the
    page stay as they were, only a warning is logged; the loop goes on
    with the lines after it, and the chunk it came in leaves the exchange
    reading. *)
Theorem C7_malformed_line_is_not_fatal
  (el : nat) (t : JsString) (w : World) (line : JsString) :
  JSON.parse line = None ->
  line_body el line (t, w) = Throw SyntaxError /\
  process_line el (t, w) line = (t, console_warn SyntaxError line w) /\
  delta line = None /\
  (forall before after st,
     fold_left (process_line el) (before ++ line :: after) st
     = fold_left (process_line el) after
         (process_line el (fold_left (process_line el) before st) line)) /\
  (forall k value w0, exists k', snd (on_read k (Chunk value) w0) = Some k').
Proof.
  intros H.
  assert (B : line_body el line (t, w) = Throw SyntaxError)
    by (unfold line_body, JSON_parse; now rewrite H).
  repeat match goal with |- _ /\ _ => split end.
  - exact B.
  - unfold process_line. now rewrite B.
  - unfold delta. now rewrite H.
  - intros before after st. now rewrite fold_left_app.
  - intros k value w0. rewrite on_read_chunk. eexists. reflexivity.
Qed.

Lemma C7_witness :
  JSON.parse (quoted "lo'}") = None /\
  process_line 2 (lit "Hi", initial) (quoted "lo'}")
  = (lit "Hi", console_warn SyntaxError (quoted "lo'}") initial).
Proof.
  split; [reflexivity|].
  apply (C7_malformed_line_is_not_fatal 2 (lit "Hi") initial (quoted "lo'}")).
  reflexivity.
Defined.

(** C10.  A line that parses as a JSON object whose [response] is
    present but falsy does what a line without the field does: the body
    completes normally, nothing is appended, written or logged.  The
    test is the truthiness of the value: the empty text is falsy. *)
Theorem C10_falsy_response_is_ignored
  (el : nat) (t : JsString) (w : World) (line : JsString)
  (props : list (JsString * JsValue)) (v : JsValue) :
  JSON.parse line = Some (JObject props) ->
  Get props (lit "response") = Some v ->
  ToBoolean (Some v) = false ->
  line_body el line (t, w) = Normal (t, w) /\
  process_line el (t, w) line = (t, w) /\
  delta line = None /\
  (forall line' props',
     JSON.parse line' = Some (JObject props') ->
     Get props' (lit "response") = None ->
     process_line el (t, w) line' = process_line el (t, w) line) /\
  ToBoolean (Some (JString [])) = false.
Proof.
  intros P G B.
  assert (L : line_body el line (t, w) = Normal (t, w)).
  { unfold line_body, JSON_parse. rewrite P. unfold bind, GetV_response.
    rewrite G, B. reflexivity. }
  assert (E : process_line el (t, w) line = (t, w))
    by (unfold process_line; now rewrite L).
  repeat match goal with |- _ /\ _ => split end.
  - exact L.
  - exact E.
  - unfold delta. now rewrite P, G, B.
  - intros line' props' P' G'. rewrite E.
    unfold process_line, line_body, JSON_parse. rewrite P'.
    unfold bind, GetV_response. now rewrite G'.
  - reflexivity.
Qed.

Lemma C10_witness :
  JSON.parse (quoted "{'response':''}")
    = Some (JObject [(lit "response", JString [])]) /\
  process_line 2 (lit "Hi", initial) (quoted "{'response':''}")
    = (lit "Hi", initial) /\
  process_line 2 (lit "Hi", initial) (quoted "{'other':1}")
    = process_line 2 (lit "Hi", initial) (quoted "{'response':''}").
Proof.
  pose proof (C10_falsy_response_is_ignored 2 (lit "Hi") initial
                (quoted "{'response':''}")
                [(lit "response", JString [])] (JString [])
                eq_refl eq_refl eq_refl) as (_ & E & _ & S & _).
  split; [reflexivity|]. split; [exact E|].
  apply (S (quoted "{'other':1}")
           [(lit "other", JNumber (JsNumber.of_decimal false 1 0))]);
    reflexivity.
Defined.

(* ================================================================== *)
(** * The conversation state tracker *)
(* ================================================================== *)

(** C4.  Every non-empty submission (text after trimming, or an
    attachment), made after any sequence of earlier submissions, appends
    exactly one user message to the history and, when the response is
    streamed to its end, exactly one assistant message after it, holding
    the assembled text; otherwise nothing after the user message. *)
Theorem C4_one_user_then_one_assistant (l : list Submission) (s : Submission) :
  trim (typed s) <> [] \/ picked s <> [] ->
  chatHistory (session (l ++ [s]))
  = chatHistory (session l)
    ++ mkMessage user (trim (typed s))
       :: match streamed_to_end (answer s) with
          | Some chunks =>
              [mkMessage assistant
                 (concat (deltas (stream_lines TextDecoder.new chunks)))]
          | None => []
          end.
Proof.
  intros N. unfold session. rewrite fold_left_app. cbn [fold_left].
  fold (session l). unfold submit.
  rewrite history_after_exchange.
  - now destruct (session l).
  - rewrite isProcessing_typing. apply isProcessing_fold. reflexivity.
  - unfold nonempty_submission. now destruct (session l).
Qed.

Lemma C4_witness :
  let s := mkSubmission (lit " hi ") []
             (Examples.streamed
                [Examples.text "{'response':'Hi'}" ++ [x0a];
                 Examples.text "{'response':' there'}" ++ [x0a]]) in
  (trim (typed s) <> [] \/ picked s <> []) /\
  chatHistory (session [s])
  = [mkMessage assistant greeting;
     mkMessage user (lit "hi");
     mkMessage assistant (lit "Hi there")].
Proof.
  cbn zeta. split; [left; discriminate|].
  apply (C4_one_user_then_one_assistant []
           (mkSubmission (lit " hi ") []
              (Examples.streamed
                 [Examples.text "{'response':'Hi'}" ++ [x0a];
                  Examples.text "{'response':' there'}" ++ [x0a]]))).
  left; discriminate.
Defined.

(** C5.  When the request cannot be sent, the status is not a success,
    the response has no body or the stream breaks, an accepted
    submission leaves the history with the prior turns and the user's
    message only (the text accumulated so far is not committed), shows
    exactly one fallback assistant element with the literal error text
    after the exchange's own elements, and clears the in-flight flag. *)
Theorem C5_transport_failure (r : FetchResult) (w : World) :
  isProcessing w = false ->
  nonempty_submission w ->
  streamed_to_end r = None ->
  chatHistory (exchange r w)
    = chatHistory w ++ [mkMessage user (trim (userInput_value w))] /\
  isProcessing (exchange r w) = false /\
  (exists shown,
     chatMessages (exchange r w)
     = chatMessages w ++ [user_element w; placeholder shown; fallback]) /\
  innerHTML fallback
    = lit "<p>Sorry, there was an error processing your request.</p>".
Proof.
  intros I N F.
  split; [|split; [apply isProcessing_exchange, I|split; [|reflexivity]]].
  - rewrite (exchange_accepted r w I N).
    destruct (sendMessage_accepted w I N) as (w1 & E & H & _).
    rewrite E. cbn [fst]. unfold streamed_to_end in F.
    destruct r as [e|response];
      [now rewrite chatHistory_finally, chatHistory_catch|].
    destruct (ok response);
      [|now rewrite chatHistory_finally, chatHistory_catch].
    destruct (stream response) as [[chunks [e|]]|]; try discriminate.
    + rewrite read_all_eq, chatHistory_finally, chatHistory_catch.
      destruct (chunks_loop chunks
                  (mkReading (S (length (chatMessages w))) TextDecoder.new [])
                  w1) as (_ & _ & _ & _ & (S1 & _)).
      now rewrite S1.
    + now rewrite chatHistory_finally, chatHistory_catch.
  - rewrite (exchange_accepted r w I N).
    destruct (sendMessage_accepted w I N) as (w1 & E & _ & M & _).
    rewrite E. cbn [fst]. unfold streamed_to_end in F.
    assert (Q : chatMessages (finally_block (catch_block TypeError w1))
                = chatMessages w ++ [user_element w; placeholder None; fallback]).
    { rewrite chatMessages_finally, chatMessages_catch, M, <- app_assoc.
      reflexivity. }
    assert (Q' : forall e, chatMessages (finally_block (catch_block e w1))
                 = chatMessages (finally_block (catch_block TypeError w1))).
    { intros e. now rewrite !chatMessages_finally, !chatMessages_catch. }
    destruct r as [e|response]; [exists None; now rewrite Q'|].
    destruct (ok response); [|exists None; now rewrite Q'].
    destruct (stream response) as [[chunks [e|]]|]; try discriminate;
      [|exists None; exact Q].
    rewrite read_all_eq, chatMessages_finally, chatMessages_catch.
    destruct (chunks_loop chunks
                (mkReading (S (length (chatMessages w))) TextDecoder.new [])
                w1) as (_ & _ & _ & C & _).
    rewrite C, M. cbn [assistantMessageEl responseText decoder].
    replace (S (length (chatMessages w)))
      with (length (chatMessages w ++ [user_element w]))
      by (rewrite length_app; cbn; lia).
    replace (chatMessages w ++ [user_element w; placeholder None])
      with ((chatMessages w ++ [user_element w]) ++ [placeholder None])
      by (now rewrite <- app_assoc).
    destruct (writes_stay_in_place (chatMessages w ++ [user_element w]) []
                (running [] (deltas (stream_lines TextDecoder.new chunks)))
                None) as [shown W].
    exists shown. rewrite W, <- !app_assoc. reflexivity.
Qed.

(** The example of C5 and a stream that breaks after a valid line. *)
Lemma C5_witness :
  let w := set_userInput_value (lit "hi") initial in
  let broken :=
    Resolved (mkResponse 200
                (Some ([Examples.text "{'response':'Hi'}" ++ [x0a]],
                       Some (Error (lit "network error"))))) in
  isProcessing w = false /\
  nonempty_submission w /\
  streamed_to_end (Resolved (mkResponse 500 None)) = None /\
  streamed_to_end broken = None /\
  chatHistory (exchange (Resolved (mkResponse 500 None)) w)
    = chatHistory w ++ [mkMessage user (lit "hi")] /\
  chatHistory (exchange broken w)
    = chatHistory w ++ [mkMessage user (lit "hi")].
Proof.
  cbn zeta.
  assert (N : nonempty_submission (set_userInput_value (lit "hi") initial))
    by (left; discriminate).
  split; [reflexivity|]. split; [exact N|].
  split; [reflexivity|]. split; [reflexivity|]. split.
  - apply (C5_transport_failure (Resolved (mkResponse 500 None))
             (set_userInput_value (lit "hi") initial) eq_refl N eq_refl).
  - apply (C5_transport_failure
             (Resolved (mkResponse 200
                (Some ([Examples.text "{'response':'Hi'}" ++ [x0a]],
                       Some (Error (lit "network error"))))))
             (set_userInput_value (lit "hi") initial) eq_refl N eq_refl).
Defined.

(** C6.  The in-flight flag is false when the script has loaded and
    after every sequence of submissions, whatever the network answered;
    an accepted call sets it, every step that ends the call (from the
    answer of [fetch] or from a read, by the stream closing or by an
    error) clears it, and an exchange started with the flag clear ends
    with the flag clear. *)
Theorem C6_in_flight_flag_is_cleared :
  isProcessing initial = false /\
  (forall l, isProcessing (session l) = false) /\
  (forall r w, isProcessing w = false -> isProcessing (exchange r w) = false) /\
  (forall w w' el, sendMessage w = (w', Some el) -> isProcessing w' = true) /\
  (forall el r w w', on_fetch el r w = (w', None) -> isProcessing w' = false) /\
  (forall k r w w', on_read k r w = (w', None) -> isProcessing w' = false).
Proof.
  repeat match goal with |- _ /\ _ => split end.
  - reflexivity.
  - intros l. apply isProcessing_fold. reflexivity.
  - intros r w. apply isProcessing_exchange.
  - intros w w' el. unfold sendMessage.
    destruct (_ || _); [discriminate|].
    intros E. injection E as <- _. now destruct w.
  - intros el r w w'. unfold on_fetch.
    destruct r as [e|response].
    + intros E. injection E as <-. apply isProcessing_finally.
    + destruct (negb (ok response)).
      * intros E. injection E as <-. apply isProcessing_finally.
      * destruct (stream response); [discriminate|].
        intros E. injection E as <-. apply isProcessing_finally.
  - intros k r w w'. destruct r as [value| |e].
    + rewrite on_read_chunk. discriminate.
    + unfold on_read. intros E. injection E as <-. apply isProcessing_finally.
    + unfold on_read. intros E. injection E as <-. apply isProcessing_finally.
Qed.

Lemma C6_witness :
  let w := set_userInput_value (lit "hi") initial in
  isProcessing w = false /\
  isProcessing (exchange (Rejected TypeError) w) = false /\
  isProcessing (fst (sendMessage w)) = true.
Proof.
  cbn zeta. split; [reflexivity|].
  destruct C6_in_flight_flag_is_cleared as (_ & _ & X & S & _).
  split.
  - apply (X (Rejected TypeError) (set_userInput_value (lit "hi") initial)).
    reflexivity.
  - apply (S (set_userInput_value (lit "hi") initial) _ 2). reflexivity.
Defined.

(** C8.  A submission with no text after trimming and no attachment, or
    one made while an exchange is in flight, is turned away by the
    guard: the state is left as it was (history, page, console, record of
    writes) and no request goes out, whatever the network would have
    answered. *)
Theorem C8_refused_submission_is_a_no_op (w : World) :
  (trim (userInput_value w) = [] /\ imageInput_files w = []) \/
  isProcessing w = true ->
  sendMessage w = (w, None) /\
  (forall r, exchange r w = w).
Proof.
  intros H. pose proof (sendMessage_refused w H) as E.
  split; [exact E|].
  intros r. unfold exchange. now rewrite E.
Qed.

Lemma C8_witness :
  let blank := set_userInput_value (lit "   ") initial in
  let busy :=
    set_userInput_value (lit "again")
      (fst (sendMessage (set_userInput_value (lit "hi") initial))) in
  (trim (userInput_value blank) = [] /\ imageInput_files blank = []) /\
  isProcessing busy = true /\
  sendMessage blank = (blank, None) /\
  sendMessage busy = (busy, None).
Proof.
  cbn zeta.
  split; [split; reflexivity|]. split; [reflexivity|]. split.
  - apply (C8_refused_submission_is_a_no_op
             (set_userInput_value (lit "   ") initial)).
    left. split; reflexivity.
  - apply (C8_refused_submission_is_a_no_op
             (set_userInput_value (lit "again")
                (fst (sendMessage (set_userInput_value (lit "hi") initial))))).
    right. reflexivity.
Defined.

(** C9.  The user message pushed to the history holds the trimmed input
    text only, while the element shown for the turn holds that text with
    the annotation [[Image attached]] when a file is attached: with an
    attachment the two always differ, and with an attachment and no text
    the history content is the empty string. *)
Theorem C9_history_has_text_without_annotation (w : World) :
  isProcessing w = false ->
  nonempty_submission w ->
  chatHistory (fst (sendMessage w))
    = chatHistory w ++ [mkMessage user (trim (userInput_value w))] /\
  nth_error (chatMessages (fst (sendMessage w))) (length (chatMessages w))
    = Some (mkElement (lit "message user-message")
              (lit "<p>" ++ shown_user_text w ++ lit "</p>") None) /\
  (imageInput_files w = [] -> shown_user_text w = trim (userInput_value w)) /\
  (imageInput_files w <> [] -> shown_user_text w <> trim (userInput_value w)) /\
  (imageInput_files w <> [] -> trim (userInput_value w) = [] ->
   last (chatHistory (fst (sendMessage w))) (mkMessage system [])
     = mkMessage user [] /\
   shown_user_text w = lit "[Image attached]").
Proof.
  intros I N.
  destruct (sendMessage_accepted w I N) as (w1 & E & H & M & _).
  rewrite E. cbn [fst].
  repeat match goal with |- _ /\ _ => split end.
  - exact H.
  - rewrite M, nth_error_app2, Nat.sub_diag by lia. reflexivity.
  - unfold shown_user_text. now intros ->.
  - unfold shown_user_text. intros F.
    destruct (imageInput_files w); [contradiction|].
    destruct (trim (userInput_value w)) as [|x m]; [discriminate|].
    intros A. apply (f_equal (@length _)) in A.
    rewrite length_app in A. cbn in A. lia.
  - rewrite H. unfold shown_user_text. intros F ->. split; [apply last_last|].
    destruct (imageInput_files w); [contradiction|reflexivity].
Qed.

Lemma C9_witness :
  let w := set_imageInput_files [[x89; x50; x4e; x47]] initial in
  isProcessing w = false /\
  nonempty_submission w /\
  chatHistory (fst (sendMessage w)) = chatHistory w ++ [mkMessage user []] /\
  nth_error (chatMessages (fst (sendMessage w))) 1
    = Some (mkElement (lit "message user-message")
              (lit "<p>[Image attached]</p>") None).
Proof.
  cbn zeta.
  assert (N : nonempty_submission
                (set_imageInput_files [[x89; x50; x4e; x47]] initial))
    by (right; discriminate).
  destruct (C9_history_has_text_without_annotation
              (set_imageInput_files [[x89; x50; x4e; x47]] initial) eq_refl N)
    as (H & D & _).
  split; [reflexivity|]. split; [exact N|]. split; [exact H|exact D].
Defined.


(* ================================================================== *)
(** * More facts: the form and the requests *)
(* ================================================================== *)

Lemma unlocked_finally (w : World) : unlocked (finally_block w).
Proof. destruct w; repeat split. Qed.

Lemma input_finally (w : World) :
  userInput_value (finally_block w) = userInput_value w /\
  imageInput_files (finally_block w) = imageInput_files w /\
  fetched (finally_block w) = fetched w /\
  console (finally_block w) = console w /\
  textContent_writes (finally_block w) = textContent_writes w.
Proof. destruct w; repeat split. Qed.

Lemma input_catch (e : Exception) (w : World) :
  userInput_value (catch_block e w) = userInput_value w /\
  imageInput_files (catch_block e w) = imageInput_files w /\
  fetched (catch_block e w) = fetched w /\
  console (catch_block e w) = console w ++ [error e] /\
  textContent_writes (catch_block e w) = textContent_writes w.
Proof. destruct w; repeat split. Qed.

Lemma input_set_chatHistory (h : list Message) (w : World) :
  userInput_value (set_chatHistory h w) = userInput_value w /\
  imageInput_files (set_chatHistory h w) = imageInput_files w /\
  fetched (set_chatHistory h w) = fetched w /\
  console (set_chatHistory h w) = console w /\
  textContent_writes (set_chatHistory h w) = textContent_writes w.
Proof. destruct w; repeat split. Qed.

Lemma locked_same_session (w w' : World) :
  same_session w w' -> locked w -> locked w'.
Proof.
  unfold same_session, locked. intros S L.
  repeat match goal with H : _ /\ _ |- _ => destruct H end.
  repeat split; congruence.
Qed.

(** The form when an accepted call of [sendMessage] awaits [fetch]. *)
Lemma sendMessage_form (w : World) :
  isProcessing w = false ->
  nonempty_submission w ->
  locked (fst (sendMessage w)) /\
  userInput_value (fst (sendMessage w)) = [] /\
  imageInput_files (fst (sendMessage w)) = [] /\
  console (fst (sendMessage w)) = console w.
Proof.
  intros I N. unfold sendMessage. rewrite (guard_passes w I N).
  destruct w; repeat split.
Qed.

(** What an exchange leaves of the fields that only [sendMessage]'s
    first part, the [catch] and the [finally] touch. *)
Lemma exchange_rest (r : FetchResult) (w : World) :
  isProcessing w = false ->
  nonempty_submission w ->
  unlocked (exchange r w) /\
  userInput_value (exchange r w) = [] /\
  imageInput_files (exchange r w) = [] /\
  fetched (exchange r w) = fetched (fst (sendMessage w)).
Proof.
  intros I N. rewrite (exchange_accepted r w I N).
  destruct (sendMessage_form w I N) as (_ & V & F & _).
  assert (K : forall e,
             unlocked (finally_block (catch_block e (fst (sendMessage w)))) /\
             userInput_value (finally_block (catch_block e (fst (sendMessage w)))) = [] /\
             imageInput_files (finally_block (catch_block e (fst (sendMessage w)))) = [] /\
             fetched (finally_block (catch_block e (fst (sendMessage w))))
             = fetched (fst (sendMessage w))).
  { intros e.
    destruct (input_finally (catch_block e (fst (sendMessage w))))
      as (-> & -> & -> & _).
    destruct (input_catch e (fst (sendMessage w))) as (-> & -> & -> & _).
    repeat split; try assumption; apply unlocked_finally. }
  destruct r as [e|response]; [apply K|].
  destruct (ok response); [|apply K].
  destruct (stream response) as [[chunks ending]|]; [|apply K].
  rewrite read_all_eq.
  set (k := mkReading (S (length (chatMessages w))) TextDecoder.new []).
  destruct (chunks_loop chunks k (fst (sendMessage w)))
    as (_ & _ & _ & _ & S).
  destruct S as (_ & _ & Sv & _ & _ & _ & Sf & _ & Sq).
  destruct ending as [e|].
  - destruct (input_finally (catch_block e (snd (read_chunks k chunks (fst (sendMessage w))))))
      as (-> & -> & -> & _).
    destruct (input_catch e (snd (read_chunks k chunks (fst (sendMessage w)))))
      as (-> & -> & -> & _).
    rewrite Sv, Sf, Sq. repeat split; try assumption; apply unlocked_finally.
  - match goal with |- context [finally_block ?x] =>
      destruct (input_finally x) as (-> & -> & -> & _) end.
    match goal with |- context [set_chatHistory ?h ?x] =>
      destruct (input_set_chatHistory h x) as (-> & -> & -> & _) end.
    rewrite Sv, Sf, Sq. repeat split; try assumption; apply unlocked_finally.
Qed.

Lemma unlocked_typing (text : JsString) (files : list File) (w : World) :
  unlocked w ->
  unlocked (set_imageInput_files files (set_userInput_value text w)).
Proof. destruct w; exact (fun H => H). Qed.

Lemma unlocked_exchange (r : FetchResult) (w : World) :
  unlocked w -> unlocked (exchange r w).
Proof.
  intros U. destruct (submission_cases w) as [E|N].
  - unfold exchange. now rewrite (sendMessage_refused w (or_introl E)).
  - destruct U as (I & _). now apply exchange_rest.
Qed.

Lemma unlocked_session (l : list Submission) :
  forall w, unlocked w -> unlocked (fold_left submit l w).
Proof.
  induction l as [|s l IH]; intros w U; cbn [fold_left]; [exact U|].
  apply IH. unfold submit. apply unlocked_exchange, unlocked_typing, U.
Qed.

(** The form is locked from the moment an accepted call of [sendMessage]
    awaits [fetch] and through every chunk it reads, and it is unlocked
    again, with the text box and the file input emptied, when the call
    ends, however it ends; after any sequence of submissions the form is
    at rest. *)
Theorem form_locked_while_in_flight :
  (forall l, unlocked (session l)) /\
  (forall r w,
     isProcessing w = false ->
     nonempty_submission w ->
     locked (fst (sendMessage w)) /\
     (forall el chunks,
        locked (snd (read_chunks (mkReading el TextDecoder.new []) chunks
                       (fst (sendMessage w))))) /\
     unlocked (exchange r w) /\
     userInput_value (exchange r w) = [] /\
     imageInput_files (exchange r w) = []).
Proof.
  split.
  - intros l. apply unlocked_session. repeat split.
  - intros r w I N.
    destruct (sendMessage_form w I N) as (L & _).
    destruct (exchange_rest r w I N) as (U & V & F & _).
    split; [exact L|]. split; [|split; [exact U|split; [exact V|exact F]]].
    intros el chunks.
    destruct (chunks_loop chunks (mkReading el TextDecoder.new [])
                (fst (sendMessage w))) as (_ & _ & _ & _ & S).
    apply (locked_same_session _ _ S L).
Qed.

Lemma form_locked_while_in_flight_witness :
  let w := set_imageInput_files [[x89; x50]]
             (set_userInput_value (lit "hi") initial) in
  isProcessing w = false /\
  nonempty_submission w /\
  locked (fst (sendMessage w)) /\
  imageInput_files (exchange (Rejected TypeError) w) = [].
Proof.
  cbn zeta.
  assert (N : nonempty_submission
                (set_imageInput_files [[x89; x50]]
                   (set_userInput_value (lit "hi") initial)))
    by (left; discriminate).
  destruct (proj2 form_locked_while_in_flight (Rejected TypeError)
              (set_imageInput_files [[x89; x50]]
                 (set_userInput_value (lit "hi") initial)) eq_refl N)
    as (L & _ & _ & _ & F).
  split; [reflexivity|]. split; [exact N|]. split; [exact L|exact F].
Defined.

Lemma typing_fields (text : JsString) (files : list File) (w : World) :
  userInput_value (set_imageInput_files files (set_userInput_value text w)) = text /\
  imageInput_files (set_imageInput_files files (set_userInput_value text w)) = files /\
  chatHistory (set_imageInput_files files (set_userInput_value text w))
  = chatHistory w /\
  fetched (set_imageInput_files files (set_userInput_value text w)) = fetched w /\
  chatMessages (set_imageInput_files files (set_userInput_value text w))
  = chatMessages w.
Proof. destruct w; repeat split. Qed.

Lemma session_snoc (l : list Submission) (s : Submission) :
  session (l ++ [s])
  = exchange (answer s)
      (set_imageInput_files (picked s) (set_userInput_value (typed s) (session l))).
Proof. unfold session. now rewrite fold_left_app. Qed.

Lemma isProcessing_session (l : list Submission) :
  isProcessing (session l) = false.
Proof. apply isProcessing_fold. reflexivity. Qed.

(** The guard, read off the submission. *)
Lemma submits_cases (s : Submission) (w : World) :
  let w' := set_imageInput_files (picked s) (set_userInput_value (typed s) w) in
  if submits s then nonempty_submission w'
  else trim (userInput_value w') = [] /\ imageInput_files w' = [].
Proof.
  cbn zeta. unfold submits, nonempty_submission.
  destruct (typing_fields (typed s) (picked s) w) as (-> & -> & _).
  destruct (JsStr.eqb (trim (typed s)) []) eqn:E; cbn.
  - apply eqb_nil_true in E. destruct (picked s); cbn.
    + now split.
    + right; discriminate.
  - apply eqb_nil_false in E. now left.
Qed.

(** The requests after one more submission. *)
Lemma fetched_snoc (l : list Submission) (s : Submission) :
  fetched (session (l ++ [s]))
  = fetched (session l)
    ++ (if submits s then [request_of (chatHistory (session l)) s] else []).
Proof.
  rewrite session_snoc.
  set (w := set_imageInput_files (picked s)
              (set_userInput_value (typed s) (session l))).
  assert (I : isProcessing w = false)
    by (unfold w; rewrite isProcessing_typing; apply isProcessing_session).
  pose proof (submits_cases s (session l)) as C. cbn zeta in C. fold w in C.
  destruct (typing_fields (typed s) (picked s) (session l))
    as (V & F & H & Q & _). fold w in V, F, H, Q.
  destruct (submits s).
  - destruct (exchange_rest (answer s) w I C) as (_ & _ & _ & ->).
    destruct (sendMessage_accepted w I C) as (w1 & E & H1 & _ & _ & _ & Q1).
    rewrite E. cbn [fst]. rewrite Q1, H1, Q, H, V, F. reflexivity.
  - unfold exchange. rewrite (sendMessage_refused w (or_introl C)).
    now rewrite Q, app_nil_r.
Qed.

(** Each submission sends one request when it has text or a file and
    none otherwise, whatever the network answers.  The request carries
    the whole history, the new user message last; it is form data with
    the first file picked when a file is attached, JSON otherwise.  So a
    session has sent as many requests as it had such submissions. *)
Theorem one_request_per_submission :
  (forall l s,
     fetched (session (l ++ [s]))
     = fetched (session l)
       ++ (if submits s then [request_of (chatHistory (session l)) s] else [])) /\
  (forall l, length (fetched (session l)) = length (filter submits l)).
Proof.
  split; [exact fetched_snoc|].
  intros l. induction l as [|s l IH] using rev_ind; [reflexivity|].
  rewrite fetched_snoc, filter_app, !length_app, IH. cbn [filter].
  now destruct (submits s).
Qed.

(** A turn that failed stays in the history and goes out again: the
    request of the next submission carries the unanswered user message
    before the new one. *)
Theorem failed_turn_is_sent_again (l : list Submission) (s1 s2 : Submission) :
  submits s1 = true ->
  streamed_to_end (answer s1) = None ->
  submits s2 = true ->
  fetched (session (l ++ [s1; s2]))
  = fetched (session l)
    ++ [request_of (chatHistory (session l)) s1;
        request_of (chatHistory (session l)
                    ++ [mkMessage user (trim (typed s1))]) s2].
Proof.
  intros A1 F1 A2.
  replace (l ++ [s1; s2]) with ((l ++ [s1]) ++ [s2])
    by (now rewrite <- app_assoc).
  rewrite fetched_snoc, A2.
  rewrite fetched_snoc, A1, <- app_assoc. cbn [app].
  do 3 f_equal.
  rewrite session_snoc.
  pose proof (submits_cases s1 (session l)) as C. cbn zeta in C.
  rewrite A1 in C.
  rewrite history_after_exchange, F1; [| |exact C].
  - destruct (typing_fields (typed s1) (picked s1) (session l))
      as (-> & _ & -> & _).
    reflexivity.
  - rewrite isProcessing_typing. apply isProcessing_session.
Qed.

Lemma failed_turn_is_sent_again_witness :
  let s1 := mkSubmission (lit "one") [] (Resolved (mkResponse 500 None)) in
  let s2 := mkSubmission (lit "two") [] (Rejected TypeError) in
  submits s1 = true /\
  streamed_to_end (answer s1) = None /\
  submits s2 = true /\
  fetched (session [s1; s2])
  = [mkRequest (lit "/api/chat") (lit "POST")
       (JsonBody [mkMessage assistant greeting; mkMessage user (lit "one")]);
     mkRequest (lit "/api/chat") (lit "POST")
       (JsonBody [mkMessage assistant greeting; mkMessage user (lit "one");
                  mkMessage user (lit "two")])].
Proof.
  cbn zeta. repeat (split; [reflexivity|]).
  apply (failed_turn_is_sent_again []
           (mkSubmission (lit "one") [] (Resolved (mkResponse 500 None)))
           (mkSubmission (lit "two") [] (Rejected TypeError)));
    reflexivity.
Defined.

(* ================================================================== *)
(** * More facts: the page *)
(* ================================================================== *)

Lemma last_default {A : Type} (l : list A) :
  forall b d d' : A, last (b :: l) d = last (b :: l) d'.
Proof.
  induction l as [|c l IH]; intros b d d'; [reflexivity|].
  change (last (c :: l) d = last (c :: l) d'). apply IH.
Qed.

Lemma last_cons {A : Type} (l : list A) (a d : A) :
  last (a :: l) d = last l a.
Proof.
  destruct l as [|b l]; [reflexivity|].
  change (last (b :: l) d = last (b :: l) a). apply last_default.
Qed.

Lemma running_last (texts : list JsString) :
  forall t d, texts <> [] -> last (running t texts) d = t ++ concat texts.
Proof.
  induction texts as [|x texts IH]; intros t d N; [contradiction|].
  cbn [running concat]. rewrite last_cons.
  destruct texts as [|y texts].
  - cbn. now rewrite app_nil_r.
  - rewrite IH by discriminate. now rewrite app_assoc.
Qed.

(** The paragraph of the exchange's element after the writes [texts]:
    the last text written, and nothing else on the page has changed. *)
Lemma writes_end_with_last (pre post : list Element) (texts : list JsString) :
  forall shown,
    fold_left (fun c text => with_p_textContent (length pre) text c) texts
      (pre ++ placeholder shown :: post)
    = pre ++ placeholder (last (map Some texts) shown) :: post.
Proof.
  induction texts as [|text texts IH]; intros shown; cbn [fold_left map].
  - reflexivity.
  - rewrite with_p_textContent_at, last_cons. apply IH.
Qed.

Lemma last_map_Some {A : Type} (l : list A) :
  forall x d : A, last (map Some (x :: l)) None = Some (last (x :: l) d).
Proof.
  induction l as [|y l IH]; intros x d; [reflexivity|].
  change (last (map Some (y :: l)) None = Some (last (y :: l) d)). apply IH.
Qed.

Lemma shown_text_last (texts : list JsString) :
  last (map Some (running [] texts)) None = shown_text texts.
Proof.
  destruct texts as [|x texts]; [reflexivity|].
  pose proof (running_last (x :: texts) [] [] ltac:(discriminate)) as R.
  transitivity (Some (last (running [] (x :: texts)) [])).
  - cbn [running]. apply (last_map_Some (running ([] ++ x) texts) ([] ++ x) []).
  - now rewrite R.
Qed.

(** The page the read loop leaves. *)
Lemma page_after_chunks (chunks : list (list byte)) (w : World) :
  isProcessing w = false ->
  nonempty_submission w ->
  chatMessages
    (snd (read_chunks (mkReading (S (length (chatMessages w))) TextDecoder.new [])
            chunks (fst (sendMessage w))))
  = chatMessages w
    ++ [user_element w;
        placeholder (shown_text (deltas (stream_lines TextDecoder.new chunks)))].
Proof.
  intros I N.
  destruct (sendMessage_accepted w I N) as (w1 & E & _ & M & _).
  rewrite E. cbn [fst].
  destruct (chunks_loop chunks
              (mkReading (S (length (chatMessages w))) TextDecoder.new []) w1)
    as (_ & _ & _ & C & _).
  rewrite C, M. cbn [assistantMessageEl responseText decoder].
  replace (S (length (chatMessages w)))
    with (length (chatMessages w ++ [user_element w]))
    by (rewrite length_app; cbn; lia).
  replace (chatMessages w ++ [user_element w; placeholder None])
    with ((chatMessages w ++ [user_element w]) ++ [placeholder None])
    by (now rewrite <- app_assoc).
  rewrite writes_end_with_last, shown_text_last, <- app_assoc. reflexivity.
Qed.

(** An accepted submission adds to the page, after everything that was
    there, the user's turn, one assistant element whose paragraph holds
    all the text appended during the exchange (nothing if none was), and
    then the fallback element exactly when the exchange failed: text
    shown before a failure stays on the page although it is not
    committed.  On success the paragraph holds the committed content,
    or is empty when the content is. *)
Theorem page_after_exchange (r : FetchResult) (w : World) :
  isProcessing w = false ->
  nonempty_submission w ->
  chatMessages (exchange r w)
  = chatMessages w
    ++ user_element w
       :: placeholder
            (shown_text (deltas (stream_lines TextDecoder.new (chunks_read r))))
       :: match streamed_to_end r with
          | Some _ => []
          | None => [fallback]
          end /\
  (forall chunks,
     streamed_to_end r = Some chunks ->
     chunks_read r = chunks /\
     last (chatHistory (exchange r w)) (mkMessage system [])
     = mkMessage assistant
         (match shown_text (deltas (stream_lines TextDecoder.new chunks)) with
          | Some text => text
          | None => []
          end)).
Proof.
  intros I N. split.
  - rewrite (exchange_accepted r w I N).
    destruct (sendMessage_accepted w I N) as (w1 & E & _ & M & _).
    assert (K : forall e,
               chatMessages (finally_block (catch_block e (fst (sendMessage w))))
               = chatMessages w ++ [user_element w; placeholder None; fallback]).
    { intros e. rewrite E. cbn [fst].
      rewrite chatMessages_finally, chatMessages_catch, M, <- app_assoc.
      reflexivity. }
    unfold streamed_to_end, chunks_read.
    destruct r as [e|response]; [apply K|].
    destruct (ok response); [|apply K].
    destruct (stream response) as [[chunks ending]|]; [|apply K].
    rewrite read_all_eq. destruct ending as [e|].
    + rewrite chatMessages_finally, chatMessages_catch,
        (page_after_chunks chunks w I N), <- app_assoc. reflexivity.
    + rewrite chatMessages_finally, chatMessages_set_chatHistory.
      apply (page_after_chunks chunks w I N).
  - intros chunks S.
    rewrite (history_after_exchange r w I N), S.
    unfold streamed_to_end, chunks_read in *.
    destruct r as [e|response]; [discriminate|].
    destruct (ok response); [|discriminate].
    destruct (stream response) as [[chunks' [e|]]|]; try discriminate.
    injection S as ->. split; [reflexivity|].
    replace (chatHistory w
             ++ mkMessage user (trim (userInput_value w))
                :: [mkMessage assistant
                      (concat (deltas (stream_lines TextDecoder.new chunks)))])
      with ((chatHistory w ++ [mkMessage user (trim (userInput_value w))])
            ++ [mkMessage assistant
                  (concat (deltas (stream_lines TextDecoder.new chunks)))])
      by (now rewrite <- app_assoc).
    rewrite last_last.
    now destruct (deltas (stream_lines TextDecoder.new chunks)).
Qed.

Lemma page_after_exchange_witness :
  let w := set_userInput_value (lit "hi") initial in
  let broken :=
    Resolved (mkResponse 200
                (Some ([Examples.text "{'response':'Hi'}" ++ [x0a]],
                       Some (Error (lit "network error"))))) in
  isProcessing w = false /\
  nonempty_submission w /\
  chatMessages (exchange broken w)
  = chatMessages w
    ++ [mkElement (lit "message user-message") (lit "<p>hi</p>") None;
        placeholder (Some (lit "Hi"));
        fallback].
Proof.
  cbn zeta.
  assert (N : nonempty_submission (set_userInput_value (lit "hi") initial))
    by (left; discriminate).
  split; [reflexivity|]. split; [exact N|].
  apply (page_after_exchange
           (Resolved (mkResponse 200
                        (Some ([Examples.text "{'response':'Hi'}" ++ [x0a]],
                               Some (Error (lit "network error"))))))
           (set_userInput_value (lit "hi") initial) eq_refl N).
Defined.

(* ================================================================== *)
(** * More facts: the history *)
(* ================================================================== *)

Lemma turns_app (l more : list Message) :
  forall asked,
    turns asked l = true ->
    (more = [] \/
     (exists m, more = [mkMessage user m]) \/
     (exists m c, more = [mkMessage user m; mkMessage assistant c])) ->
    turns asked (l ++ more) = true.
Proof.
  induction l as [|x l IH]; intros asked T M.
  - destruct M as [->|[[m ->]|(m & c & ->)]]; reflexivity.
  - cbn [app turns] in *. destruct (role x).
    + discriminate.
    + now apply IH.
    + apply andb_prop in T. destruct T as [-> T]. cbn. now apply IH.
Qed.

(** What one submission adds to the history. *)
Lemma history_snoc (l : list Submission) (s : Submission) :
  exists more,
    chatHistory (session (l ++ [s])) = chatHistory (session l) ++ more /\
    (more = [] \/
     (exists m, more = [mkMessage user m]) \/
     (exists m c, more = [mkMessage user m; mkMessage assistant c])).
Proof.
  rewrite session_snoc.
  set (w := set_imageInput_files (picked s)
              (set_userInput_value (typed s) (session l))).
  assert (I : isProcessing w = false)
    by (unfold w; rewrite isProcessing_typing; apply isProcessing_session).
  assert (H : chatHistory w = chatHistory (session l))
    by (unfold w; now destruct (session l)).
  pose proof (submits_cases s (session l)) as C. cbn zeta in C. fold w in C.
  destruct (submits s).
  - rewrite (history_after_exchange (answer s) w I C), H.
    eexists. split; [reflexivity|]. right.
    destruct (streamed_to_end (answer s)); [right|left]; eauto.
  - exists []. unfold exchange.
    rewrite (sendMessage_refused w (or_introl C)), H, app_nil_r. now split; [|left].
Qed.

(** The history is never cut or rewritten: whatever follows, it stays a
    prefix of the later history.  It begins with the greeting, and after
    it come user messages, each followed by at most one assistant
    message; no message has the system role. *)
Theorem history_only_grows :
  (forall l l', exists more,
     chatHistory (session (l ++ l')) = chatHistory (session l) ++ more) /\
  (forall l, exists rest,
     chatHistory (session l) = mkMessage assistant greeting :: rest /\
     turns false rest = true /\
     Forall (fun m => role m <> system) (chatHistory (session l))).
Proof.
  split.
  - intros l l'. induction l' as [|s l' IH] using rev_ind.
    + exists []. now rewrite !app_nil_r.
    + destruct IH as [more IH].
      destruct (history_snoc (l ++ l') s) as (more' & E & _).
      exists (more ++ more'). now rewrite app_assoc, E, IH, <- app_assoc.
  - intros l. induction l as [|s l IH] using rev_ind.
    + exists []. repeat split. repeat constructor. discriminate.
    + destruct IH as (rest & E & T & F).
      destruct (history_snoc l s) as (more & E' & M).
      exists (rest ++ more). rewrite E'. split; [now rewrite E|].
      split; [now apply turns_app|].
      apply Forall_app. split; [exact F|].
      destruct M as [->|[[m ->]|(m & c & ->)]];
        repeat constructor; discriminate.
Qed.

(* ================================================================== *)
(** * More facts: the console *)
(* ================================================================== *)

Lemma console_set_p (el : nat) (text : JsString) (w : World) :
  console (set_p_textContent el text w) = console w.
Proof. now destruct w. Qed.

Lemma console_warn_eq (e : Exception) (line : JsString) (w : World) :
  console (console_warn e line w) = console w ++ [warn e line].
Proof. now destruct w. Qed.

Lemma warnings_app (l1 l2 : list JsString) :
  warnings (l1 ++ l2) = warnings l1 ++ warnings l2.
Proof.
  induction l1 as [|line l1 IH]; cbn; [reflexivity|].
  destruct (line_error line); cbn; now rewrite IH.
Qed.

Lemma stream_lines_cons_eq (d : TextDecoder.t) (c : list byte)
  (rest : list (list byte)) :
  stream_lines d (c :: rest)
  = split LF (snd (TextDecoder.decode d c))
    ++ stream_lines (fst (TextDecoder.decode d c)) rest.
Proof. exact (ChunkingFacts.stream_lines_cons d c rest). Qed.

(** What one line logs. *)
Lemma process_line_console (el : nat) (t : JsString) (w : World)
  (line : JsString) :
  console (snd (process_line el (t, w) line))
  = console w ++ match line_error line with
                 | Some e => [warn e line]
                 | None => []
                 end.
Proof.
  unfold process_line, line_body, JSON_parse, line_error.
  destruct (JSON.parse line) as [v|]; [|apply console_warn_eq].
  destruct v as [ | b | x | s | items | props]; cbn [bind GetV_response snd fst];
    try (now rewrite app_nil_r); try apply console_warn_eq.
  unfold bind, GetV_response.
  destruct (Get props (lit "response")) as [r|];
    [|cbn; now rewrite app_nil_r].
  destruct (ToBoolean (Some r)); [|cbn; now rewrite app_nil_r].
  destruct (ToString r); cbn [snd fst].
  - now rewrite console_set_p, app_nil_r.
  - apply console_warn_eq.
Qed.

Lemma lines_console (el : nat) (lines : list JsString) :
  forall t w,
    console (snd (fold_left (process_line el) lines (t, w)))
    = console w ++ warnings lines.
Proof.
  induction lines as [|line lines IH]; intros t w; cbn [fold_left warnings].
  - now rewrite app_nil_r.
  - destruct (process_line el (t, w) line) as [t' w'] eqn:E.
    rewrite IH.
    pose proof (process_line_console el t w line) as C. rewrite E in C.
    cbn [snd] in C. rewrite C.
    destruct (line_error line); now rewrite <- app_assoc.
Qed.

(** The read loop logs one warning for each candidate line that is not
    JSON, is [null], or has a truthy [response] that does not convert to
    text, in receive order and with the line itself, and nothing else;
    such a line never adds text. *)
Theorem console_logs_each_discarded_line
  (k : Reading) (chunks : list (list byte)) (w : World) :
  console (snd (read_chunks k chunks w))
  = console w ++ warnings (stream_lines (decoder k) chunks) /\
  (forall line e, line_error line = Some e -> delta line = None) /\
  (forall line, JSON.parse line = Some JNull ->
                line_error line = Some TypeError).
Proof.
  split; [|split].
  - revert k w. induction chunks as [|value chunks IH]; intros k w.
    + cbn. now rewrite app_nil_r.
    + cbn [read_chunks]. rewrite on_read_chunk, stream_lines_cons_eq.
      rewrite IH. cbn [decoder].
      rewrite lines_console, warnings_app, <- app_assoc. reflexivity.
  - intros line e. unfold line_error, delta.
    destruct (JSON.parse line) as [[ | b | x | s | items | props]|];
      try reflexivity; try discriminate.
    destruct (Get props (lit "response")) as [r|]; [|discriminate].
    destruct (ToBoolean (Some r)); [|discriminate].
    now destruct (ToString r).
  - intros line P. unfold line_error. now rewrite P.
Qed.

Lemma console_logs_each_discarded_line_witness :
  JSON.parse (lit "null") = Some JNull /\
  line_error (lit "null") = Some TypeError /\
  delta (lit "null") = None.
Proof.
  destruct (console_logs_each_discarded_line
              (mkReading 0 TextDecoder.new []) [] initial) as (_ & D & T).
  split; [reflexivity|].
  split; [apply T; reflexivity|].
  apply (D (lit "null") TypeError). apply T. reflexivity.
Defined.

(* ================================================================== *)
(** * More facts: decoding and splitting *)
(* ================================================================== *)

Lemma decoder_after_chunks (chunks : list (list byte)) :
  forall k w,
    decoder (fst (read_chunks k chunks w))
    = fst (TextDecoder.decode (decoder k) (concat chunks)).
Proof.
  induction chunks as [|value chunks IH]; intros k w.
  - reflexivity.
  - cbn [read_chunks concat]. rewrite on_read_chunk, IH.
    cbn [decoder]. now rewrite ChunkingFacts.decode_app.
Qed.

Lemma decoded_concat (chunks : list (list byte)) :
  forall d, decoded d chunks = snd (TextDecoder.decode d (concat chunks)).
Proof.
  induction chunks as [|value chunks IH]; intros d.
  - reflexivity.
  - cbn [decoded concat]. rewrite ChunkingFacts.decode_app. cbn [snd].
    destruct (TextDecoder.decode d value) as [d' chunk]. cbn [fst snd].
    now rewrite IH.
Qed.

(** Decoding is independent of the chunking: the texts decoded from the
    chunks, put together, are the text decoded from all the bytes at
    once, and the decoder the loop carries after the chunks is the
    decoder after all the bytes; a character whose bytes are split over
    two chunks is decoded as if they were not. *)
Theorem decoding_ignores_chunk_boundaries
  (k : Reading) (chunks : list (list byte)) (w : World) :
  decoded (decoder k) chunks
  = snd (TextDecoder.decode (decoder k) (concat chunks)) /\
  decoder (fst (read_chunks k chunks w))
  = fst (TextDecoder.decode (decoder k) (concat chunks)) /\
  (forall chunks',
     concat chunks' = concat chunks ->
     decoded (decoder k) chunks' = decoded (decoder k) chunks).
Proof.
  split; [apply decoded_concat|]. split; [apply decoder_after_chunks|].
  intros chunks' E. now rewrite !decoded_concat, E.
Qed.

(** The two bytes of U+00E9 in two chunks. *)
Lemma decoding_ignores_chunk_boundaries_witness :
  concat [[x68; xc3]; [xa9]] = concat [[x68; xc3; xa9]] /\
  decoded TextDecoder.new [[x68; xc3]; [xa9]] = [104%N; 233%N].
Proof.
  split; [reflexivity|].
  destruct (decoding_ignores_chunk_boundaries
              (mkReading 0 TextDecoder.new []) [[x68; xc3; xa9]] initial)
    as (_ & _ & H).
  apply (H [[x68; xc3]; [xa9]]). reflexivity.
Defined.

Lemma join_cons_line (c : code_unit) (l : JsString) (ls : list JsString) :
  join LF ((c :: l) :: ls) = c :: join LF (l :: ls).
Proof. destruct ls; reflexivity. Qed.

(** Splitting a chunk into lines loses nothing and leaves no line feed
    inside a line: the lines joined by line feeds are the chunk, no line
    holds a line feed, and there is one line more than there are line
    feeds. *)
Theorem split_then_join (s : JsString) :
  join LF (split LF s) = s /\
  Forall (fun line => ~ In LF line) (split LF s) /\
  length (split LF s) = S (count_occ N.eq_dec s LF).
Proof.
  induction s as [|c s (J & F & L)].
  - repeat split. repeat constructor. intros [].
  - cbn [split count_occ].
    destruct (N.eqb c LF) eqn:E.
    + apply N.eqb_eq in E. subst c.
      destruct (N.eq_dec LF LF) as [_|X]; [|contradiction].
      split; [|split].
      * destruct (split LF s) as [|l ls] eqn:S;
          [now apply ChunkingFacts.split_nonempty in S|].
        change (join LF ([] :: l :: ls)) with (LF :: join LF (l :: ls)).
        now rewrite J.
      * constructor; [intros []|exact F].
      * cbn [length]. now rewrite L.
    + apply N.eqb_neq in E.
      destruct (N.eq_dec c LF) as [X|_]; [contradiction|].
      destruct (split LF s) as [|l ls] eqn:S;
        [now apply ChunkingFacts.split_nonempty in S|].
      split; [|split].
      * now rewrite join_cons_line, J.
      * inversion F as [|? ? Fl Fls]; subst. constructor; [|exact Fls].
        intros [X|X]; [now apply E|now apply Fl].
      * exact L.
Qed.

(* ================================================================== *)
(** * More facts: trimming and the listeners *)
(* ================================================================== *)

Lemma trimStart_head (s : JsString) (c : code_unit) (r : JsString) :
  trimStart s = c :: r -> is_trim_space c = false.
Proof.
  induction s as [|a s IH]; cbn; [discriminate|].
  destruct (is_trim_space a) eqn:E; [exact IH|].
  intros H. injection H as <- _. exact E.
Qed.

Lemma trimStart_split (s : JsString) :
  exists ws, s = ws ++ trimStart s /\
             Forall (fun c => is_trim_space c = true) ws.
Proof.
  induction s as [|a s (ws & E & F)]; cbn.
  - exists []. now split.
  - destruct (is_trim_space a) eqn:A.
    + exists (a :: ws). split; [cbn; now rewrite <- E|now constructor].
    + exists []. now split.
Qed.

Lemma trimStart_fixed (s : JsString) :
  match s with [] => True | c :: _ => is_trim_space c = false end ->
  trimStart s = s.
Proof. destruct s as [|c s]; cbn; [reflexivity|]. now intros ->. Qed.

(** [trim] takes white space, and nothing else, off both ends. *)
Lemma trim_split (s : JsString) :
  exists before after,
    s = before ++ trim s ++ after /\
    Forall (fun c => is_trim_space c = true) before /\
    Forall (fun c => is_trim_space c = true) after.
Proof.
  unfold trim.
  destruct (trimStart_split s) as (before & E1 & F1).
  destruct (trimStart_split (rev (trimStart s))) as (ws & E2 & F2).
  exists before, (rev ws). split; [|split; [exact F1|now apply Forall_rev]].
  rewrite <- rev_app_distr, <- E2, rev_involutive. exact E1.
Qed.

(** What [trim] returns has no white space at either end. *)
Lemma trim_ends (s : JsString) :
  match trim s with
  | [] => True
  | c :: r => is_trim_space c = false /\ is_trim_space (last r c) = false
  end.
Proof.
  unfold trim.
  destruct (trimStart (rev (trimStart s))) as [|y Y] eqn:E;
    [exact I|].
  pose proof (trimStart_head _ _ _ E) as Hy.
  destruct (trimStart_split (rev (trimStart s))) as (ws & E2 & _).
  rewrite E in E2.
  apply (f_equal (@rev code_unit)) in E2.
  rewrite rev_involutive, rev_app_distr in E2.
  destruct (rev (y :: Y)) as [|c r] eqn:R.
  - apply (f_equal (@length code_unit)) in R. rewrite length_rev in R.
    discriminate.
  - split.
    + cbn [app] in E2. apply (trimStart_head s c (r ++ rev ws)). exact E2.
    + assert (L : last (c :: r) c = y).
      { rewrite <- R. cbn [rev]. apply last_last. }
      rewrite last_cons in L. now rewrite L.
Qed.

Lemma trim_fixed (s : JsString) :
  match s with
  | [] => True
  | c :: r => is_trim_space c = false /\ is_trim_space (last r c) = false
  end ->
  trim s = s.
Proof.
  destruct s as [|c r]; [reflexivity|]. intros [H1 H2].
  unfold trim. rewrite (trimStart_fixed (c :: r)) by exact H1.
  rewrite trimStart_fixed; [apply rev_involutive|].
  destruct (rev (c :: r)) as [|y Y] eqn:R; [exact I|].
  assert (L : last (c :: r) c = y).
  { apply (f_equal (@rev code_unit)) in R. rewrite rev_involutive in R.
    rewrite R. cbn [rev]. apply last_last. }
  rewrite last_cons in L. now rewrite <- L.
Qed.

(** The text of the user message an accepted submission records is the
    typed text without the white space at its two ends, and nothing else
    is removed: it has no white space at either end, and trimming it
    again changes nothing. *)
Theorem recorded_text_is_trimmed (w : World) :
  isProcessing w = false ->
  nonempty_submission w ->
  exists c before after,
    chatHistory (fst (sendMessage w)) = chatHistory w ++ [mkMessage user c] /\
    userInput_value w = before ++ c ++ after /\
    Forall (fun u => is_trim_space u = true) before /\
    Forall (fun u => is_trim_space u = true) after /\
    match c with
    | [] => True
    | a :: r => is_trim_space a = false /\ is_trim_space (last r a) = false
    end /\
    trim c = c.
Proof.
  intros I N.
  destruct (sendMessage_accepted w I N) as (w1 & E & H & _).
  destruct (trim_split (userInput_value w)) as (before & after & S & B & A).
  exists (trim (userInput_value w)), before, after.
  rewrite E. cbn [fst].
  repeat match goal with |- _ /\ _ => split end; try assumption.
  - apply trim_ends.
  - apply trim_fixed, trim_ends.
Qed.

Lemma recorded_text_is_trimmed_witness :
  let w := set_userInput_value ([9%N; 32%N] ++ lit "a b" ++ [160%N; LF]) initial in
  isProcessing w = false /\
  nonempty_submission w /\
  exists c before after,
    chatHistory (fst (sendMessage w)) = chatHistory w ++ [mkMessage user c] /\
    userInput_value w = before ++ c ++ after /\
    Forall (fun u => is_trim_space u = true) before /\
    Forall (fun u => is_trim_space u = true) after /\
    match c with
    | [] => True
    | a :: r => is_trim_space a = false /\ is_trim_space (last r a) = false
    end /\
    trim c = c.
Proof.
  cbn zeta.
  assert (N : nonempty_submission
                (set_userInput_value ([9%N; 32%N] ++ lit "a b" ++ [160%N; LF])
                   initial))
    by (left; discriminate).
  split; [reflexivity|]. split; [exact N|].
  apply (recorded_text_is_trimmed
           (set_userInput_value ([9%N; 32%N] ++ lit "a b" ++ [160%N; LF]) initial)
           eq_refl N).
Defined.

(** The [keydown] listener sends on Enter without Shift only: with Shift
    held or another key it neither sends nor prevents the default action,
    so Shift+Enter inserts a line break; Enter without Shift does what
    submitting the form does, and while an exchange is in flight it is
    swallowed: the default is prevented and nothing is sent. *)
Theorem keydown_sends_on_plain_enter (e : KeyboardEvent) (w : World) :
  (shiftKey e = true \/ key e <> lit "Enter" ->
   on_keydown e w = (false, (w, None))) /\
  (key e = lit "Enter" -> shiftKey e = false ->
   on_keydown e w = on_submit w /\
   (isProcessing w = true -> on_keydown e w = (true, (w, None)))).
Proof.
  unfold on_keydown, on_submit. split.
  - intros [S|K].
    + rewrite S. now rewrite andb_false_r.
    + unfold JsStr.eqb. destruct (JsStr.eq_dec (key e) (lit "Enter"));
        [contradiction|reflexivity].
  - intros K S. rewrite K, S. split; [reflexivity|].
    intros I. change (JsStr.eqb (lit "Enter") (lit "Enter")) with true.
    cbn [andb negb]. now rewrite (sendMessage_refused w (or_intror I)).
Qed.

Lemma keydown_sends_on_plain_enter_witness :
  on_keydown (mkKeyboardEvent (lit "Enter") true)
    (set_userInput_value (lit "hi") initial)
  = (false, (set_userInput_value (lit "hi") initial, None)) /\
  on_keydown (mkKeyboardEvent (lit "Enter") false)
    (set_userInput_value (lit "hi") initial)
  = on_submit (set_userInput_value (lit "hi") initial).
Proof.
  split.
  - apply (proj1 (keydown_sends_on_plain_enter
                    (mkKeyboardEvent (lit "Enter") true)
                    (set_userInput_value (lit "hi") initial))).
    left. reflexivity.
  - apply (proj2 (keydown_sends_on_plain_enter
                    (mkKeyboardEvent (lit "Enter") false)
                    (set_userInput_value (lit "hi") initial)));
      reflexivity.
Defined.

(* ================================================================== *)
(** * More facts: the worker *)
(* ================================================================== *)

Module WorkerFacts.

Import Worker WorkerSpec.

Lemma eqb_eq (a b : JsString) : JsStr.eqb a b = true <-> a = b.
Proof. unfold JsStr.eqb. destruct (JsStr.eq_dec a b); split; congruence. Qed.

Lemma eqb_neq (a b : JsString) : JsStr.eqb a b = false <-> a <> b.
Proof. unfold JsStr.eqb. destruct (JsStr.eq_dec a b); split; congruence. Qed.

Lemma includes_nil (p : JsString) : includes [] p = true -> p = [].
Proof.
  cbn. unfold startsWith. destruct p; [reflexivity|]. cbn. discriminate.
Qed.

(** The content type as [prepare] tests it. *)
Lemma prepare_eq (request : Request) :
  prepare request =
    (read <- received request ;;
     match fst read with
     | JArray items =>
         found <- some is_system items ;;
         Normal ((if found then items else system_message :: items)
                 ++ image_part (snd read))
     | _ => Throw TypeError
     end).
Proof.
  unfold prepare, received, is_form.
  assert (E : includes
                match content_type request with
                | Some v => if negb (JsStr.eqb v []) then v else []
                | None => []
                end (lit "multipart/form-data")
              = match content_type request with
                | Some v => includes v (lit "multipart/form-data")
                | None => false
                end).
  { destruct (content_type request) as [v|]; [|reflexivity].
    destruct (JsStr.eqb v []) eqn:V; [|reflexivity].
    apply eqb_eq in V. now subst v. }
  rewrite E.
  destruct (if match content_type request with
               | Some v => includes v (lit "multipart/form-data")
               | None => false
               end then read_form request else read_json request)
    as [[messages image]|e]; [|reflexivity].
  cbn [bind fst snd]. destruct messages; try reflexivity.
  destruct (some is_system items) as [found|e]; [|reflexivity].
  cbn [bind]. unfold image_part.
  destruct image as [[|c r]|]; cbn [negb];
    try (now rewrite app_nil_r).
  assert (N : JsStr.eqb (c :: r) [] = false) by (apply eqb_neq; discriminate).
  now rewrite N.
Qed.

Lemma some_app_true (f : JsValue -> completion bool) (a b : list JsValue) :
  some f a = Normal true -> some f (a ++ b) = Normal true.
Proof.
  induction a as [|x a IH]; cbn; [discriminate|].
  destruct (f x) as [[|]|e]; cbn; try discriminate; auto.
Qed.

Lemma some_app_false (f : JsValue -> completion bool) (a b : list JsValue) :
  some f a = Normal false -> some f (a ++ b) = some f b.
Proof.
  induction a as [|x a IH]; cbn; [reflexivity|].
  destruct (f x) as [[|]|e]; cbn; try discriminate; auto.
Qed.

Lemma is_system_system_message : is_system system_message = Normal true.
Proof. reflexivity. Qed.

(** The messages [prepare] returns. *)
Lemma prepare_shape (request : Request) (messages : list JsValue) :
  prepare request = Normal messages ->
  exists client image found,
    received request = Normal (JArray client, image) /\
    some is_system client = Normal found /\
    messages = (if found then [] else [system_message])
               ++ client ++ image_part image /\
    some is_system messages = Normal true.
Proof.
  rewrite prepare_eq.
  destruct (received request) as [[m image]|e]; [|discriminate].
  cbn [bind fst snd]. destruct m as [ | | | | client| ]; try discriminate.
  destruct (some is_system client) as [found|e] eqn:S; [|discriminate].
  cbn [bind]. intros H. injection H as <-.
  exists client, image, found.
  split; [reflexivity|]. split; [exact S|]. split.
  - now destruct found.
  - destruct found.
    + now apply some_app_true.
    + cbn [app some]. now rewrite is_system_system_message.
Qed.

End WorkerFacts.

Module WorkerProps.

Import Worker WorkerSpec WorkerFacts.

(** Whenever [handleChatRequest] returns the model's reply, the model
    was called with the fixed model id, 1024 tokens and the raw-response
    flag, on the client's messages in their order, preceded by the
    default system message unless one of them already has the system
    role (then the default prompt is not sent at all), and followed by
    the image message if there is an image: so with at least one system
    message.  Whenever anything threw, the reply is the fixed 500 reply. *)
Theorem model_gets_a_system_message
  (AI_run : JsString -> list JsValue -> N -> bool -> completion Response)
  (request : Request) :
  (forall response,
     handleChatRequest AI_run request = (response, None) ->
     exists messages client image found,
       AI_run MODEL_ID messages 1024%N true = Normal response /\
       received request = Normal (JArray client, image) /\
       some is_system client = Normal found /\
       messages = (if found then [] else [system_message])
                  ++ client ++ image_part image /\
       some is_system messages = Normal true) /\
  (forall e,
     snd (handleChatRequest AI_run request) = Some e ->
     handleChatRequest AI_run request = (failed, Some e)).
Proof.
  unfold handleChatRequest.
  destruct (prepare request) as [messages|e0] eqn:P; cbn [bind].
  - destruct (AI_run MODEL_ID messages 1024%N true) as [r|e0] eqn:A.
    + split; [|discriminate].
      intros response H. injection H as <-.
      destruct (prepare_shape request messages P)
        as (client & image & found & R & S & M & T).
      now exists messages, client, image, found.
    + split; [discriminate|]. intros e H. now injection H as <-.
  - split; [discriminate|]. intros e H. now injection H as <-.
Qed.

Lemma model_gets_a_system_message_witness :
  let echo := fun (_ : JsString) (messages : list JsValue) (_ : N) (_ : bool) =>
                Normal (mkResponse 200 None
                          (JsNumber.decimal (Z.of_nat (length messages)))) in
  let request := mkRequest (lit "/api/chat") (lit "POST")
                   (Some (lit "application/json")) (Throw TypeError)
                   (quoted "{'messages':[{'role':'user','content':'hi'}]}") in
  handleChatRequest echo request = (mkResponse 200 None (lit "2"), None) /\
  exists messages client image found,
    echo MODEL_ID messages 1024%N true = Normal (mkResponse 200 None (lit "2")) /\
    received request = Normal (JArray client, image) /\
    some is_system client = Normal found /\
    messages = (if found then [] else [system_message])
               ++ client ++ image_part image /\
    some is_system messages = Normal true.
Proof.
  cbn zeta. split; [reflexivity|].
  apply (proj1 (model_gets_a_system_message
                  (fun _ messages _ _ =>
                     Normal (mkResponse 200 None
                               (JsNumber.decimal (Z.of_nat (length messages)))))
                  (mkRequest (lit "/api/chat") (lit "POST")
                     (Some (lit "application/json")) (Throw TypeError)
                     (quoted "{'messages':[{'role':'user','content':'hi'}]}")))).
  reflexivity.
Defined.

(** A JSON body without [messages], or with a falsy one ([null], [0],
    the empty text, [false]), is not an error: the model is asked with
    the default system message alone. *)
Theorem missing_messages_mean_prompt_only
  (request : Request) (body : JsValue) (m : option JsValue) :
  is_form request = false ->
  JSON.parse (text request) = Some body ->
  GetV body (lit "messages") = Normal m ->
  ToBoolean m = false ->
  prepare request = Normal [system_message] /\
  (forall AI_run,
     handleChatRequest AI_run request
     = match AI_run MODEL_ID [system_message] 1024%N true with
       | Normal response => (response, None)
       | Throw e => (failed, Some e)
       end).
Proof.
  intros F P G B.
  assert (E : prepare request = Normal [system_message]).
  { rewrite prepare_eq. unfold received. rewrite F.
    unfold read_json, JSON_parse. rewrite P. cbn [bind]. rewrite G. cbn [bind].
    destruct m as [v|]; [rewrite B|]; reflexivity. }
  split; [exact E|].
  intros AI_run. unfold handleChatRequest. now rewrite E.
Qed.

Lemma missing_messages_mean_prompt_only_witness :
  let request := mkRequest (lit "/api/chat") (lit "POST") None (Throw TypeError)
                   (quoted "{'prompt':'hi','messages':''}") in
  is_form request = false /\
  prepare request = Normal [system_message].
Proof.
  cbn zeta. split; [reflexivity|].
  apply (missing_messages_mean_prompt_only
           (mkRequest (lit "/api/chat") (lit "POST") None (Throw TypeError)
              (quoted "{'prompt':'hi','messages':''}"))
           (JObject [(lit "prompt", JString (lit "hi"));
                     (lit "messages", JString [])])
           (Some (JString [])));
    reflexivity.
Defined.

Lemma some_null (pre post : list JsValue) :
  some is_system (pre ++ JNull :: post)
  = match some is_system pre with
    | Normal false => Throw TypeError
    | other => other
    end.
Proof.
  induction pre as [|x pre IH]; cbn [app some]; [reflexivity|].
  destruct (is_system x) as [[|]|e]; cbn [bind]; auto.
Qed.

(** A JSON request is answered with the 500 reply, and the model is not
    asked, when the body is not JSON, is [null], has a truthy [messages]
    that is not an array, or has a [null] among its messages before any
    system message; a [null] after a system message is not looked at and
    goes to the model with the rest. *)
Theorem malformed_messages_are_rejected
  (AI_run : JsString -> list JsValue -> N -> bool -> completion Response)
  (request : Request) :
  is_form request = false ->
  (JSON.parse (text request) = None ->
   handleChatRequest AI_run request = (failed, Some SyntaxError)) /\
  (JSON.parse (text request) = Some JNull ->
   handleChatRequest AI_run request = (failed, Some TypeError)) /\
  (forall props v,
     JSON.parse (text request) = Some (JObject props) ->
     Get props (lit "messages") = Some v ->
     ToBoolean (Some v) = true ->
     match v with JArray _ => False | _ => True end ->
     handleChatRequest AI_run request = (failed, Some TypeError)) /\
  (forall props pre post,
     JSON.parse (text request) = Some (JObject props) ->
     Get props (lit "messages") = Some (JArray (pre ++ JNull :: post)) ->
     (some is_system pre = Normal false ->
      handleChatRequest AI_run request = (failed, Some TypeError)) /\
     (some is_system pre = Normal true ->
      prepare request = Normal (pre ++ JNull :: post))).
Proof.
  intros F.
  assert (R : received request = read_json request)
    by (unfold received; now rewrite F).
  unfold handleChatRequest. rewrite prepare_eq, R.
  unfold read_json, JSON_parse.
  repeat match goal with |- _ /\ _ => split end.
  - now intros ->.
  - now intros ->.
  - intros props v -> G B A. cbn [bind GetV]. rewrite G, B. cbn [bind fst].
    destruct v; try reflexivity. contradiction.
  - intros props pre post -> G. cbn [bind GetV]. rewrite G.
    cbn [ToBoolean bind fst snd]. rewrite some_null. split.
    + now intros ->.
    + intros ->. cbn [bind image_part]. now rewrite app_nil_r.
Qed.

Lemma malformed_messages_are_rejected_witness :
  let echo := fun (_ : JsString) (messages : list JsValue) (_ : N) (_ : bool) =>
                Normal (mkResponse 200 None []) in
  let request := mkRequest (lit "/api/chat") (lit "POST") None (Throw TypeError)
                   (quoted "{'messages':'hi'}") in
  is_form request = false /\
  handleChatRequest echo request = (failed, Some TypeError).
Proof.
  cbn zeta. split; [reflexivity|].
  destruct (malformed_messages_are_rejected
              (fun _ _ _ _ => Normal (mkResponse 200 None []))
              (mkRequest (lit "/api/chat") (lit "POST") None (Throw TypeError)
                 (quoted "{'messages':'hi'}")) eq_refl)
    as (_ & _ & H & _).
  apply (H [(lit "messages", JString (lit "hi"))] (JString (lit "hi")));
    first [reflexivity|exact I].
Defined.

End WorkerProps.

Module WorkerForms.

Import Worker WorkerSpec WorkerFacts.

Lemma encode_nil (bytes : list byte) :
  Base64.encode bytes = [] <-> bytes = [].
Proof.
  split; [|now intros ->].
  destruct bytes as [|a [|b [|c r]]]; [reflexivity|discriminate..].
Qed.

Lemma get_without_image (name : JsString)
  (entries : list (JsString * FormDataEntryValue)) :
  get name (filter (fun p => negb (JsStr.eqb (fst p) (lit "image"))) entries)
  = if JsStr.eqb name (lit "image") then None else get name entries.
Proof.
  unfold get. induction entries as [|[n v] entries IH]; cbn [filter find fst].
  - now destruct (JsStr.eqb name (lit "image")).
  - destruct (JsStr.eqb n (lit "image")) eqn:I; cbn [negb find fst].
    + apply eqb_eq in I. subst n.
      destruct (JsStr.eqb (lit "image") name) eqn:N.
      * apply eqb_eq in N. subst name.
        change (JsStr.eqb (lit "image") (lit "image")) with true in *.
        exact IH.
      * exact IH.
    + destruct (JsStr.eqb n name) eqn:N.
      * apply eqb_eq in N. subst n. now rewrite I.
      * exact IH.
Qed.

Lemma read_form_eq (request : Request)
  (entries : list (JsString * FormDataEntryValue)) :
  formData request = Normal entries ->
  read_form request =
    (messages <- form_messages entries ;;
     image <- (if truthy (get (lit "image") entries) then
                 match get (lit "image") entries with
                 | Some (EntryFile bytes) => Normal (Some (Base64.encode bytes))
                 | _ => Throw TypeError
                 end
               else Normal None) ;;
     Normal (messages, image)).
Proof. unfold read_form, form_messages. now intros ->. Qed.

(** An attached file adds exactly one message, the last one, holding its
    base64 text, and changes nothing else of what the model is asked;
    an attached file of no bytes adds nothing: the request is prepared
    as if no file were attached. *)
Theorem empty_image_is_dropped
  (request : Request) (entries : list (JsString * FormDataEntryValue))
  (bytes : list byte) (messages : list JsValue) :
  is_form request = true ->
  formData request = Normal entries ->
  get (lit "image") entries = Some (EntryFile bytes) ->
  prepare request = Normal messages ->
  exists front,
    prepare (without_image request) = Normal front /\
    messages = front ++ match bytes with
                        | [] => []
                        | _ :: _ => [image_message (Base64.encode bytes)]
                        end.
Proof.
  intros F E G. rewrite !prepare_eq. unfold received.
  assert (F' : is_form (without_image request) = true) by exact F.
  rewrite F, F'.
  rewrite (read_form_eq request entries E).
  rewrite (read_form_eq (without_image request)
             (filter (fun p => negb (JsStr.eqb (fst p) (lit "image"))) entries))
    by (cbn; now rewrite E).
  unfold form_messages. rewrite !get_without_image, G.
  change (JsStr.eqb (lit "messages") (lit "image")) with false.
  change (JsStr.eqb (lit "image") (lit "image")) with true.
  cbn [truthy].
  destruct (if truthy (get (lit "messages") entries)
            then match get (lit "messages") entries with
                 | Some (EntryFile b) => JSON_parse (utf8_decode b)
                 | _ => Throw TypeError
                 end
            else Normal (JArray [])) as [m|e]; [|discriminate].
  cbn [bind fst snd]. destruct m as [ | | | | client| ]; try discriminate.
  destruct (some is_system client) as [found|e]; [|discriminate].
  cbn [bind]. intros H. injection H as <-.
  eexists. split; [cbn [image_part]; now rewrite app_nil_r|].
  f_equal. unfold image_part.
  destruct bytes as [|b bytes]; [reflexivity|].
  destruct (Base64.encode (b :: bytes)) eqn:X; [|reflexivity].
  now apply encode_nil in X.
Qed.

Lemma empty_image_is_dropped_witness :
  let request :=
    mkRequest (lit "/api/chat") (lit "POST")
      (Some (lit "multipart/form-data; boundary=x"))
      (Normal [(lit "messages", EntryFile (Examples.text "[{'role':'user','content':''}]"));
               (lit "image", EntryFile [])])
      [] in
  is_form request = true /\
  prepare request
  = Normal [system_message;
            JObject [(lit "role", JString (lit "user"));
                     (lit "content", JString [])]] /\
  exists front,
    prepare (without_image request) = Normal front /\
    [system_message;
     JObject [(lit "role", JString (lit "user")); (lit "content", JString [])]]
    = front ++ [].
Proof.
  cbn zeta. split; [reflexivity|]. split; [reflexivity|].
  apply (empty_image_is_dropped
           (mkRequest (lit "/api/chat") (lit "POST")
              (Some (lit "multipart/form-data; boundary=x"))
              (Normal [(lit "messages",
                        EntryFile (Examples.text "[{'role':'user','content':''}]"));
                       (lit "image", EntryFile [])])
              [])
           [(lit "messages",
             EntryFile (Examples.text "[{'role':'user','content':''}]"));
            (lit "image", EntryFile [])]
           []);
    reflexivity.
Defined.



(** Only a POST to [/api/chat] can reach the model: any other request
    gets the same reply whatever the model binding is.  A path that does
    not start with [/api/] is served by the static assets, [/api/chat]
    with another method is answered 405, and any other path under
    [/api/] is answered 404, whatever the method. *)
Theorem only_chat_posts_reach_the_model
  (ASSETS_fetch : Request -> Response)
  (AI_run AI_run' : JsString -> list JsValue -> N -> bool -> completion Response)
  (request : Request) :
  (pathname request <> lit "/api/chat" \/ method request <> lit "POST" ->
   fetch ASSETS_fetch AI_run request = fetch ASSETS_fetch AI_run' request) /\
  (startsWith (pathname request) (lit "/api/") = false ->
   fetch ASSETS_fetch AI_run request = (ASSETS_fetch request, None)) /\
  (pathname request = lit "/api/chat" -> method request <> lit "POST" ->
   status (fst (fetch ASSETS_fetch AI_run request)) = 405%N) /\
  (startsWith (pathname request) (lit "/api/") = true ->
   pathname request <> lit "/api/chat" ->
   status (fst (fetch ASSETS_fetch AI_run request)) = 404%N).
Proof.
  unfold fetch. repeat match goal with |- _ /\ _ => split end.
  - intros H.
    destruct (JsStr.eqb (pathname request) (lit "/")
              || negb (startsWith (pathname request) (lit "/api/")));
      [reflexivity|].
    destruct (JsStr.eqb (pathname request) (lit "/api/chat")) eqn:P;
      [|reflexivity].
    destruct (JsStr.eqb (method request) (lit "POST")) eqn:M; [|reflexivity].
    apply eqb_eq in P, M. destruct H; contradiction.
  - intros ->. now rewrite orb_true_r.
  - intros P M. rewrite P.
    change (JsStr.eqb (lit "/api/chat") (lit "/")) with false.
    change (startsWith (lit "/api/chat") (lit "/api/")) with true.
    change (JsStr.eqb (lit "/api/chat") (lit "/api/chat")) with true.
    cbn [orb negb]. apply eqb_neq in M. now rewrite M.
  - intros S P. rewrite S. cbn [negb]. rewrite orb_false_r.
    destruct (JsStr.eqb (pathname request) (lit "/")) eqn:R.
    + apply eqb_eq in R. rewrite R in S. discriminate.
    + apply eqb_neq in P. now rewrite P.
Qed.

Lemma only_chat_posts_reach_the_model_witness :
  let assets := fun _ : Request => mkResponse 200 None (lit "index") in
  let ai := fun (_ : JsString) (_ : list JsValue) (_ : N) (_ : bool) =>
              Normal (mkResponse 200 None (lit "reply")) in
  let request := mkRequest (lit "/api") (lit "POST") None (Throw TypeError) [] in
  startsWith (pathname request) (lit "/api/") = false /\
  fetch assets ai request = (mkResponse 200 None (lit "index"), None).
Proof.
  cbn zeta. split; [reflexivity|].
  destruct (only_chat_posts_reach_the_model
              (fun _ => mkResponse 200 None (lit "index"))
              (fun _ _ _ _ => Normal (mkResponse 200 None (lit "reply")))
              (fun _ _ _ _ => Normal (mkResponse 200 None (lit "reply")))
              (mkRequest (lit "/api") (lit "POST") None (Throw TypeError) []))
    as (_ & H & _).
  apply H. reflexivity.
Defined.

End WorkerForms.

(* ================================================================== *)
(** * More facts: from the page to the worker *)
(* ================================================================== *)

(** Linear arithmetic with division and remainder by constants. *)
Ltac div_lia := zify; Z.to_euclidean_division_equations; lia.

Module UTF16Facts.

Import UTF16.

Local Open Scope N_scope.

Lemma leading_bounds c : is_leading c = true -> 55296 <= c <= 56319.
Proof. unfold is_leading. rewrite andb_true_iff, !N.leb_le. lia. Qed.

Lemma trailing_bounds c : is_trailing c = true -> 56320 <= c <= 57343.
Proof. unfold is_trailing. rewrite andb_true_iff, !N.leb_le. lia. Qed.

Lemma not_leading c : is_leading c = false -> c < 55296 \/ 56319 < c.
Proof. unfold is_leading. rewrite andb_false_iff, !N.leb_gt. lia. Qed.

Lemma not_trailing c : is_trailing c = false -> c < 56320 \/ 57343 < c.
Proof. unfold is_trailing. rewrite andb_false_iff, !N.leb_gt. lia. Qed.

Lemma well_formed_low (s : JsString) :
  Forall (fun c => c < 55296) s -> well_formed s = true.
Proof.
  induction 1 as [|c r L _ IH]; [reflexivity|].
  cbn [well_formed]. unfold is_leading, is_trailing.
  replace (N.leb 55296 c) with false by (symmetry; apply N.leb_gt; lia).
  replace (N.leb 56320 c) with false by (symmetry; apply N.leb_gt; lia).
  replace (N.ltb c 65536) with true by (symmetry; apply N.ltb_lt; lia).
  exact IH.
Qed.

Lemma well_formed_app_le (n : nat) :
  forall a b, (length a <= n)%nat ->
    well_formed a = true -> well_formed b = true ->
    well_formed (a ++ b) = true.
Proof.
  induction n as [|n IH]; intros a b L A B.
  - destruct a; [exact B|cbn in L; lia].
  - destruct a as [|c r]; [exact B|].
    cbn [length] in L. cbn [app well_formed] in A |- *.
    destruct (is_leading c).
    + destruct r as [|d r']; [discriminate|].
      cbn [app length] in *.
      apply andb_true_iff in A. destruct A as [-> A]. cbn [andb].
      apply IH; [lia|exact A|exact B].
    + apply andb_true_iff in A. destruct A as [-> A]. cbn [andb].
      apply IH; [lia|exact A|exact B].
Qed.

Lemma well_formed_app (a b : JsString) :
  well_formed a = true -> well_formed b = true ->
  well_formed (a ++ b) = true.
Proof. now apply (well_formed_app_le (length a)). Qed.

End UTF16Facts.

Module UTF8Facts.

Import UTF16 UTF8 TextDecoder UTF16Facts.

Local Open Scope N_scope.

Lemma to_N_byte_of (n : N) : n < 256 -> Byte.to_N (byte_of n) = n.
Proof.
  intros L. unfold byte_of. destruct (Byte.of_N n) eqn:E.
  - now apply Byte.to_of_N in E.
  - apply Byte.of_N_None_iff in E. lia.
Qed.

Lemma in_range_true lo hi b : lo <= b <= hi -> in_range lo hi b = true.
Proof. intros H. unfold in_range. rewrite andb_true_iff, !N.leb_le. lia. Qed.

Lemma in_range_false lo hi b : b < lo \/ hi < b -> in_range lo hi b = false.
Proof.
  intros H. unfold in_range. rewrite andb_false_iff, !N.leb_gt. lia.
Qed.

Lemma land_low (k : N) (x : N) : N.land x (N.ones k) = x mod 2 ^ k.
Proof. apply N.land_ones. Qed.

Lemma lor64 x r : r < 64 -> N.lor (N.shiftl x 6) r = x * 64 + r.
Proof.
  intros L. rewrite N.shiftl_mul_pow2. change (2 ^ 6) with 64.
  assert (Z : N.land (x * 64) r = 0).
  { apply N.bits_inj_0. intros i. rewrite N.land_spec.
    destruct (N.lt_ge_cases i 6) as [I|I].
    + change 64 with (2 ^ 6). rewrite N.mul_pow2_bits_low by exact I. reflexivity.
    + rewrite (N.bits_above_log2 r i); [apply andb_false_r|].
      destruct (N.eq_dec r 0) as [->|NZ]; [cbn; lia|].
      apply N.log2_lt_pow2; [lia|]. apply N.lt_le_trans with (2 ^ 6); [exact L|].
      apply N.pow_le_mono_r; lia. }
  rewrite <- N.lxor_lor by exact Z. symmetry. now apply N.add_nocarry_lxor.
Qed.

Lemma serialize_one (bom : bool) (cp : N) :
  serialize bom [cp] = (true, emitted bom cp).
Proof.
  unfold emitted. cbn [serialize]. destruct bom; cbn [negb andb].
  - now rewrite app_nil_r.
  - destruct (N.eqb cp 65279); [reflexivity|now rewrite app_nil_r].
Qed.

Lemma step_ascii (bom : bool) (b : N) :
  b < 128 -> step (clean bom) (byte_of b) = (clean true, emitted bom b).
Proof.
  intros L. unfold step, handler, clean. cbn [bytes_needed BOM_seen].
  change (N.eqb 0 0) with true. cbv iota.
  rewrite to_N_byte_of by lia. unfold lead.
  rewrite in_range_true by lia. now rewrite serialize_one.
Qed.

Lemma step_lead2 (bom : bool) (q : N) :
  2 <= q < 32 ->
  step (clean bom) (byte_of (192 + q)) = (mk q 0 1 128 191 bom, []).
Proof.
  intros L. unfold step, handler, clean. cbn [bytes_needed BOM_seen].
  change (N.eqb 0 0) with true. cbv iota.
  rewrite to_N_byte_of by lia. unfold lead.
  rewrite in_range_false, in_range_true by lia.
  change 31 with (N.ones 5). rewrite land_low.
  replace ((192 + q) mod 2 ^ 5) with q by (change (2 ^ 5) with 32; div_lia).
  reflexivity.
Qed.

Lemma step_lead3 (bom : bool) (q : N) :
  q < 16 ->
  step (clean bom) (byte_of (224 + q))
  = (mk q 0 2 (if N.eqb q 0 then 160 else 128)
        (if N.eqb q 13 then 159 else 191) bom, []).
Proof.
  intros L. unfold step, handler, clean. cbn [bytes_needed BOM_seen].
  change (N.eqb 0 0) with true. cbv iota.
  rewrite to_N_byte_of by lia. unfold lead.
  rewrite in_range_false, in_range_false, in_range_true by lia.
  change 15 with (N.ones 4). rewrite land_low.
  replace ((224 + q) mod 2 ^ 4) with q by (change (2 ^ 4) with 16; div_lia).
  replace (N.eqb (224 + q) 224) with (N.eqb q 0)
    by (destruct (N.eqb_spec q 0), (N.eqb_spec (224 + q) 224); lia || reflexivity).
  replace (N.eqb (224 + q) 237) with (N.eqb q 13)
    by (destruct (N.eqb_spec q 13), (N.eqb_spec (224 + q) 237); lia || reflexivity).
  reflexivity.
Qed.

Lemma step_lead4 (bom : bool) (q : N) :
  q < 5 ->
  step (clean bom) (byte_of (240 + q))
  = (mk q 0 3 (if N.eqb q 0 then 144 else 128)
        (if N.eqb q 4 then 143 else 191) bom, []).
Proof.
  intros L. unfold step, handler, clean. cbn [bytes_needed BOM_seen].
  change (N.eqb 0 0) with true. cbv iota.
  rewrite to_N_byte_of by lia. unfold lead.
  rewrite in_range_false, in_range_false, in_range_false, in_range_true by lia.
  change 7 with (N.ones 3). rewrite land_low.
  replace ((240 + q) mod 2 ^ 3) with q by (change (2 ^ 3) with 8; div_lia).
  replace (N.eqb (240 + q) 240) with (N.eqb q 0)
    by (destruct (N.eqb_spec q 0), (N.eqb_spec (240 + q) 240); lia || reflexivity).
  replace (N.eqb (240 + q) 244) with (N.eqb q 4)
    by (destruct (N.eqb_spec q 4), (N.eqb_spec (240 + q) 244); lia || reflexivity).
  reflexivity.
Qed.

Lemma continuation (x r : N) :
  r < 64 -> N.lor (N.shiftl x 6) (N.land (128 + r) 63) = x * 64 + r.
Proof.
  intros L. change 63 with (N.ones 6). rewrite land_low.
  replace ((128 + r) mod 2 ^ 6) with r by (change (2 ^ 6) with 64; div_lia).
  now apply lor64.
Qed.

Lemma step_more (x seen needed lo hi : N) (bom : bool) (r : N) :
  r < 64 -> lo <= 128 + r <= hi -> needed <> 0 -> seen + 1 <> needed ->
  step (mk x seen needed lo hi bom) (byte_of (128 + r))
  = (mk (x * 64 + r) (seen + 1) needed 128 191 bom, []).
Proof.
  intros L R N0 N1. unfold step, handler.
  cbn [bytes_needed BOM_seen lower_boundary upper_boundary code_point bytes_seen].
  apply N.eqb_neq in N0. rewrite N0.
  rewrite to_N_byte_of by lia.
  rewrite in_range_true by lia. cbn [negb].
  rewrite continuation by exact L. rewrite <- N.add_1_r.
  apply N.eqb_neq in N1. rewrite N1. reflexivity.
Qed.

Lemma step_last (x seen needed lo hi : N) (bom : bool) (r : N) :
  r < 64 -> lo <= 128 + r <= hi -> needed <> 0 -> seen + 1 = needed ->
  step (mk x seen needed lo hi bom) (byte_of (128 + r))
  = (clean true, emitted bom (x * 64 + r)).
Proof.
  intros L R N0 N1. unfold step, handler.
  cbn [bytes_needed BOM_seen lower_boundary upper_boundary code_point bytes_seen].
  apply N.eqb_neq in N0. rewrite N0.
  rewrite to_N_byte_of by lia.
  rewrite in_range_true by lia. cbn [negb].
  rewrite continuation by exact L. rewrite <- N.add_1_r.
  apply N.eqb_eq in N1. rewrite N1. cbn [BOM_seen].
  now rewrite serialize_one.
Qed.

(** The bytes of a scalar value decode to it. *)
Lemma decode_code_point (bom : bool) (cp : N) :
  cp < 1114112 -> ~ 55296 <= cp <= 57343 ->
  decode (clean bom) (encode_code_point cp) = (clean true, emitted bom cp).
Proof.
  intros L S. unfold encode_code_point.
  destruct (N.ltb_spec cp 128) as [A|A].
  { rewrite ChunkingFacts.decode_cons, step_ascii by exact A.
    cbn [fst snd]. rewrite ChunkingFacts.decode_nil. cbn [fst snd].
    now rewrite app_nil_r. }
  destruct (N.ltb_spec cp 2048) as [B|B].
  { rewrite ChunkingFacts.decode_cons, step_lead2 by div_lia. cbn [fst snd].
    rewrite ChunkingFacts.decode_cons, step_last by div_lia. cbn [fst snd].
    rewrite ChunkingFacts.decode_nil. cbn [fst snd app].
    rewrite app_nil_r. do 2 f_equal. div_lia. }
  destruct (N.ltb_spec cp 65536) as [C|C].
  { rewrite ChunkingFacts.decode_cons, step_lead3 by div_lia. cbn [fst snd].
    rewrite ChunkingFacts.decode_cons, step_more;
      [|div_lia| |discriminate|discriminate].
    2: { destruct (N.eqb_spec (cp / 4096) 0), (N.eqb_spec (cp / 4096) 13);
         div_lia. }
    cbn [fst snd].
    rewrite ChunkingFacts.decode_cons, step_last by div_lia. cbn [fst snd].
    rewrite ChunkingFacts.decode_nil. cbn [fst snd app].
    rewrite app_nil_r. do 2 f_equal. div_lia. }
  rewrite ChunkingFacts.decode_cons, step_lead4 by div_lia. cbn [fst snd].
  rewrite ChunkingFacts.decode_cons, step_more;
    [|div_lia| |discriminate|discriminate].
  2: { destruct (N.eqb_spec (cp / 262144) 0), (N.eqb_spec (cp / 262144) 4);
       div_lia. }
  cbn [fst snd].
  rewrite ChunkingFacts.decode_cons, step_more;
    [|div_lia|div_lia|discriminate|discriminate].
  cbn [fst snd].
  rewrite ChunkingFacts.decode_cons, step_last by div_lia. cbn [fst snd].
  rewrite ChunkingFacts.decode_nil. cbn [fst snd app].
  rewrite app_nil_r. do 2 f_equal. div_lia.
Qed.

Lemma utf16_pair (c d : code_unit) :
  is_leading c = true -> is_trailing d = true ->
  utf16 (UTF16.code_point c d) = [c; d].
Proof.
  intros Lc Td. apply leading_bounds in Lc. apply trailing_bounds in Td.
  unfold utf16, UTF16.code_point.
  destruct (N.ltb_spec (65536 + (c - 55296) * 1024 + (d - 56320)) 65536);
    [lia|].
  rewrite N.shiftr_div_pow2. change 1023 with (N.ones 10).
  rewrite land_low. change (2 ^ 10) with 1024.
  f_equal; [|f_equal]; div_lia.
Qed.

Lemma utf16_unit (c : code_unit) : c < 65536 -> utf16 c = [c].
Proof. intros L. unfold utf16. apply N.ltb_lt in L. now rewrite L. Qed.

(** Once the first code point is through, a well-formed string comes
    back from its bytes as it was. *)
Lemma decode_encode_le (n : nat) :
  forall s, (length s <= n)%nat -> well_formed s = true ->
    decode (clean true) (encode s) = (clean true, s).
Proof.
  induction n as [|n IH]; intros s L W.
  - destruct s; [reflexivity|cbn in L; lia].
  - destruct s as [|c r]; [reflexivity|].
    cbn [length] in L. cbn [encode well_formed] in W |- *.
    destruct (is_leading c) eqn:Lc.
    + destruct r as [|d r']; [discriminate|].
      apply andb_true_iff in W. destruct W as [Td W]. rewrite Td.
      cbn [length] in L.
      rewrite ChunkingFacts.decode_app, decode_code_point.
      * cbn [fst snd]. rewrite IH by (lia || exact W). cbn [fst snd].
        unfold emitted. cbn [negb andb]. now rewrite utf16_pair.
      * apply leading_bounds in Lc. apply trailing_bounds in Td.
        unfold UTF16.code_point. lia.
      * apply leading_bounds in Lc. apply trailing_bounds in Td.
        unfold UTF16.code_point. lia.
    + rewrite !andb_true_iff, negb_true_iff, N.ltb_lt in W.
      destruct W as [[Tc U] W]. rewrite Tc.
      rewrite ChunkingFacts.decode_app, decode_code_point.
      * cbn [fst snd]. rewrite IH by (lia || exact W). cbn [fst snd].
        unfold emitted. cbn [negb andb]. now rewrite utf16_unit.
      * lia.
      * apply not_leading in Lc. apply not_trailing in Tc. lia.
Qed.

(** A well-formed string that does not start with the byte order mark
    comes back from its bytes as it was. *)
Lemma utf8_round_trip (s : JsString) :
  well_formed s = true -> hd 0 s <> 65279 ->
  utf8_decode (encode s) = s.
Proof.
  intros W B. unfold utf8_decode.
  assert (E : exists bom, decode new (encode s) = (clean bom, s)).
  { destruct s as [|c r]; [now exists false|].
    cbn [hd] in B. cbn [encode well_formed] in W |- *.
    exists true. change new with (clean false).
    destruct (is_leading c) eqn:Lc.
    - destruct r as [|d r']; [discriminate|].
      apply andb_true_iff in W. destruct W as [Td W]. rewrite Td.
      rewrite ChunkingFacts.decode_app, decode_code_point.
      + cbn [fst snd].
        rewrite (decode_encode_le (length r')) by (lia || exact W).
        cbn [fst snd]. unfold emitted. cbn [negb andb].
        replace (N.eqb (UTF16.code_point c d) 65279) with false.
        * now rewrite utf16_pair.
        * symmetry. apply N.eqb_neq. unfold UTF16.code_point. lia.
      + apply leading_bounds in Lc. apply trailing_bounds in Td.
        unfold UTF16.code_point. lia.
      + apply leading_bounds in Lc. apply trailing_bounds in Td.
        unfold UTF16.code_point. lia.
    - rewrite !andb_true_iff, negb_true_iff, N.ltb_lt in W.
      destruct W as [[Tc U] W]. rewrite Tc.
      rewrite ChunkingFacts.decode_app, decode_code_point.
      + cbn [fst snd].
        rewrite (decode_encode_le (length r)) by (lia || exact W).
        cbn [fst snd]. unfold emitted. cbn [negb andb].
        apply N.eqb_neq in B. rewrite B. now rewrite utf16_unit.
      + lia.
      + apply not_leading in Lc. apply not_trailing in Tc. lia. }
  destruct E as (bom & ->). reflexivity.
Qed.

End UTF8Facts.

Module StringifyFacts.

Import JSON UTF16 Stringify UTF16Facts.

Local Open Scope N_scope.

Lemma fuel_more (f : nat) :
  (forall s, value f s <> OutOfFuel -> value (S f) s = value f s) /\
  (forall s acc, elements f s acc <> OutOfFuel ->
     elements (S f) s acc = elements f s acc) /\
  (forall s acc, members f s acc <> OutOfFuel ->
     members (S f) s acc = members f s acc).
Proof.
  induction f as [|f (IHv & IHe & IHm)];
    [repeat split; intros; now exfalso|].
  split; [|split].
  - intros s H. cbn [value] in H |- *.
    destruct (skip_ws s) as [|c r]; [reflexivity|].
    destruct (N.eqb c 91).
    { destruct (skip_ws r) as [|d r']; [reflexivity|].
      destruct (N.eqb d 93); [reflexivity|]. now apply IHe. }
    destruct (N.eqb c 123).
    { destruct (skip_ws r) as [|d r']; [reflexivity|].
      destruct (N.eqb d 125); [reflexivity|]. now apply IHm. }
    reflexivity.
  - intros s acc H. cbn [elements] in H |- *.
    destruct (value f s) as [v r| |] eqn:V.
    + rewrite IHv by (rewrite V; discriminate). rewrite V.
      destruct (skip_ws r) as [|c r']; [reflexivity|].
      destruct (N.eqb c 44); [now apply IHe|reflexivity].
    + rewrite IHv by (rewrite V; discriminate). now rewrite V.
    + now exfalso.
  - intros s acc H. cbn [members] in H |- *.
    destruct (skip_ws s) as [|c r]; [reflexivity|].
    destruct (N.eqb c 34); [|reflexivity].
    destruct (string_chars r) as [[key r1]|]; [|reflexivity].
    destruct (skip_ws r1) as [|d r2]; [reflexivity|].
    destruct (N.eqb d 58); [|reflexivity].
    destruct (value f r2) as [v r3| |] eqn:V.
    + rewrite IHv by (rewrite V; discriminate). rewrite V.
      destruct (skip_ws r3) as [|e r4]; [reflexivity|].
      destruct (N.eqb e 44); [now apply IHm|reflexivity].
    + rewrite IHv by (rewrite V; discriminate). now rewrite V.
    + now exfalso.
Qed.

Lemma value_more (f g : nat) (s : JsString) :
  value f s <> OutOfFuel -> (f <= g)%nat -> value g s = value f s.
Proof.
  intros H L. induction L as [|g L IH]; [reflexivity|].
  rewrite <- IH. apply fuel_more. now rewrite IH.
Qed.

Lemma value_parsed_more (f g : nat) (s : JsString) v r :
  value f s = Parsed v r -> (f <= g)%nat -> value g s = Parsed v r.
Proof.
  intros H L. rewrite (value_more f g); [exact H| |exact L].
  rewrite H. discriminate.
Qed.

(** The result of [JSON.parse] can be read off a run of the parser on
    any amount of fuel. *)
Lemma parse_of_value (f : nat) (text : JsString) v r :
  value f text = Parsed v r -> skip_ws r = [] -> parse text = Some v.
Proof.
  intros H W. unfold parse.
  assert (E : value (S (2 * length text)) text = Parsed v r).
  { destruct (Nat.le_ge_cases f (S (2 * length text))) as [L|L].
    - now apply (value_parsed_more f).
    - rewrite <- H. symmetry. apply value_more; [|exact L].
      apply ParserFacts.parse_fuel. }
  rewrite E. now rewrite W.
Qed.

Lemma hex_digit_value (n : N) : n < 16 -> hex_value (hex_digit n) = Some n.
Proof.
  intros L.
  assert (C : forallb (fun n => match hex_value (hex_digit n) with
                                | Some m => N.eqb m n | None => false end)
                (map N.of_nat (seq 0 16)) = true) by (vm_compute; reflexivity).
  rewrite forallb_forall in C.
  specialize (C n). 
  assert (I : In n (map N.of_nat (seq 0 16))).
  { apply in_map_iff. exists (N.to_nat n). split; [apply N2Nat.id|].
    apply in_seq. lia. }
  apply C in I. destruct (hex_value (hex_digit n)); [|discriminate].
  apply N.eqb_eq in I. now subst.
Qed.

Lemma hex4_escape (c : code_unit) :
  c < 65536 ->
  hex4 (hex_digit (c / 4096)) (hex_digit (c / 256 mod 16))
       (hex_digit (c / 16 mod 16)) (hex_digit (c mod 16)) = Some c.
Proof.
  intros L. unfold hex4.
  rewrite !hex_digit_value;
    try (apply N.mod_lt; discriminate);
    try (apply N.Div0.div_lt_upper_bound; lia).
  f_equal.
  assert (D2 : c / 256 = c / 16 / 16) by (rewrite N.Div0.div_div; reflexivity).
  assert (D3 : c / 4096 = c / 256 / 16) by (rewrite N.Div0.div_div; reflexivity).
  pose proof (N.div_mod c 16 ltac:(discriminate)) as E1.
  pose proof (N.div_mod (c / 16) 16 ltac:(discriminate)) as E2.
  pose proof (N.div_mod (c / 256) 16 ltac:(discriminate)) as E3.
  rewrite <- D2 in E2. rewrite <- D3 in E3.
  generalize dependent (c / 4096). generalize dependent (c / 256).
  generalize dependent (c / 16).
  intros q1 m1; revert m1. generalize (c mod 16).
  intros n E1 n0 _ E2 n1 _ E3. revert E2 E3.
  generalize (q1 mod 16). generalize (n0 mod 16). intros. lia.
Qed.

Lemma string_chars_literal (c : code_unit) (r : JsString) :
  32 <= c -> c <> 34 -> c <> 92 ->
  string_chars (c :: r) = consume c (string_chars r).
Proof.
  intros L A B. cbn [string_chars].
  apply N.eqb_neq in A, B. rewrite A, B.
  apply N.ltb_ge in L. now rewrite L.
Qed.

Lemma string_chars_unit (c : code_unit) (r : JsString) :
  string_chars (quote_unit c ++ r) = consume c (string_chars r).
Proof.
  unfold quote_unit.
  destruct (N.eqb_spec c 8) as [->|N8]; [reflexivity|].
  destruct (N.eqb_spec c 9) as [->|N9]; [reflexivity|].
  destruct (N.eqb_spec c 10) as [->|N10]; [reflexivity|].
  destruct (N.eqb_spec c 12) as [->|N12]; [reflexivity|].
  destruct (N.eqb_spec c 13) as [->|N13]; [reflexivity|].
  destruct (N.eqb_spec c 34) as [->|N34]; [reflexivity|].
  destruct (N.eqb_spec c 92) as [->|N92]; [reflexivity|].
  destruct (N.ltb c 32 || is_leading c || is_trailing c) eqn:E.
  - assert (L : c < 65536).
    { rewrite !orb_true_iff in E. destruct E as [[E|E]|E].
      - apply N.ltb_lt in E. lia.
      - apply leading_bounds in E. lia.
      - apply trailing_bounds in E. lia. }
    unfold UnicodeEscape. cbn [app string_chars].
    change (N.eqb 92 34) with false. change (N.eqb 92 92) with true.
    change (N.eqb 117 117) with true. cbv iota.
    now rewrite hex4_escape.
  - rewrite !orb_false_iff in E. destruct E as [[E _] _].
    apply N.ltb_ge in E. cbn [app]. now apply string_chars_literal.
Qed.

Lemma string_chars_quote_le (n : nat) :
  forall s rest, (length s <= n)%nat ->
    string_chars (quote_body s ++ 34 :: rest) = Some (s, rest).
Proof.
  induction n as [|n IH]; intros s rest L.
  - destruct s; [reflexivity|cbn in L; lia].
  - destruct s as [|c r]; [reflexivity|].
    cbn [length] in L. cbn [quote_body].
    assert (U : string_chars ((quote_unit c ++ quote_body r) ++ 34 :: rest)
                = Some (c :: r, rest)).
    { rewrite <- app_assoc, string_chars_unit, IH by lia. reflexivity. }
    destruct (is_leading c) eqn:Lc; [|exact U].
    destruct r as [|d r']; [now rewrite app_nil_r in U|].
    destruct (is_trailing d) eqn:Td; [|exact U].
    apply leading_bounds in Lc. apply trailing_bounds in Td.
    cbn [app length] in *.
    rewrite string_chars_literal by lia.
    rewrite string_chars_literal by lia.
    rewrite IH by lia. reflexivity.
Qed.

Lemma string_chars_quote (s rest : JsString) :
  string_chars (quote_body s ++ 34 :: rest) = Some (s, rest).
Proof. now apply (string_chars_quote_le (length s)). Qed.

(** A quoted string is read back as the string. *)
Lemma value_quoted (f : nat) (s rest : JsString) :
  value (S f) (QuoteJSONString s ++ rest) = Parsed (JString s) rest.
Proof.
  unfold QuoteJSONString. cbn [value app skip_ws].
  change (is_ws 34) with false. cbv iota.
  change (N.eqb 34 91) with false. change (N.eqb 34 123) with false.
  change (N.eqb 34 34) with true. cbv iota.
  rewrite <- app_assoc. cbn [app]. now rewrite string_chars_quote.
Qed.


Lemma value_object (f : nat) (k rest : JsString) :
  value (S f) (123 :: QuoteJSONString k ++ rest)
  = members f (QuoteJSONString k ++ rest) [].
Proof. reflexivity. Qed.

Lemma value_array (f : nat) (rest : JsString) :
  value (S f) (91 :: 123 :: rest) = elements f (123 :: rest) [].
Proof. reflexivity. Qed.

Lemma members_next (f : nat) (k text more : JsString) v acc :
  value f (text ++ 44 :: more) = Parsed v (44 :: more) ->
  members (S f) (QuoteJSONString k ++ 58 :: text ++ 44 :: more) acc
  = members f more ((k, v) :: acc).
Proof.
  intros V. unfold QuoteJSONString. cbn [members app skip_ws].
  change (is_ws 34) with false. cbv iota.
  change (N.eqb 34 34) with true. cbv iota.
  rewrite <- app_assoc. cbn [app]. rewrite string_chars_quote.
  cbn [skip_ws]. change (is_ws 58) with false. cbv iota.
  change (N.eqb 58 58) with true. cbv iota. rewrite V.
  reflexivity.
Qed.

Lemma members_last (f : nat) (k text rest : JsString) v acc :
  value f (text ++ 125 :: rest) = Parsed v (125 :: rest) ->
  members (S f) (QuoteJSONString k ++ 58 :: text ++ 125 :: rest) acc
  = Parsed (JObject (rev ((k, v) :: acc))) rest.
Proof.
  intros V. unfold QuoteJSONString. cbn [members app skip_ws].
  change (is_ws 34) with false. cbv iota.
  change (N.eqb 34 34) with true. cbv iota.
  rewrite <- app_assoc. cbn [app]. rewrite string_chars_quote.
  cbn [skip_ws]. change (is_ws 58) with false. cbv iota.
  change (N.eqb 58 58) with true. cbv iota. rewrite V.
  reflexivity.
Qed.

Lemma message_text (m : Message) (rest : JsString) :
  message m ++ rest
  = 123 :: QuoteJSONString (lit "role") ++ 58
      :: QuoteJSONString (role_name (role m)) ++ 44
      :: QuoteJSONString (lit "content") ++ 58
      :: QuoteJSONString (content m) ++ 125 :: rest.
Proof.
  unfold message.
  change (template "{`role`:") with (123 :: QuoteJSONString (lit "role") ++ [58]).
  change (template ",`content`:")
    with (44 :: QuoteJSONString (lit "content") ++ [58]).
  change (lit "}") with [125].
  repeat (rewrite <- ?app_assoc; cbn [app]). reflexivity.
Qed.

(** A stringified entry is read back as the object of its two
    properties. *)
Lemma value_message (f : nat) (m : Message) (rest : JsString) :
  (4 <= f)%nat -> value f (message m ++ rest) = Parsed (message_value m) rest.
Proof.
  intros L. apply (value_parsed_more 4); [|exact L].
  rewrite message_text, value_object.
  erewrite members_next by apply value_quoted.
  erewrite members_last by apply value_quoted.
  reflexivity.
Qed.

Lemma elements_messages (h : list Message) :
  forall m acc f rest, (length h + 5 <= f)%nat ->
    elements f (join 44 (map message (m :: h)) ++ 93 :: rest) acc
    = Parsed (JArray (rev acc ++ map message_value (m :: h))) rest.
Proof.
  induction h as [|m' h IH]; intros m acc f rest L;
    (destruct f as [|f]; [cbn in L; lia|]); cbn [length] in L.
  - cbn [map join]. cbn [elements].
    rewrite value_message by lia. cbn [skip_ws].
    change (is_ws 93) with false. cbv iota.
    change (N.eqb 93 44) with false. change (N.eqb 93 93) with true.
    cbv iota. cbn [rev]. reflexivity.
  - change (join 44 (map message (m :: m' :: h)))
      with (message m ++ 44 :: join 44 (map message (m' :: h))).
    rewrite <- app_assoc. cbn [app]. cbn [elements].
    rewrite value_message by lia. cbn [skip_ws].
    change (is_ws 44) with false. cbv iota.
    change (N.eqb 44 44) with true. cbv iota.
    rewrite IH by lia. cbn [rev map]. now rewrite <- app_assoc.
Qed.

Lemma value_array_of_messages (f : nat) (m : Message) (rest : JsString) :
  value (S f) (91 :: message m ++ rest) = elements f (message m ++ rest) [].
Proof. rewrite message_text. reflexivity. Qed.

(** The stringified history is read back as the array of its entries. *)
Lemma value_history (h : list Message) (f : nat) (rest : JsString) :
  (length h + 5 <= f)%nat ->
  value f (history h ++ rest) = Parsed (JArray (map message_value h)) rest.
Proof.
  intros L. destruct f as [|f]; [lia|].
  unfold history. change (lit "[") with [91]. change (lit "]") with [93].
  destruct h as [|m h]; [reflexivity|].
  cbn [length] in L.
  rewrite <- !app_assoc. cbn [app].
  pose proof (elements_messages h m [] f rest ltac:(lia)) as E.
  destruct h as [|m' h].
  - etransitivity; [apply value_array_of_messages|exact E].
  - change (join 44 (map message (m :: m' :: h)))
      with (message m ++ 44 :: join 44 (map message (m' :: h))) in *.
    rewrite <- app_assoc in *.
    etransitivity; [apply value_array_of_messages|exact E].
Qed.

(** What the page sends as JSON is read back as an object whose only
    property is the array of the history. *)
Lemma parse_body (h : list Message) :
  parse (messages_object h) = Some (JObject [(lit "messages", JArray (map message_value h))]).
Proof.
  apply (parse_of_value (length h + 7) _ _ []); [|reflexivity].
  unfold messages_object.
  change (template "{`messages`:")
    with (123 :: QuoteJSONString (lit "messages") ++ [58]).
  change (lit "}") with [125].
  replace (length h + 7)%nat with (S (S (length h + 5))) by lia.
  cbn [app]. rewrite <- !app_assoc. cbn [app].
  rewrite value_object.
  erewrite members_last by (apply value_history; lia).
  reflexivity.
Qed.

Lemma parse_history (h : list Message) :
  parse (history h) = Some (JArray (map message_value h)).
Proof.
  apply (parse_of_value (length h + 5) _ _ []); [|reflexivity].
  rewrite <- (app_nil_r (history h)). now apply value_history.
Qed.

End StringifyFacts.

Module WireFacts.

Import UTF16 UTF8 Stringify Wire UTF16Facts UTF8Facts StringifyFacts.
Import WorkerSpec WorkerFacts.

Local Open Scope N_scope.

Lemma hex_digit_low (n : N) : n < 16 -> hex_digit n < 55296.
Proof. intros L. unfold hex_digit. destruct (N.ltb n 10); lia. Qed.

Lemma well_formed_quote_unit (c : code_unit) :
  c < 65536 -> well_formed (quote_unit c) = true.
Proof.
  intros L. unfold quote_unit.
  repeat match goal with
         | |- context [if N.eqb c ?k then _ else _] =>
             destruct (N.eqb c k); [reflexivity|]
         end.
  destruct (N.ltb c 32 || is_leading c || is_trailing c) eqn:E.
  - apply well_formed_low. unfold UnicodeEscape.
    repeat constructor; try lia; apply hex_digit_low; div_lia.
  - rewrite !orb_false_iff in E. destruct E as [[_ A] B].
    cbn [well_formed]. rewrite A, B. cbn [negb andb].
    apply N.ltb_lt in L. now rewrite L.
Qed.

Lemma well_formed_quote_body_le (n : nat) :
  forall s, (length s <= n)%nat -> UTF16.units s ->
    well_formed (quote_body s) = true.
Proof.
  induction n as [|n IH]; intros s L U.
  - destruct s; [reflexivity|cbn in L; lia].
  - destruct s as [|c r]; [reflexivity|].
    cbn [length] in L. apply Forall_cons_iff in U. destruct U as [Uc U].
    cbn [quote_body].
    assert (A : well_formed (quote_unit c ++ quote_body r) = true).
    { apply well_formed_app; [now apply well_formed_quote_unit|].
      apply IH; [lia|exact U]. }
    destruct (is_leading c) eqn:Lc; [|exact A].
    destruct r as [|d r']; [now rewrite app_nil_r in A|].
    destruct (is_trailing d) eqn:Td; [|exact A].
    cbn [well_formed]. rewrite Lc, Td. cbn [andb].
    apply Forall_cons_iff in U. cbn [length] in L.
    apply IH; [lia|apply U].
Qed.

Lemma well_formed_quoted (s : JsString) :
  UTF16.units s -> well_formed (QuoteJSONString s) = true.
Proof.
  intros U. unfold QuoteJSONString.
  apply (well_formed_app [34]); [reflexivity|].
  apply well_formed_app; [|reflexivity].
  now apply (well_formed_quote_body_le (length s)).
Qed.

Lemma well_formed_message (m : Message) :
  UTF16.units (content m) -> well_formed (message m) = true.
Proof.
  intros U. unfold message.
  apply well_formed_app; [reflexivity|].
  apply well_formed_app; [destruct (role m); reflexivity|].
  apply well_formed_app; [reflexivity|].
  apply well_formed_app; [now apply well_formed_quoted|reflexivity].
Qed.

Lemma well_formed_messages (h : list Message) :
  Wire.units h -> well_formed (join 44 (map message h)) = true.
Proof.
  induction 1 as [|m h U _ IH]; [reflexivity|].
  destruct h as [|m' h]; [now apply well_formed_message|].
  change (join 44 (map message (m :: m' :: h)))
    with (message m ++ [44] ++ join 44 (map message (m' :: h))).
  apply well_formed_app; [now apply well_formed_message|].
  apply well_formed_app; [reflexivity|exact IH].
Qed.

Lemma well_formed_history (h : list Message) :
  Wire.units h -> well_formed (history h) = true.
Proof.
  intros U. unfold history.
  apply well_formed_app; [reflexivity|].
  apply well_formed_app; [now apply well_formed_messages|reflexivity].
Qed.

Lemma well_formed_body (h : list Message) :
  Wire.units h -> well_formed (Stringify.messages_object h) = true.
Proof.
  intros U. unfold Stringify.messages_object.
  apply well_formed_app; [reflexivity|].
  apply well_formed_app; [now apply well_formed_history|reflexivity].
Qed.

(** The text of the history comes back from its bytes. *)
Lemma history_bytes (h : list Message) :
  Wire.units h -> utf8_decode (encode (history h)) = history h.
Proof.
  intros U. apply utf8_round_trip; [now apply well_formed_history|].
  discriminate.
Qed.

Lemma body_bytes (h : list Message) :
  Wire.units h -> utf8_decode (encode (Stringify.messages_object h)) = Stringify.messages_object h.
Proof.
  intros U. apply utf8_round_trip; [now apply well_formed_body|].
  discriminate.
Qed.

Lemma is_system_message_value (m : Message) :
  Worker.is_system (message_value m) = Normal (Wire.is_system m).
Proof. destruct m as [[| |] c]; reflexivity. Qed.

Lemma some_is_system (h : list Message) :
  some Worker.is_system (map message_value h)
  = Normal (existsb Wire.is_system h).
Proof.
  induction h as [|m h IH]; [reflexivity|].
  cbn [map some existsb]. rewrite is_system_message_value. cbn [bind].
  destruct (Wire.is_system m); [reflexivity|exact IH].
Qed.

(** What the worker reads from a request the page sent. *)
Lemma received_delivered (r : Request) (request : Worker.Request) :
  delivered r request -> Wire.units (sent_messages r) ->
  received request
  = Normal (JArray (map message_value (sent_messages r)), sent_image r).
Proof.
  intros (_ & _ & D) U. unfold received, is_form, sent_messages, sent_image in *.
  destruct (body r) as [h|h image].
  - destruct D as [-> T].
    change (includes (lit "application/json") (lit "multipart/form-data"))
      with false. cbv iota.
    unfold Worker.read_json. rewrite T, body_bytes by exact U.
    unfold JSON_parse. rewrite parse_body. reflexivity.
  - destruct D as [[boundary ->] F].
    replace (includes (lit "multipart/form-data; boundary=" ++ boundary)
               (lit "multipart/form-data")) with true by reflexivity.
    unfold Worker.read_form. rewrite F. cbn [bind].
    change (Worker.get (lit "messages")
              [(lit "messages", Worker.EntryFile (encode (history h)));
               (lit "image", Worker.EntryFile image)])
      with (Some (Worker.EntryFile (encode (history h)))).
    change (Worker.get (lit "image")
              [(lit "messages", Worker.EntryFile (encode (history h)));
               (lit "image", Worker.EntryFile image)])
      with (Some (Worker.EntryFile image)).
    cbn [Worker.truthy]. rewrite history_bytes by exact U.
    unfold JSON_parse. rewrite parse_history. reflexivity.
Qed.

Lemma prepare_delivered (r : Request) (request : Worker.Request) :
  delivered r request -> Wire.units (sent_messages r) ->
  Worker.prepare request
  = Normal ((if existsb Wire.is_system (sent_messages r)
             then [] else [Worker.system_message])
            ++ map message_value (sent_messages r)
            ++ image_part (sent_image r)).
Proof.
  intros D U. rewrite prepare_eq, (received_delivered r) by assumption.
  cbn [bind fst snd]. rewrite some_is_system. cbn [bind].
  now destruct (existsb Wire.is_system (sent_messages r)).
Qed.

End WireFacts.

Lemma history_head (l : list Submission) :
  exists rest,
    chatHistory (session l) = mkMessage assistant greeting :: rest /\
    Forall (fun m => role m <> system) (chatHistory (session l)).
Proof.
  induction l as [|s l IH] using rev_ind.
  - exists []. split; [reflexivity|]. repeat constructor. discriminate.
  - destruct IH as (rest & E & F).
    destruct (history_snoc l s) as (more & E' & M).
    exists (rest ++ more). rewrite E'. split; [now rewrite E|].
    apply Forall_app. split; [exact F|].
    destruct M as [->|[[m ->]|(m & c & ->)]];
      repeat constructor; discriminate.
Qed.

(** Every request of a session was made by a submission from the history
    as it then was. *)
Lemma fetched_in_session (l : list Submission) (r : Request) :
  In r (fetched (session l)) ->
  exists before s, r = request_of (chatHistory (session before)) s.
Proof.
  induction l as [|s l IH] using rev_ind; [intros []|].
  rewrite fetched_snoc. intros I. apply in_app_or in I.
  destruct I as [I|I]; [now apply IH|].
  destruct (submits s); [|destruct I].
  destruct I as [<-|[]]. now exists l, s.
Qed.

Module WireProps.

Import UTF16 UTF8 Stringify Wire UTF16Facts UTF8Facts StringifyFacts WireFacts.
Import WorkerSpec WorkerFacts.

Local Open Scope N_scope.

Lemma no_system (h : list Message) :
  Forall (fun m => role m <> system) h -> existsb Wire.is_system h = false.
Proof.
  induction 1 as [|m h R _ IH]; [reflexivity|].
  cbn [existsb]. rewrite IH. unfold Wire.is_system.
  now destruct (role m).
Qed.

(** The history goes over the wire unharmed.  The page sends its history
    as the text [JSON.stringify] makes of it, and the text travels as
    UTF-8.  Whatever the messages hold (quotes, backslashes, line feeds
    and other control characters, characters outside the basic plane,
    surrogates without their other half), the worker's [JSON.parse] of
    the decoded bytes gives an array with one object per message, in
    order, whose [role] and [content] are those of the message, code
    unit for code unit: as the value of [messages] of the JSON body, and
    as the whole of the [messages] part of a form. *)
Theorem history_survives_the_wire (h : list Message) :
  Wire.units h ->
  JSON.parse (utf8_decode (encode (Stringify.messages_object h)))
  = Some (JObject [(lit "messages", JArray (map message_value h))]) /\
  JSON.parse (utf8_decode (encode (history h)))
  = Some (JArray (map message_value h)).
Proof.
  intros U. rewrite body_bytes, history_bytes by exact U.
  split; [apply parse_body|apply parse_history].
Qed.

Lemma history_survives_the_wire_witness :
  let h := [mkMessage assistant (lit "a 'b' \ c" ++ [10; 55357; 56832; 56832]);
            mkMessage user []] in
  Wire.units h /\
  JSON.parse (utf8_decode (encode (Stringify.messages_object h)))
  = Some (JObject [(lit "messages", JArray (map message_value h))]).
Proof.
  cbn zeta.
  assert (U : Wire.units
                [mkMessage assistant
                   (lit "a 'b' \ c" ++ [10; 55357; 56832; 56832]);
                 mkMessage user []])
    by (repeat (constructor; try reflexivity)).
  split; [exact U|].
  exact (proj1 (history_survives_the_wire _ U)).
Defined.

(** The worker and the page agree on the format of a request.  Whatever
    request the page makes, as JSON or as a form with an image, the
    worker that is handed it calls the model, and with these messages:
    the default system message, unless a message of the page has the
    system role; then the messages of the page, in order; then, if the
    request carries an image that is not empty, the message with the
    image in base64.  The reply is the model's, or the fixed 500 reply
    when the model call is rejected: reading the request never fails. *)
Theorem worker_reads_what_the_page_sent
  (AI_run : JsString -> list JsValue -> N -> bool -> completion Worker.Response)
  (r : Request) (request : Worker.Request) :
  delivered r request -> Wire.units (sent_messages r) ->
  Worker.handleChatRequest AI_run request
  = reply AI_run
      ((if existsb Wire.is_system (sent_messages r)
        then [] else [Worker.system_message])
       ++ map message_value (sent_messages r)
       ++ image_part (sent_image r)).
Proof.
  intros D U. unfold Worker.handleChatRequest, reply.
  rewrite (prepare_delivered r) by assumption. reflexivity.
Qed.

Lemma worker_reads_what_the_page_sent_witness :
  let ai := fun (_ : JsString) (messages : list JsValue) (_ : N) (_ : bool) =>
              Normal (Worker.mkResponse 200 None
                        (match messages with
                         | [_; _; _] => lit "three"
                         | _ => lit "other"
                         end)) in
  let r := mkRequest (lit "/api/chat") (lit "POST")
             (FormData [mkMessage user (lit "hi")] [x01; x02; x03]) in
  let request :=
    Worker.mkRequest (lit "/api/chat") (lit "POST")
      (Some (lit "multipart/form-data; boundary=x"))
      (Normal [(lit "messages",
                Worker.EntryFile (encode (history [mkMessage user (lit "hi")])));
               (lit "image", Worker.EntryFile [x01; x02; x03])])
      [] in
  delivered r request /\ Wire.units (sent_messages r) /\
  Worker.handleChatRequest ai request = (Worker.mkResponse 200 None (lit "three"), None).
Proof.
  cbn zeta.
  assert (D : delivered
                (mkRequest (lit "/api/chat") (lit "POST")
                   (FormData [mkMessage user (lit "hi")] [x01; x02; x03]))
                (Worker.mkRequest (lit "/api/chat") (lit "POST")
                   (Some (lit "multipart/form-data; boundary=x"))
                   (Normal [(lit "messages",
                             Worker.EntryFile
                               (encode (history [mkMessage user (lit "hi")])));
                            (lit "image", Worker.EntryFile [x01; x02; x03])])
                   [])).
  { split; [reflexivity|]. split; [reflexivity|].
    split; [now exists (lit "x")|reflexivity]. }
  assert (U : Wire.units
                (sent_messages
                   (mkRequest (lit "/api/chat") (lit "POST")
                      (FormData [mkMessage user (lit "hi")] [x01; x02; x03]))))
    by (repeat (constructor; try reflexivity)).
  split; [exact D|]. split; [exact U|].
  etransitivity;
    [exact (worker_reads_what_the_page_sent
              (fun _ messages _ _ =>
                 Normal (Worker.mkResponse 200 None
                           (match messages with
                            | [_; _; _] => lit "three"
                            | _ => lit "other"
                            end))) _ _ D U)|].
  reflexivity.
Defined.

(** The page and the worker, end to end.  Every request that a session
    of the page makes holds the greeting first and a user message last.  The worker's
    [fetch] routes it to the chat handler, and since the page never puts
    a system message in its history, the model is always called with the
    default system message first, then the whole history of the page as
    it was sent, then the image message if an image that is not empty
    was picked. *)
Theorem session_requests_reach_the_model
  (ASSETS_fetch : Worker.Request -> Worker.Response)
  (AI_run : JsString -> list JsValue -> N -> bool -> completion Worker.Response)
  (l : list Submission) (r : Request) (request : Worker.Request) :
  In r (fetched (session l)) ->
  delivered r request -> Wire.units (sent_messages r) ->
  (exists earlier text,
     sent_messages r
     = mkMessage assistant greeting :: earlier ++ [mkMessage user text]) /\
  Worker.fetch ASSETS_fetch AI_run request
  = reply AI_run
      (Worker.system_message
       :: map message_value (sent_messages r) ++ image_part (sent_image r)).
Proof.
  intros I D U.
  destruct (fetched_in_session l r I) as (before & s & R).
  destruct (history_head before) as (rest & E & F).
  assert (M : sent_messages r
              = chatHistory (session before)
                ++ [mkMessage user (trim (typed s))])
    by (rewrite R; unfold sent_messages, request_of; cbn [body];
        now destruct (picked s)).
  split.
  - exists rest, (trim (typed s)). now rewrite M, E.
  - assert (P : Worker.pathname request = lit "/api/chat")
      by (destruct D as (-> & _); now rewrite R).
    assert (Q : Worker.method request = lit "POST")
      by (destruct D as (_ & -> & _); now rewrite R).
    unfold Worker.fetch. rewrite P, Q.
    change (JsStr.eqb (lit "/api/chat") (lit "/")
            || negb (startsWith (lit "/api/chat") (lit "/api/")))
      with false.
    change (JsStr.eqb (lit "/api/chat") (lit "/api/chat")) with true.
    change (JsStr.eqb (lit "POST") (lit "POST")) with true. cbv iota.
    unfold Worker.handleChatRequest, reply.
    rewrite (prepare_delivered r) by assumption.
    rewrite no_system; [reflexivity|].
    rewrite M. apply Forall_app. split; [exact F|].
    repeat constructor. discriminate.
Qed.

Lemma session_requests_reach_the_model_witness :
  let assets := fun _ : Worker.Request => Worker.mkResponse 200 None (lit "index") in
  let ai := fun (_ : JsString) (messages : list JsValue) (_ : N) (_ : bool) =>
              Normal (Worker.mkResponse 200 None
                        (match messages with
                         | [_; _; _] => lit "three"
                         | _ => lit "other"
                         end)) in
  let l := [mkSubmission (lit " hi ") [] (Rejected TypeError)] in
  let r := mkRequest (lit "/api/chat") (lit "POST")
             (JsonBody [mkMessage assistant greeting;
                        mkMessage user (lit "hi")]) in
  let request :=
    Worker.mkRequest (lit "/api/chat") (lit "POST")
      (Some (lit "application/json")) (Throw TypeError)
      (utf8_decode
         (encode (Stringify.messages_object [mkMessage assistant greeting;
                                  mkMessage user (lit "hi")]))) in
  In r (fetched (session l)) /\
  delivered r request /\ Wire.units (sent_messages r) /\
  Worker.fetch assets ai request = (Worker.mkResponse 200 None (lit "three"), None).
Proof.
  cbn zeta.
  assert (I : In (mkRequest (lit "/api/chat") (lit "POST")
                    (JsonBody [mkMessage assistant greeting;
                               mkMessage user (lit "hi")]))
                (fetched
                   (session [mkSubmission (lit " hi ") [] (Rejected TypeError)])))
    by (left; reflexivity).
  assert (D : delivered
                (mkRequest (lit "/api/chat") (lit "POST")
                   (JsonBody [mkMessage assistant greeting;
                              mkMessage user (lit "hi")]))
                (Worker.mkRequest (lit "/api/chat") (lit "POST")
                   (Some (lit "application/json")) (Throw TypeError)
                   (utf8_decode
                      (encode
                         (Stringify.messages_object [mkMessage assistant greeting;
                                          mkMessage user (lit "hi")])))))
    by (repeat split; reflexivity).
  assert (U : Wire.units
                (sent_messages
                   (mkRequest (lit "/api/chat") (lit "POST")
                      (JsonBody [mkMessage assistant greeting;
                                 mkMessage user (lit "hi")]))))
    by (repeat (constructor; try reflexivity)).
  split; [exact I|]. split; [exact D|]. split; [exact U|].
  etransitivity;
    [exact (proj2 (session_requests_reach_the_model
                     (fun _ => Worker.mkResponse 200 None (lit "index"))
                     (fun _ messages _ _ =>
                        Normal (Worker.mkResponse 200 None
                                  (match messages with
                                   | [_; _; _] => lit "three"
                                   | _ => lit "other"
                                   end))) _ _ _ I D U))|].
  reflexivity.
Defined.

End WireProps.
